(** * build_dataset.py: the posts and users tables

    A shallow embedding of [src/build_dataset.py] and the properties of the
    two tables it builds.

    The script works on pandas data frames.  A frame is modelled column by
    column, as pandas stores it: an ordered list of labelled series, a series
    being the list of its cells.  Frames live in a store of objects, because
    the script renames, assigns and sorts in place; the file system is the
    second half of the program state.

    Scope of the model.
    - Cells are the values a JSON export can hold (null, integer, string,
      boolean, list of strings) plus the parsed instants [to_datetime] makes
      and the means of the users table.
      Numbers are exact integers.  pandas adds in int64, which wraps
      around at 2^63, or in float64 (an integer column with a missing value
      is a float column), which rounds above 2^53; the two agree with the
      exact sum as long as the counts of a column add up, in absolute value,
      to at most 2^53.  The theorems that give the value of a sum or of a
      mean in one of the two tables carry that bound as a hypothesis
      ([exact_counts]).
    - A text is the string of its UTF-8 bytes.  Python writes a file in
      UTF-8 and cannot encode a lone surrogate, which JSON can hold; the
      theorems about how [main] ends take the texts of the input to be
      well-formed ([encodable]).  Failures of the file system itself are not
      modelled.
    - Where Python's dynamic typing leaves the fragment above (adding a
      string to a number, ordering a string against a number, a list used as
      a key, a frame with a repeated column label) the model stops with
      [Unsupported].  Python raises in most of these cases, and accepts a
      few; no property is claimed there.
    - The row index is not modelled: the script writes with [index=False] and
      never reads the labels.
    - [print] is not modelled, nor are directories ([DATA_DIR.mkdir] creates
      no file).
    - The text-to-instant parser of pandas, its formatting of non-string
      cells for CSV, the JSON decoder, the platform and the version of the
      csv module are parameters of the development. *)

From Stdlib Require Import ZArith String Ascii Bool Lia.
From Stdlib Require Import Sorting.Sorted Sorting.Permutation.
From Stdlib Require Import Structures.OrdersEx.
From stdpp Require Import base option list gmap strings pretty.

Local Open Scope string_scope.
Local Open Scope list_scope.
Local Open Scope Z_scope.

(** ** Cells *)

Inductive cell :=
| NaN                       (* float nan: a key missing from a record *)
| PyNone                    (* an explicit JSON null in an object column *)
| NaT                       (* the missing instant *)
| Int (z : Z)
| Str (s : string)
| Bool (b : bool)
| StrList (l : list string)
| Time (t : Z)              (* UTC instant, nanoseconds since the epoch *)
| Quot (n : Z) (d : positive).  (* a mean: the float64 quotient of n by d *)

#[global] Instance cell_eq_dec : EqDecision cell.
Proof. solve_decision. Defined.

#[global] Instance cell_inhabited : Inhabited cell := populate NaN.

(** [pd.isna] *)
Definition isna (c : cell) : bool :=
  match c with
  | NaN | PyNone | NaT => true
  | _ => false
  end.

Abbreviation Series := (list cell).

(** A frame: its labelled columns, in order. *)
Abbreviation DataFrame := (list (string * list cell)).

Definition columns (df : DataFrame) : list string := map fst df.

(** [len(df)], read off the first column. *)
Definition nrows (df : DataFrame) : nat :=
  match df with
  | [] => 0%nat
  | (_, s) :: _ => length s
  end.

(** Every column has the same number of cells. *)
Definition rectangular (df : DataFrame) : Prop :=
  Forall (λ cs, length cs.2 = nrows df) df.

(** ** Exceptions and results *)

Inductive exn :=
| ValueError (msg : string)
| KeyError (key : string)
| FileNotFoundError (path : string)
| JSONDecodeError
| Unsupported.

(** [type(e).__name__] *)
Definition exn_class (e : exn) : string :=
  match e with
  | ValueError _ => "ValueError"
  | KeyError _ => "KeyError"
  | FileNotFoundError _ => "FileNotFoundError"
  | JSONDecodeError => "JSONDecodeError"
  | Unsupported => "Unsupported"
  end.

Definition result (A : Type) : Type := exn + A.

Definition rbind {A B} (r : result A) (k : A → result B) : result B :=
  match r with
  | inl e => inl e
  | inr a => k a
  end.

Notation "x <- r ;;; k" := (rbind r (λ x, k))
  (at level 100, r at next level, right associativity).

Fixpoint rmapM {A B} (f : A → result B) (l : list A) : result (list B) :=
  match l with
  | [] => inr []
  | a :: l' => b <- f a;;; bs <- rmapM f l';;; inr (b :: bs)
  end.

(** ** Frame primitives *)

Fixpoint nodupb (l : list string) : bool :=
  match l with
  | [] => true
  | c :: l' => negb (existsb (String.eqb c) l') && nodupb l'
  end.

(** [c in df.columns] *)
Definition has_column (df : DataFrame) (c : string) : bool :=
  existsb (String.eqb c) (columns df).

Fixpoint col_lookup (c : string) (df : DataFrame) : option Series :=
  match df with
  | [] => None
  | (c', s) :: df' => if String.eqb c c' then Some s else col_lookup c df'
  end.

(** [df[c]]; frames with a repeated label are outside the model. *)
Definition getitem (df : DataFrame) (c : string) : result Series :=
  if nodupb (columns df) then
    match col_lookup c df with
    | Some s => inr s
    | None => inl (KeyError c)
    end
  else inl Unsupported.

(** [df[cols]]: the listed columns, in the listed order, as a new frame. *)
Definition select (df : DataFrame) (cols : list string) : result DataFrame :=
  rmapM (λ c, s <- getitem df c;;; inr (c, s)) cols.

Fixpoint rename_label (table : list (string * string)) (c : string) : string :=
  match table with
  | [] => c
  | (old, new) :: table' => if String.eqb c old then new else rename_label table' c
  end.

(** [df.rename(columns=table)] *)
Definition rename (table : list (string * string)) (df : DataFrame) : DataFrame :=
  map (λ cs, (rename_label table cs.1, cs.2)) df.

(** [df[c] = s]: replace the column where the label exists, else append it. *)
Fixpoint set_col (c : string) (s : Series) (df : DataFrame) : DataFrame :=
  match df with
  | [] => [(c, s)]
  | (c', s') :: df' =>
      if String.eqb c c' then (c, s) :: df' else (c', s') :: set_col c s df'
  end.

(** [df.take(indexer)] on one series. *)
Definition take (indexer : list nat) (s : Series) : Series :=
  map (λ i, s !!! i) indexer.

Definition take_rows (indexer : list nat) (df : DataFrame) : DataFrame :=
  map (λ cs, (cs.1, take indexer cs.2)) df.

(** ** Sorting

    [sort_values] on several keys goes through NumPy's [lexsort]: one stable
    pass per key, the least significant key first.  The stable pass is
    modelled by insertion sort. *)

Section StableSort.
Context {A : Type} (le : A → A → bool).

Fixpoint insert_sorted (x : A) (l : list A) : list A :=
  match l with
  | [] => [x]
  | y :: t => if le x y then x :: y :: t else y :: insert_sorted x t
  end.

Fixpoint stable_sort (l : list A) : list A :=
  match l with
  | [] => []
  | x :: t => insert_sorted x (stable_sort t)
  end.

(** [a] stands somewhere before [b] in [l]. *)
Fixpoint before (a b : A) (l : list A) : Prop :=
  match l with
  | [] => False
  | y :: t => (y = a ∧ In b t) ∨ before a b t
  end.
End StableSort.

(** The order of values of one kind; values of different kinds never meet in
    a column that passed [sortable]. *)
Definition cell_rank (c : cell) : Z :=
  match c with
  | NaN => 0 | PyNone => 1 | NaT => 2 | Bool _ => 3
  | Int _ => 4 | Time _ => 5 | Str _ => 6 | StrList _ => 7 | Quot _ _ => 8
  end.

Definition val_leb (a b : cell) : bool :=
  match a, b with
  | Int x, Int y => x <=? y
  | Time x, Time y => x <=? y
  | Str s, Str t => String.leb s t
  | _, _ => cell_rank a <=? cell_rank b
  end.

(** The comparison of one sort key: missing values last, whatever the
    direction ([na_position='last']). *)
Definition key_leb (ascending : bool) (a b : cell) : bool :=
  if isna b then true
  else if isna a then false
  else if ascending then val_leb a b else val_leb b a.

Inductive kind := KInt | KStr | KTime.

Definition same_kind (k : kind) (c : cell) : bool :=
  isna c ||
  match k, c with
  | KInt, Int _ | KStr, Str _ | KTime, Time _ => true
  | _, _ => false
  end.

(** A key column can be ordered when its values are all integers, all
    strings or all instants, missing values apart. *)
Definition sortable (s : Series) : bool :=
  forallb (same_kind KInt) s || forallb (same_kind KStr) s
  || forallb (same_kind KTime) s.

Definition lexsort_indexer (keys : list (Series * bool)) (n : nat) : list nat :=
  foldr (λ k idx,
           stable_sort (λ i j, key_leb k.2 (k.1 !!! i) (k.1 !!! j)) idx)
        (seq 0 n) keys.

(** [df.sort_values(by, ascending=ascending)].  On a single key pandas sorts
    with NumPy's quicksort, which leaves the order of rows with equal keys
    open: the model keeps their order, the program may not.  The script
    sorts on a single key once, the users table on [total_engagement]; the
    theorems about that table state its rows one by one and the order of
    their totals, and nothing about the order among rows with equal
    totals. *)
Definition sort_values (by_ : list string) (ascending : list bool)
    (df : DataFrame) : result DataFrame :=
  if negb (length ascending =? length by_)%nat then
    inl (ValueError "Length of ascending != length of by")
  else
    keys <- rmapM (getitem df) by_;;;
    if forallb sortable keys then
      inr (take_rows (lexsort_indexer (zip keys ascending) (nrows df)) df)
    else inl Unsupported.

(** ** Cell operations *)

(** [+] on two cells of numeric columns: a missing operand gives [nan].
    Other operands (texts, which [+] would concatenate, booleans, lists) are
    outside the model.  The sum is the exact one; it is the sum pandas
    computes, in int64 or in float64, on the tables [exact_counts]
    accepts. *)
Definition cell_add (a b : cell) : result cell :=
  if isna a || isna b then inr NaN
  else match a, b with
       | Int x, Int y => inr (Int (x + y))
       | _, _ => inl Unsupported
       end.

Definition series_add (a b : Series) : result Series :=
  rmapM (λ p, cell_add p.1 p.2) (zip a b).

(** [str(c)], as [astype(str)] of pandas 1 and 2 applies it to each cell of
    an object column.  A text is left as it is, in every version of pandas;
    what becomes of the other cells depends on the version and on the type
    of the column (pandas 3 keeps a missing value missing; a number in a
    float column prints with its decimal point), and the theorems about the
    values of [post_id] speak of short codes that are texts. *)
Definition py_str (c : cell) : result string :=
  match c with
  | Str s => inr s
  | Int z => inr (pretty z)
  | Bool true => inr "True"
  | Bool false => inr "False"
  | PyNone => inr "None"
  | NaN => inr "nan"
  | NaT => inr "NaT"
  | StrList _ | Time _ | Quot _ _ => inl Unsupported
  end.

Definition astype_str (s : Series) : result Series :=
  rmapM (λ c, t <- py_str c;;; inr (Str t)) s.

(** [repr] of a list of plain names (no quote, backslash or control
    character), as an f-string prints it. *)
Definition repr_names (l : list string) : string :=
  "[" +:+ String.concat ", " (map (λ s, "'" +:+ s +:+ "'") l) +:+ "]".

(** ** The store *)

Definition loc := nat.

Record state := State {
  heap : gmap loc DataFrame;       (* the frame objects *)
  files : gmap string string;      (* path to content *)
}.

Definition M (A : Type) : Type := state → result A * state.

Definition ret {A} (a : A) : M A := λ σ, (inr a, σ).
Definition raise {A} (e : exn) : M A := λ σ, (inl e, σ).
Definition lift {A} (r : result A) : M A := λ σ, (r, σ).

Definition bind {A B} (m : M A) (k : A → M B) : M B :=
  λ σ, match m σ with
       | (inl e, σ') => (inl e, σ')
       | (inr a, σ') => k a σ'
       end.

Notation "x <~ m ;; k" := (bind m (λ x, k))
  (at level 100, m at next level, right associativity).
Notation "m ;; k" := (bind m (λ _, k))
  (at level 100, right associativity).

Definition deref (l : loc) : M DataFrame :=
  λ σ, match heap σ !! l with
       | Some df => (inr df, σ)
       | None => (inl Unsupported, σ)
       end.

Definition store (l : loc) (df : DataFrame) : M unit :=
  λ σ, (inr tt, State (<[l := df]> (heap σ)) (files σ)).

Definition alloc (df : DataFrame) : M loc :=
  λ σ, let l := fresh (dom (heap σ)) in
       (inr l, State (<[l := df]> (heap σ)) (files σ)).

(** [df[c]] on an object *)
Definition getitem_at (l : loc) (c : string) : M Series :=
  df <~ deref l;; lift (getitem df c).

(** [df[cols]]: a new object *)
Definition getitem_list (l : loc) (cols : list string) : M loc :=
  df <~ deref l;; sel <~ lift (select df cols);; alloc sel.

(** [df.copy()]: a new object with the same columns *)
Definition copy (l : loc) : M loc :=
  df <~ deref l;; alloc df.

(** [df.rename(columns=table, inplace=True)] *)
Definition rename_inplace (l : loc) (table : list (string * string)) : M unit :=
  df <~ deref l;; store l (rename table df).

(** [df[c] = s] *)
Definition setitem (l : loc) (c : string) (s : Series) : M unit :=
  df <~ deref l;; store l (set_col c s df).

(** [df.sort_values(by, ascending=ascending, inplace=True)] *)
Definition sort_values_inplace (l : loc) (by_ : list string)
    (ascending : list bool) : M unit :=
  df <~ deref l;; df' <~ lift (sort_values by_ ascending df);; store l df'.

(** ** Aggregation *)

(** [Series.nunique()]: distinct values, missing ones dropped. *)
Definition nunique (s : Series) : nat :=
  length (remove_dups (filter (λ c, isna c = false) s)).

(** [sum], missing values skipped; the empty sum is 0.  The sum is the
    exact one, which is what pandas computes, in int64 or in float64, on the
    columns [exact_counts] accepts. *)
Fixpoint sum_skipna (s : Series) : result Z :=
  match s with
  | [] => inr 0
  | c :: s' =>
      r <- sum_skipna s';;;
      if isna c then inr r
      else match c with
           | Int z => inr (z + r)
           | _ => inl Unsupported
           end
  end.

Definition agg_sum (s : Series) : result cell :=
  t <- sum_skipna s;;; inr (Int t).

(** [mean], missing values skipped; [nan] when nothing is left.  pandas
    divides the sum by the number of values in float64: [Quot t n] stands
    for that quotient. *)
Definition agg_mean (s : Series) : result cell :=
  t <- sum_skipna s;;;
  match length (filter (λ c, isna c = false) s) with
  | O => inr NaN
  | S n => inr (Quot t (Pos.of_succ_nat n))
  end.

Fixpoint instants (s : Series) : result (list Z) :=
  match s with
  | [] => inr []
  | c :: s' =>
      r <- instants s';;;
      if isna c then inr r
      else match c with
           | Time t => inr (t :: r)
           | _ => inl Unsupported
           end
  end.

(** [min] and [max] of a datetime column, [NaT] skipped. *)
Definition agg_min (s : Series) : result cell :=
  ts <- instants s;;;
  match ts with
  | [] => inr NaT
  | t :: ts' => inr (Time (foldr Z.min t ts'))
  end.

Definition agg_max (s : Series) : result cell :=
  ts <- instants s;;;
  match ts with
  | [] => inr NaT
  | t :: ts' => inr (Time (foldr Z.max t ts'))
  end.

Definition agg_nunique (s : Series) : result cell :=
  inr (Int (Z.of_nat (nunique s))).

(** With [dropna=False] every missing value of a key column is the one key
    [nan]. *)
Definition norm_na (c : cell) : cell := if isna c then NaN else c.

(** The cells the model takes as group keys: a list cannot be hashed;
    booleans, which Python identifies with 0 and 1, are left out. *)
Definition hashable_key (c : cell) : bool :=
  match c with
  | StrList _ | Bool _ | Quot _ _ => false
  | _ => true
  end.

(** The key of each row: one cell per key column. *)
Definition row_keys (ks : list Series) (n : nat) : list (list cell) :=
  map (λ i, map (λ k, norm_na (k !!! i)) ks) (seq 0 n).

(** The rows of the group [g], in table order. *)
Definition group_rows (keys : list (list cell)) (g : list cell) : list nat :=
  filter (λ i, keys !! i = Some g) (seq 0 (length keys)).

(** The distinct keys, ordered key column by key column ([sort=True]),
    the missing key last. *)
Definition group_keys (keys : list (list cell)) : list (list cell) :=
  let uniq := remove_dups keys in
  let width := match uniq with [] => O | g :: _ => length g end in
  let cols := map (λ j, (map (λ g, g !!! j) uniq, true)) (seq 0 width) in
  map (λ i, uniq !!! i) (lexsort_indexer cols (length uniq)).

(** [df.groupby(by, dropna=False).agg(name=(column, function), ...)
       .reset_index()] *)
Definition groupby_agg (by_ : list string)
    (aggs : list (string * (string * (Series → result cell))))
    (df : DataFrame) : result DataFrame :=
  ks <- rmapM (getitem df) by_;;;
  if forallb (forallb hashable_key) ks then
    let keys := row_keys ks (nrows df) in
    let groups := group_keys keys in
    let key_cols :=
      imap (λ j c, (c, map (λ g, g !!! j) groups)) by_ in
    agg_cols <- rmapM (λ a,
        s <- getitem df a.2.1;;;
        vs <- rmapM (λ g, a.2.2 (take (group_rows keys g) s)) groups;;;
        inr (a.1, vs)) aggs;;;
    inr (key_cols ++ agg_cols)
  else inl Unsupported.

(** ** CSV output *)

Definition comma : ascii := ","%char.
Definition dquote : ascii := "034"%char.
Definition CR : ascii := "013"%char.
Definition LF : ascii := "010"%char.

Definition is_break (c : ascii) : bool := Ascii.eqb c CR || Ascii.eqb c LF.

Fixpoint string_existsb (p : ascii → bool) (s : string) : bool :=
  match s with
  | EmptyString => false
  | String c s' => p c || string_existsb p s'
  end.

Fixpoint double_quotes (s : string) : string :=
  match s with
  | EmptyString => EmptyString
  | String c s' =>
      if Ascii.eqb c dquote then String dquote (String dquote (double_quotes s'))
      else String c (double_quotes s')
  end.

Definition quoted (f : string) : string :=
  String dquote (double_quotes f +:+ String dquote EmptyString).

(** [os.name] and the [os.linesep] that goes with it. *)
Inductive os_name := posix | nt.

Definition linesep (os : os_name) : string :=
  match os with
  | posix => String LF EmptyString
  | nt => String CR (String LF EmptyString)
  end.

(** ** The script *)

Definition RAW_POSTS_JSON : string := "data/apify_profiles_posts.json".
Definition POSTS_CSV : string := "data/posts.csv".
Definition USERS_CSV : string := "data/users.csv".

Definition required_cols : list string :=
  [ "id"; "shortCode"; "type"; "productType"; "caption"; "hashtags";
    "mentions"; "url"; "likesCount"; "commentsCount"; "timestamp";
    "ownerUsername"; "ownerFullName"; "ownerId"; "isCommentsDisabled";
    "inputUrl" ].

Definition rename_table : list (string * string) :=
  [ ("id", "ig_post_id"); ("shortCode", "shortcode"); ("type", "post_type");
    ("productType", "product_type"); ("url", "post_url");
    ("likesCount", "likes"); ("commentsCount", "comments");
    ("ownerUsername", "owner_username"); ("ownerFullName", "owner_full_name");
    ("ownerId", "owner_id"); ("inputUrl", "owner_profile_url") ].

Definition col_order : list string :=
  [ "post_id"; "ig_post_id"; "shortcode"; "post_type"; "product_type";
    "post_url"; "owner_username"; "owner_full_name"; "owner_id";
    "owner_profile_url"; "caption"; "hashtags"; "mentions"; "likes";
    "comments"; "engagement_raw"; "timestamp"; "isCommentsDisabled" ].

Definition owner_key : list string :=
  [ "owner_username"; "owner_full_name"; "owner_id"; "owner_profile_url" ].

Definition user_aggs : list (string * (string * (Series → result cell))) :=
  [ ("posts_count", ("post_id", agg_nunique));
    ("total_likes", ("likes", agg_sum));
    ("total_comments", ("comments", agg_sum));
    ("total_engagement", ("engagement_raw", agg_sum));
    ("avg_likes", ("likes", agg_mean));
    ("avg_comments", ("comments", agg_mean));
    ("avg_engagement", ("engagement_raw", agg_mean));
    ("first_post_timestamp", ("timestamp", agg_min));
    ("last_post_timestamp", ("timestamp", agg_max)) ].

Section Script.

(** pandas' reading of one timestamp text in the context of its column
    (the format is guessed from the column); [None] when it cannot be
    read. *)
Context (parse_datetime : Series → string → option Z).
(** pandas' CSV text of a cell that is neither missing nor a string. *)
Context (format_cell : Series → cell → string).
(** [json.load] followed by [pd.DataFrame]. *)
Context (read_json : string → result DataFrame).
(** The platform, which fixes [os.linesep], and whether the csv module
    quotes CR and LF whatever the line terminator is (it does from Python
    3.13 on). *)
Context (os : os_name) (quote_breaks : bool).

(** [pd.to_datetime(s, errors="coerce", utc=True)] on a column of texts. *)
Definition to_datetime (s : Series) : result Series :=
  rmapM (λ c,
    match c with
    | Str t =>
        if String.eqb t "" then inr NaT
        else match parse_datetime s t with
             | Some i => inr (Time i)
             | None => inr NaT
             end
    | NaN | PyNone | NaT => inr NaT
    | _ => inl Unsupported
    end) s.

Definition load_raw_posts (path : string) : M loc :=
  λ σ, match files σ !! path with
       | None => (inl (FileNotFoundError path), σ)
       | Some text =>
           match read_json text with
           | inl e => (inl e, σ)
           | inr df => alloc df σ
           end
       end.

Definition build_posts_table (df_raw : loc) : M loc :=
  raw <~ deref df_raw;;
  let missing :=
    List.filter (λ c, negb (has_column raw c)) required_cols in
  if negb (length missing =? 0)%nat then
    raise (ValueError
             ("Missing expected columns in JSON: " +:+ repr_names missing))
  else
    sel <~ getitem_list df_raw required_cols;;
    df <~ copy sel;;
    rename_inplace df rename_table;;
    shortcode <~ getitem_at df "shortcode";;
    post_id <~ lift (astype_str shortcode);;
    setitem df "post_id" post_id;;
    raw_ts <~ getitem_at df "timestamp";;
    ts <~ lift (to_datetime raw_ts);;
    setitem df "timestamp" ts;;
    likes <~ getitem_at df "likes";;
    comments <~ getitem_at df "comments";;
    engagement <~ lift (series_add likes comments);;
    setitem df "engagement_raw" engagement;;
    sort_values_inplace df ["owner_username"; "timestamp"] [true; false];;
    getitem_list df col_order.

Definition build_users_table (df_posts : loc) : M loc :=
  posts <~ deref df_posts;;
  grouped <~ lift (groupby_agg owner_key user_aggs posts);;
  users <~ alloc grouped;;
  sort_values_inplace users ["total_engagement"] [false];;
  ret users.

(** The text of one cell in the file: strings as they are, missing values
    as the empty text ([na_rep='']). *)
Definition csv_value (col : Series) (c : cell) : string :=
  match c with
  | Str s => s
  | _ => if isna c then "" else format_cell col c
  end.

(** The records of the file: the header, then one record per row. *)
Definition csv_records (df : DataFrame) : list (list string) :=
  columns df ::
  map (λ i, map (λ cs, csv_value cs.2 (cs.2 !!! i)) df) (seq 0 (nrows df)).

(** [to_csv] passes [os.linesep] to the csv writer. *)
Definition lineterminator : string := linesep os.

(** [QUOTE_MINIMAL]: the characters that force quotes around a field. *)
Definition special (c : ascii) : bool :=
  Ascii.eqb c comma || Ascii.eqb c dquote
  || string_existsb (Ascii.eqb c) lineterminator
  || (quote_breaks && (Ascii.eqb c CR || Ascii.eqb c LF)).

Definition csv_field (f : string) : string :=
  if string_existsb special f then quoted f else f.

(** A field the writer leaves readable: if it holds a line break, it also
    holds a character that makes the writer quote it. *)
Definition field_safe (f : string) : bool :=
  implb (string_existsb is_break f) (string_existsb special f).

(** [writerow]: a record that would come out empty is written as [""]. *)
Definition csv_line (fields : list string) : string :=
  match fields with
  | [f] => if String.eqb f "" then quoted "" else csv_field f
  | _ => String.concat "," (map csv_field fields)
  end +:+ lineterminator.

Definition csv_text (records : list (list string)) : string :=
  String.concat "" (map csv_line records).

(** [df.to_csv(path, index=False)].  The file is written in UTF-8; the
    model takes the text to be one Python can encode and the file system to
    accept it, so that the write is whole.  (On a text with a lone surrogate
    the program stops with [UnicodeEncodeError] and leaves a part of the
    file; [encodable] rules such texts out.) *)
Definition to_csv (l : loc) (path : string) : M unit :=
  df <~ deref l;;
  λ σ, (inr tt, State (heap σ) (<[path := csv_text (csv_records df)]> (files σ))).

Definition main : M unit :=
  df_raw <~ load_raw_posts RAW_POSTS_JSON;;
  df_posts <~ build_posts_table df_raw;;
  to_csv df_posts POSTS_CSV;;
  df_users <~ build_users_table df_posts;;
  to_csv df_users USERS_CSV.

(** *** The frames the two builders return

    The builders thread the store; the frames they produce depend on the
    input frame alone.  [posts_table] and [users_table] are the same steps
    on frame values; [build_posts_table_run] and [build_users_table_run]
    below prove that the objects returned hold exactly these frames. *)

Definition posts_table (raw : DataFrame) : result DataFrame :=
  let missing :=
    List.filter (λ c, negb (has_column raw c)) required_cols in
  if negb (length missing =? 0)%nat then
    inl (ValueError
           ("Missing expected columns in JSON: " +:+ repr_names missing))
  else
    sel <- select raw required_cols;;;
    let df := rename rename_table sel in
    shortcode <- getitem df "shortcode";;;
    post_id <- astype_str shortcode;;;
    let df := set_col "post_id" post_id df in
    raw_ts <- getitem df "timestamp";;;
    ts <- to_datetime raw_ts;;;
    let df := set_col "timestamp" ts df in
    likes <- getitem df "likes";;;
    comments <- getitem df "comments";;;
    engagement <- series_add likes comments;;;
    let df := set_col "engagement_raw" engagement df in
    df <- sort_values ["owner_username"; "timestamp"] [true; false] df;;;
    select df col_order.

Definition users_table (posts : DataFrame) : result DataFrame :=
  grouped <- groupby_agg owner_key user_aggs posts;;;
  sort_values ["total_engagement"] [false] grouped.

(** [main] up to the posts table. *)
Definition load_and_build : M loc :=
  df_raw <~ load_raw_posts RAW_POSTS_JSON;;
  build_posts_table df_raw.

(** *** The files [main] leaves

    The outcome of [main] and the files it leaves, as a function of the
    files it finds: the steps of [main] on file contents and frame values.
    [main_run] below proves that [main] acts on the files in exactly this
    way. *)
Definition main_files (f : gmap string string)
    : result unit * gmap string string :=
  match f !! RAW_POSTS_JSON with
  | None => (inl (FileNotFoundError RAW_POSTS_JSON), f)
  | Some json =>
      match (raw <- read_json json;;; posts_table raw) with
      | inl e => (inl e, f)
      | inr posts =>
          let f1 := <[POSTS_CSV := csv_text (csv_records posts)]> f in
          match users_table posts with
          | inl e => (inl e, f1)
          | inr users =>
              (inr tt, <[USERS_CSV := csv_text (csv_records users)]> f1)
          end
      end
  end.

(** Every field of the file is one the writer leaves readable. *)
Definition csv_safe (df : DataFrame) : Prop :=
  Forall (Forall (λ f, field_safe f = true)) (csv_records df).

End Script.

(** ** Reading a table *)

Definition raw_col (raw : DataFrame) (c : string) : Series :=
  default [] (col_lookup c raw).

(** The cell of column [c] in row [i]. *)
Definition cell_at (df : DataFrame) (c : string) (i : nat) : option cell :=
  s ← col_lookup c df; s !! i.

(** The required columns the table does not have, in the order of
    [required_cols]: the list the schema check computes. *)
Definition missing_cols (raw : DataFrame) : list string :=
  List.filter (λ c, negb (has_column raw c)) required_cols.

(** The columns of the posts table before the rows are put in order. *)
Definition unsorted_posts (raw : DataFrame) (post_id ts engagement : Series)
    : DataFrame :=
  [ ("post_id", post_id);
    ("ig_post_id", raw_col raw "id");
    ("shortcode", raw_col raw "shortCode");
    ("post_type", raw_col raw "type");
    ("product_type", raw_col raw "productType");
    ("post_url", raw_col raw "url");
    ("owner_username", raw_col raw "ownerUsername");
    ("owner_full_name", raw_col raw "ownerFullName");
    ("owner_id", raw_col raw "ownerId");
    ("owner_profile_url", raw_col raw "inputUrl");
    ("caption", raw_col raw "caption");
    ("hashtags", raw_col raw "hashtags");
    ("mentions", raw_col raw "mentions");
    ("likes", raw_col raw "likesCount");
    ("comments", raw_col raw "commentsCount");
    ("engagement_raw", engagement);
    ("timestamp", ts);
    ("isCommentsDisabled", raw_col raw "isCommentsDisabled") ].

(** The order [sort_values] puts the rows in. *)
Definition posts_indexer (raw : DataFrame) (ts : Series) : list nat :=
  lexsort_indexer [(raw_col raw "ownerUsername", true); (ts, false)]
    (length (raw_col raw "id")).

(** The owner of row [i]: its four key cells, a missing one as [nan]. *)
Definition owner_of (df : DataFrame) (i : nat) : list cell :=
  map (λ c, norm_na (raw_col df c !!! i)) owner_key.

Definition posts_keys (posts : DataFrame) : list (list cell) :=
  row_keys (map (raw_col posts) owner_key) (nrows posts).

Definition posts_groups (posts : DataFrame) : list (list cell) :=
  group_keys (posts_keys posts).

(** The cells of column [c] that belong to the group [g]. *)
Definition group_cells (posts : DataFrame) (c : string) (g : list cell)
    : Series :=
  take (group_rows (posts_keys posts) g) (raw_col posts c).

(** The distinct post ids of one group. *)
Definition group_ids (posts : DataFrame) (g : list cell) : Series :=
  remove_dups (filter (λ c, isna c = false) (group_cells posts "post_id" g)).

(** The users table, spelled out: the groups in the order of the indexer
    [idx], their keys, their post counts and the other aggregates. *)
Definition users_frame (posts : DataFrame) (idx : list nat)
    (tl tc te al ac ae first last : Series) : DataFrame :=
  take_rows idx
    [ ("owner_username", map (λ g, g !!! 0%nat) (posts_groups posts));
      ("owner_full_name", map (λ g, g !!! 1%nat) (posts_groups posts));
      ("owner_id", map (λ g, g !!! 2%nat) (posts_groups posts));
      ("owner_profile_url", map (λ g, g !!! 3%nat) (posts_groups posts));
      ("posts_count",
       map (λ g, Int (Z.of_nat (nunique (group_cells posts "post_id" g))))
         (posts_groups posts));
      ("total_likes", tl); ("total_comments", tc);
      ("total_engagement", te);
      ("avg_likes", al); ("avg_comments", ac); ("avg_engagement", ae);
      ("first_post_timestamp", first); ("last_post_timestamp", last) ].

(** The engagement of the posts of one owner, rows in table order. *)
Definition owner_engagement (posts : DataFrame) (owner : list cell) : Series :=
  map (λ i, raw_col posts "engagement_raw" !!! i)
    (filter (λ i, owner_of posts i = owner) (seq 0 (nrows posts))).

(** The cells of column [c] in the posts of one owner, rows in table
    order. *)
Definition owner_cells (posts : DataFrame) (c : string) (owner : list cell)
    : Series :=
  map (λ i, raw_col posts c !!! i)
    (filter (λ i, owner_of posts i = owner) (seq 0 (nrows posts))).

(** [Series.count()]: the number of cells that are not missing. *)
Definition series_count (s : Series) : nat :=
  length (filter (λ c, isna c = false) s).

(** The mean of [n] values whose sum is [total], as [mean] computes it: the
    float64 quotient of the sum by the number of values; [nan] when there
    is none. *)
Definition mean_of (total : Z) (n : nat) : cell :=
  match n with
  | O => NaN
  | S k => Quot total (Pos.of_succ_nat k)
  end.

(** The column [vs] holds, group by group, the aggregate [f] of the column
    [c]. *)
Definition aggregates (posts : DataFrame) (c : string)
    (f : Series → result cell) (vs : Series) : Prop :=
  Forall2 (λ g v, f (group_cells posts c g) = inr v) (posts_groups posts) vs.

(** The order [build_users_table] puts the groups in, given their
    [total_engagement]. *)
Definition users_indexer (posts : DataFrame) (te : Series) : list nat :=
  lexsort_indexer [(te, false)] (length (posts_groups posts)).

(** The labels of the users table: the group keys, then the aggregates in
    the order [agg] names them. *)
Definition users_columns : list string :=
  [ "owner_username"; "owner_full_name"; "owner_id"; "owner_profile_url";
    "posts_count"; "total_likes"; "total_comments"; "total_engagement";
    "avg_likes"; "avg_comments"; "avg_engagement";
    "first_post_timestamp"; "last_post_timestamp" ].

(** ** What a builder leaves behind *)

(** What a builder leaves behind, given the store [h] it started from and the
    frame (or exception) [pure] its steps compute: the same exception, or a
    new object holding that frame; the old objects and the files as they
    were. *)
Definition builder_outcome (h : gmap loc DataFrame) (f : gmap string string)
    (pure : result DataFrame) (out : result loc * state) : Prop :=
  ∃ h', out.2 = State h' f ∧ h ⊆ h' ∧
    match pure with
    | inl e => out.1 = inl e
    | inr df => ∃ l, out.1 = inr l ∧ h' !! l = Some df ∧ h !! l = None
    end.

(** Running [m] from [σ] returns an object that holds [df]. *)
Definition returns_frame (m : M loc) (σ : state) (df : DataFrame) : Prop :=
  ∃ l σ', m σ = (inr l, σ') ∧ heap σ' !! l = Some df.

(** ** Comparing cells *)

(** [<=] between two cells as pandas evaluates it: a comparison with a
    missing value is false. *)
Definition cell_leb (a b : cell) : bool :=
  match a, b with
  | Int x, Int y => x <=? y
  | Time x, Time y => x <=? y
  | Str s, Str t => String.leb s t
  | _, _ => false
  end.

(** Two key cells fall together: the same value, or both missing. *)
Definition same_key (a b : cell) : Prop := norm_na a = norm_na b.

(** The order of the posts table as the specification words it: on any two
    adjacent rows the usernames ascend, and under one username the earlier
    timestamp is greater than or equal to the later. *)
Definition ordered_as_specified (posts : DataFrame) : Prop :=
  ∀ p u1 u2 t1 t2,
    cell_at posts "owner_username" p = Some u1 →
    cell_at posts "owner_username" (S p) = Some u2 →
    cell_at posts "timestamp" p = Some t1 →
    cell_at posts "timestamp" (S p) = Some t2 →
    cell_leb u1 u2 = true ∧ (u1 = u2 → cell_leb t2 t1 = true).

(** ** Valid raw tables *)

Definition text_or_missing (c : cell) : bool :=
  match c with
  | Str _ => true
  | _ => isna c
  end.

Definition int_or_missing (c : cell) : bool :=
  match c with
  | Int _ => true
  | _ => isna c
  end.

Definition printable (c : cell) : bool :=
  match py_str c with
  | inr _ => true
  | inl _ => false
  end.

(** A raw table the model follows to the end: distinct labels, the required
    columns, all of one length; a short code that [str] prints; timestamps
    that are texts; counts that are integers; usernames of one kind; each
    of them possibly missing. *)
Definition valid_raw (raw : DataFrame) : bool :=
  nodupb (columns raw)
  && forallb (has_column raw) required_cols
  && forallb (λ c, (length (raw_col raw c) =? nrows raw)%nat) required_cols
  && forallb printable (raw_col raw "shortCode")
  && forallb text_or_missing (raw_col raw "timestamp")
  && forallb int_or_missing (raw_col raw "likesCount")
  && forallb int_or_missing (raw_col raw "commentsCount")
  && sortable (raw_col raw "ownerUsername").

Definition time_or_missing (c : cell) : bool :=
  match c with
  | Time _ => true
  | _ => isna c
  end.

(** The four owner columns hold cells the model takes as group keys. *)
Definition valid_owners (raw : DataFrame) : bool :=
  forallb (λ c, forallb hashable_key (raw_col raw c))
    ["ownerUsername"; "ownerFullName"; "ownerId"; "inputUrl"].

(** ** The reach of the model *)

(** The integer cells of a column, added up in absolute value. *)
Definition abs_sum (s : Series) : Z :=
  foldr (λ c acc, match c with Int z => Z.abs z + acc | _ => acc end) 0 s.

(** The counts of the columns [cols] add up, in absolute value, to at most
    2^53.  Every cell of these columns, and every sum of some of their
    cells in whatever order, is then an integer that float64 holds exactly
    and int64 without wrap-around: on such a table the sums and means of
    pandas are the exact ones. *)
Definition exact_counts (df : DataFrame) (cols : list string) : bool :=
  foldr (λ c acc, abs_sum (raw_col df c) + acc) 0 cols <=? 2 ^ 53.

Definition is_text (c : cell) : bool :=
  match c with
  | Str _ => true
  | _ => false
  end.

Definition byte_val (c : ascii) : Z := Z.of_N (N_of_ascii c).

Definition byte_in (lo hi : Z) (c : ascii) : bool :=
  (lo <=? byte_val c) && (byte_val c <=? hi).

(** Well-formed UTF-8: the byte strings that are the encoding of a text.
    The bytes ED A0 .. ED BF, which would encode a surrogate, are not among
    them. *)
Fixpoint utf8 (s : string) : bool :=
  match s with
  | EmptyString => true
  | String a s1 =>
      if byte_in 0 127 a then utf8 s1
      else
        match s1 with
        | EmptyString => false
        | String b s2 =>
            if byte_in 194 223 a then byte_in 128 191 b && utf8 s2
            else
              match s2 with
              | EmptyString => false
              | String c s3 =>
                  if byte_in 224 239 a then
                    (if byte_in 224 224 a then byte_in 160 191 b
                     else if byte_in 237 237 a then byte_in 128 159 b
                     else byte_in 128 191 b)
                    && byte_in 128 191 c && utf8 s3
                  else
                    match s3 with
                    | EmptyString => false
                    | String d s4 =>
                        byte_in 240 244 a
                        && (if byte_in 240 240 a then byte_in 144 191 b
                            else if byte_in 244 244 a then byte_in 128 143 b
                            else byte_in 128 191 b)
                        && byte_in 128 191 c && byte_in 128 191 d && utf8 s4
                    end
              end
        end
  end.

(** Every text of the table, in a cell or in a list, is one Python can
    encode. *)
Definition encodable (df : DataFrame) : bool :=
  forallb (λ cs,
      forallb (λ c, match c with
                    | Str t => utf8 t
                    | StrList l => forallb utf8 l
                    | _ => true
                    end) cs.2) df.

(** ** Reading a CSV file back

    The script never reads [posts.csv]; the specification speaks of reading
    it back. *)

Inductive read_state := FieldStart | Unquoted | Quoted | QuoteSeen.

(** Modelled from the spec: the reader of the files of section 6 ("values
    CSV-escaped"), which the repository does not contain.  It undoes the
    escaping: fields are separated by commas and records by a line break (LF,
    CR or CR LF); a field that opens with a double quote runs to the closing
    quote, a doubled quote inside standing for one; empty lines are skipped.
    Every field is read as text.  [st] is the state of the reader, [fld] the
    field and [rec] the record being read, [recs] the records read so
    far. *)
Fixpoint csv_read (st : read_state) (fld : string) (rec : list string)
    (recs : list (list string)) (s : string) : list (list string) :=
  match s with
  | EmptyString =>
      match st, rec with
      | FieldStart, [] => recs
      | FieldStart, _ => recs ++ [rec ++ [""]]
      | _, _ => recs ++ [rec ++ [fld]]
      end
  | String c s' =>
      match st with
      | FieldStart =>
          if Ascii.eqb c dquote then csv_read Quoted "" rec recs s'
          else if Ascii.eqb c comma then
            csv_read FieldStart "" (rec ++ [""]) recs s'
          else if is_break c then
            match rec with
            | [] => csv_read FieldStart "" [] recs s'
            | _ => csv_read FieldStart "" [] (recs ++ [rec ++ [""]]) s'
            end
          else csv_read Unquoted (String c "") rec recs s'
      | Unquoted =>
          if Ascii.eqb c comma then
            csv_read FieldStart "" (rec ++ [fld]) recs s'
          else if is_break c then
            csv_read FieldStart "" [] (recs ++ [rec ++ [fld]]) s'
          else csv_read Unquoted (fld +:+ String c "") rec recs s'
      | Quoted =>
          if Ascii.eqb c dquote then csv_read QuoteSeen fld rec recs s'
          else csv_read Quoted (fld +:+ String c "") rec recs s'
      | QuoteSeen =>
          if Ascii.eqb c dquote then
            csv_read Quoted (fld +:+ String dquote "") rec recs s'
          else if Ascii.eqb c comma then
            csv_read FieldStart "" (rec ++ [fld]) recs s'
          else if is_break c then
            csv_read FieldStart "" [] (recs ++ [rec ++ [fld]]) s'
          else csv_read Unquoted (fld +:+ String c "") rec recs s'
      end
  end.

(** Modelled from the spec: reading a file back, from its first
    character. *)
Definition read_csv (text : string) : list (list string) :=
  csv_read FieldStart "" [] [] text.

Fixpoint index_of (name : string) (header : list string) : option nat :=
  match header with
  | [] => None
  | h :: header' =>
      if String.eqb name h then Some O else S <$> index_of name header'
  end.

(** Modelled from the spec: the values of the column [name] of a table read
    back, the header being the first record. *)
Definition csv_column (name : string) (table : list (list string))
    : list string :=
  match table with
  | [] => []
  | header :: rows =>
      match index_of name header with
      | Some j => map (λ record, nth j record "") rows
      | None => []
      end
  end.

Definition is_delim (c : ascii) : bool :=
  Ascii.eqb c comma || Ascii.eqb c dquote || is_break c.

(** The state of the reader after a field the writer wrote. *)
Definition after_field (os : os_name) (quote_breaks : bool) (f : string)
    : read_state * string :=
  if string_existsb (special os quote_breaks) f then (QuoteSeen, f)
  else if String.eqb f "" then (FieldStart, "")
  else (Unquoted, f).

(** ** Example data *)

(** A parser that reads two instants and nothing else, and a formatter for
    the cells of the examples; the theorems below hold for every parser and
    formatter. *)
Definition sample_parse (_ : Series) (s : string) : option Z :=
  if String.eqb s "2024-01-01T00:00:00.000Z" then Some 1704067200000000000
  else if String.eqb s "2024-02-01T00:00:00.000Z" then Some 1706745600000000000
  else None.

Definition sample_format (_ : Series) (c : cell) : string :=
  match c with
  | Int z => pretty z
  | Bool true => "True"
  | Bool false => "False"
  | StrList [] => "[]"
  | Time t => pretty t
  | _ => "?"
  end.

(** Four raw records, numbered in [id]: three posts of alice, one with an
    empty timestamp and two at the same instant, and one post of Bob. *)
Definition raw_ex : DataFrame :=
  [ ("id", [Int 0; Int 1; Int 2; Int 3]);
    ("shortCode", [Str "abc"; Str "def"; Str "ghi"; Str "zzz"]);
    ("type", [Str "Image"; Str "Image"; Str "Video"; Str "Image"]);
    ("productType", [Str "feed"; Str "feed"; Str "clips"; Str "feed"]);
    ("caption", [Str "hi"; Str "a,b"; PyNone; Str "q"]);
    ("hashtags", [StrList []; StrList []; StrList []; StrList []]);
    ("mentions", [StrList []; StrList []; StrList []; StrList []]);
    ("url", [Str "u1"; Str "u2"; Str "u3"; Str "u4"]);
    ("likesCount", [Int 10; Int 1; Int 5; Int 5]);
    ("commentsCount", [Int 2; Int 2; Int 5; Int 5]);
    ("timestamp",
     [Str "2024-01-01T00:00:00.000Z"; Str "";
      Str "2024-01-01T00:00:00.000Z"; Str "2024-02-01T00:00:00.000Z"]);
    ("ownerUsername", [Str "alice"; Str "alice"; Str "alice"; Str "Bob"]);
    ("ownerFullName", [Str "Alice A"; Str "Alice A"; Str "Alice A"; NaN]);
    ("ownerId", [Str "1001"; Str "1001"; Str "1001"; Str "1002"]);
    ("isCommentsDisabled", [Bool false; Bool false; Bool false; Bool true]);
    ("inputUrl", [Str "p1"; Str "p1"; Str "p1"; Str "p2"]);
    ("extra", [Int 7; Int 7; Int 7; Int 7]) ].

Definition store_ex : state := State {[ 0%nat := raw_ex ]} ∅.

Definition posts_ex : DataFrame :=
  Eval vm_compute in
    match posts_table sample_parse raw_ex with
    | inr posts => posts
    | inl _ => []
    end.

Definition users_ex : DataFrame :=
  Eval vm_compute in
    match users_table posts_ex with
    | inr users => users
    | inl _ => []
    end.


(** [json.load] for the examples: whatever the text, the decoded table. *)
Definition read_as (raw : DataFrame) (_ : string) : result DataFrame := inr raw.

Definition disk_ex : state := State ∅ {[ RAW_POSTS_JSON := "[...]" ]}.

(** The object [build_posts_table] returns from [store_ex], and the store it
    leaves. *)
Definition built_ex : result loc * state :=
  build_posts_table sample_parse 0%nat store_ex.

(** The record of the concrete scenario of the specification. *)
Definition raw_scenario : DataFrame :=
  [ ("id", [Str "1"]);
    ("shortCode", [Str "abc"]);
    ("type", [Str "Image"]);
    ("productType", [Str "feed"]);
    ("caption", [Str "hi"]);
    ("hashtags", [StrList []]);
    ("mentions", [StrList []]);
    ("url", [Str "u1"]);
    ("likesCount", [Int 10]);
    ("commentsCount", [Int 2]);
    ("timestamp", [Str "2024-01-01T00:00:00.000Z"]);
    ("ownerUsername", [Str "alice"]);
    ("ownerFullName", [Str "Alice A"]);
    ("ownerId", [Str "1001"]);
    ("isCommentsDisabled", [Bool false]);
    ("inputUrl", [Str "p1"]) ].

(** A raw table without its [url] and [inputUrl] columns. *)
Definition raw_missing : DataFrame :=
  List.filter
    (λ cs, negb (String.eqb cs.1 "url" || String.eqb cs.1 "inputUrl")) raw_ex.

Definition store_missing : state := State {[ 0%nat := raw_missing ]} ∅.

Definition posts_store_ex : state := State {[ 0%nat := posts_ex ]} ∅.

(** Two raw records with one short code under two owners. *)
Definition raw_shared : DataFrame :=
  [ ("id", [Int 0; Int 1]);
    ("shortCode", [Str "abc"; Str "abc"]);
    ("type", [Str "Image"; Str "Image"]);
    ("productType", [Str "feed"; Str "feed"]);
    ("caption", [Str "together"; Str "together"]);
    ("hashtags", [StrList []; StrList []]);
    ("mentions", [StrList []; StrList []]);
    ("url", [Str "u1"; Str "u1"]);
    ("likesCount", [Int 10; Int 10]);
    ("commentsCount", [Int 2; Int 2]);
    ("timestamp",
     [Str "2024-01-01T00:00:00.000Z"; Str "2024-01-01T00:00:00.000Z"]);
    ("ownerUsername", [Str "alice"; Str "bob"]);
    ("ownerFullName", [Str "Alice A"; Str "Bob B"]);
    ("ownerId", [Str "1001"; Str "1002"]);
    ("isCommentsDisabled", [Bool false; Bool false]);
    ("inputUrl", [Str "p1"; Str "p2"]) ].

Definition store_shared : state := State {[ 0%nat := raw_shared ]} ∅.

(** [main] up to the posts table, from the disk of the examples. *)
Definition loaded_ex : result loc * state :=
  load_and_build sample_parse (read_as raw_ex) disk_ex.

(** One raw record whose caption holds a carriage return and no other
    character that calls for quotes. *)
Definition raw_cr : DataFrame :=
  [ ("id", [Int 0]);
    ("shortCode", [Str "abc"]);
    ("type", [Str "Image"]);
    ("productType", [Str "feed"]);
    ("caption", [Str (String "a" (String CR (String "b" "")))]);
    ("hashtags", [StrList []]);
    ("mentions", [StrList []]);
    ("url", [Str "u1"]);
    ("likesCount", [Int 10]);
    ("commentsCount", [Int 2]);
    ("timestamp", [Str "2024-01-01T00:00:00.000Z"]);
    ("ownerUsername", [Str "alice"]);
    ("ownerFullName", [Str "Alice A"]);
    ("ownerId", [Str "1001"]);
    ("isCommentsDisabled", [Bool false]);
    ("inputUrl", [Str "p1"]) ].

(** The raw table of the examples without its [extra] column, in a store of
    its own. *)
Definition raw_plain : DataFrame :=
  List.filter (λ cs, negb (String.eqb cs.1 "extra")) raw_ex.

Definition store_plain : state := State {[ 5%nat := raw_plain ]} ∅.

(** [main] on the disk of the examples, the input file decoding to
    [raw_ex]; the same with an input that lacks two columns. *)
Definition main_ex : result unit * state :=
  main sample_parse sample_format (read_as raw_ex) posix false disk_ex.

Definition main_missing_ex : result unit * state :=
  main sample_parse sample_format (read_as raw_missing) posix false disk_ex.

(** * Proofs *)

(** ** Running the store monad *)

Lemma bind_run {A B} (m : M A) (k : A → M B) σ r σ' :
  m σ = (r, σ') →
  bind m k σ = match r with
               | inl e => (inl e, σ')
               | inr a => k a σ'
               end.
Proof. intros H. unfold bind. rewrite H. by destruct r. Qed.

Lemma deref_run l df h f :
  h !! l = Some df → deref l (State h f) = (inr df, State h f).
Proof. intros H. unfold deref. simpl. by rewrite H. Qed.

Lemma getitem_at_run l c df h f :
  h !! l = Some df →
  getitem_at l c (State h f) = (getitem df c, State h f).
Proof.
  intros H. unfold getitem_at.
  by rewrite (bind_run _ _ _ _ _ (deref_run _ _ _ _ H)).
Qed.

Lemma rename_inplace_run l t df h f :
  h !! l = Some df →
  rename_inplace l t (State h f) = (inr tt, State (<[l := rename t df]> h) f).
Proof.
  intros H. unfold rename_inplace.
  by rewrite (bind_run _ _ _ _ _ (deref_run _ _ _ _ H)).
Qed.

Lemma setitem_run l c s df h f :
  h !! l = Some df →
  setitem l c s (State h f) = (inr tt, State (<[l := set_col c s df]> h) f).
Proof.
  intros H. unfold setitem.
  by rewrite (bind_run _ _ _ _ _ (deref_run _ _ _ _ H)).
Qed.

Lemma sort_values_inplace_run l by_ asc df h f :
  h !! l = Some df →
  sort_values_inplace l by_ asc (State h f) =
  match sort_values by_ asc df with
  | inl e => (inl e, State h f)
  | inr df' => (inr tt, State (<[l := df']> h) f)
  end.
Proof.
  intros H. unfold sort_values_inplace.
  rewrite (bind_run _ _ _ _ _ (deref_run _ _ _ _ H)).
  unfold bind, lift, store. by destruct (sort_values _ _ _).
Qed.

Lemma getitem_list_run l cols df h f :
  h !! l = Some df →
  getitem_list l cols (State h f) =
  match select df cols with
  | inl e => (inl e, State h f)
  | inr sel => (inr (fresh (dom h)), State (<[fresh (dom h) := sel]> h) f)
  end.
Proof.
  intros H. unfold getitem_list.
  rewrite (bind_run _ _ _ _ _ (deref_run _ _ _ _ H)).
  unfold bind, lift, alloc. by destruct (select _ _).
Qed.

Lemma copy_run l df h f :
  h !! l = Some df →
  copy l (State h f) =
  (inr (fresh (dom h)), State (<[fresh (dom h) := df]> h) f).
Proof.
  intros H. unfold copy.
  by rewrite (bind_run _ _ _ _ _ (deref_run _ _ _ _ H)).
Qed.

Lemma fresh_lookup_None (h : gmap loc DataFrame) : h !! fresh (dom h) = None.
Proof. apply not_elem_of_dom, is_fresh. Qed.

(** An object that was there before an allocation is still there. *)
Lemma lookup_insert_fresh (h : gmap loc DataFrame) l df x :
  h !! l = Some df → <[fresh (dom h) := x]> h !! l = Some df.
Proof.
  intros H. rewrite lookup_insert_ne; [done|].
  intros <-. by rewrite fresh_lookup_None in H.
Qed.

Ltac step_with H :=
  erewrite bind_run by (apply H; first [apply lookup_insert_eq | eassumption]);
  cbv beta iota.

Lemma builder_outcome_raise h h' f e :
  h ⊆ h' → builder_outcome h f (inl e) (inl e, State h' f).
Proof. intros H. by exists h'. Qed.

Section BuilderRuns.
Context (parse_datetime : Series → string → option Z).

Lemma build_posts_table_run r raw h f :
  h !! r = Some raw →
  builder_outcome h f (posts_table parse_datetime raw)
    (build_posts_table parse_datetime r (State h f)).
Proof.
  intros Hr. unfold build_posts_table, posts_table.
  step_with deref_run.
  destruct (negb _); [by apply builder_outcome_raise|].
  unfold bind at 1. erewrite getitem_list_run by eassumption.
  destruct (select raw required_cols) as [e|sel];
    [by apply builder_outcome_raise|].
  set (l1 := fresh (dom h)). set (h1 := <[l1 := sel]> h).
  assert (h ⊆ h1) as Hh1 by apply insert_subseteq, fresh_lookup_None.
  simpl rbind.
  step_with copy_run.
  set (l2 := fresh (dom h1)).
  assert (∀ df, h ⊆ <[l2 := df]> h1) as Hh2.
  { intros df. etrans; [exact Hh1|]. apply insert_subseteq, fresh_lookup_None. }
  step_with rename_inplace_run. rewrite insert_insert_eq.
  step_with getitem_at_run.
  destruct (getitem _ "shortcode") as [e|sc];
    [by apply builder_outcome_raise|]. simpl rbind.
  unfold lift at 1. unfold bind at 1.
  destruct (astype_str sc) as [e|pid];
    [by apply builder_outcome_raise|]. simpl rbind.
  step_with setitem_run. rewrite insert_insert_eq.
  step_with getitem_at_run.
  destruct (getitem _ "timestamp") as [e|rts];
    [by apply builder_outcome_raise|]. simpl rbind.
  unfold lift at 1. unfold bind at 1.
  destruct (to_datetime _ rts) as [e|ts];
    [by apply builder_outcome_raise|]. simpl rbind.
  step_with setitem_run. rewrite insert_insert_eq.
  step_with getitem_at_run.
  destruct (getitem _ "likes") as [e|likes];
    [by apply builder_outcome_raise|]. simpl rbind.
  step_with getitem_at_run.
  destruct (getitem _ "comments") as [e|comments];
    [by apply builder_outcome_raise|]. simpl rbind.
  unfold lift at 1. unfold bind at 1.
  destruct (series_add likes comments) as [e|eng];
    [by apply builder_outcome_raise|]. simpl rbind.
  step_with setitem_run. rewrite insert_insert_eq.
  unfold bind at 1.
  erewrite sort_values_inplace_run by apply lookup_insert_eq.
  destruct (sort_values _ _ _) as [e|sorted];
    [by apply builder_outcome_raise|]. simpl rbind.
  rewrite insert_insert_eq.
  erewrite getitem_list_run by apply lookup_insert_eq.
  destruct (select sorted col_order) as [e|posts];
    [by apply builder_outcome_raise|].
  eexists. split; [reflexivity|]. split; [|eexists; split; [reflexivity|split]].
  - etrans; [apply (Hh2 sorted)|]. apply insert_subseteq, fresh_lookup_None.
  - apply lookup_insert_eq.
  - eapply lookup_weaken_None; [apply fresh_lookup_None|]. apply Hh2.
Qed.

Lemma build_users_table_run r posts h f :
  h !! r = Some posts →
  builder_outcome h f (users_table posts) (build_users_table r (State h f)).
Proof.
  intros Hr. unfold build_users_table, users_table.
  step_with deref_run.
  unfold lift at 1. unfold bind at 1.
  destruct (groupby_agg _ _ posts) as [e|g];
    [by apply builder_outcome_raise|]. simpl rbind.
  unfold alloc at 1. unfold bind at 1. cbv beta iota zeta.
  simpl heap. simpl files.
  assert (∀ df, h ⊆ <[fresh (dom h) := df]> h) as Hh
    by (intros; apply insert_subseteq, fresh_lookup_None).
  unfold bind at 1.
  erewrite sort_values_inplace_run by apply lookup_insert_eq.
  destruct (sort_values _ _ g) as [e|users];
    [by apply builder_outcome_raise|].
  rewrite insert_insert_eq. unfold ret.
  eexists. split; [reflexivity|]. split; [apply Hh|].
  eexists. split; [reflexivity|].
  split; [apply lookup_insert_eq | apply fresh_lookup_None].
Qed.
End BuilderRuns.

(** ** The stable pass *)

Section StableSortFacts.
Context {A : Type} (le : A → A → bool).

Lemma before_In a b (l : list A) : before a b l → In a l ∧ In b l.
Proof.
  induction l as [|y t IH]; simpl; [done|].
  intros [[-> Hb]|H]; [by auto|]. destruct (IH H). auto.
Qed.

Lemma before_app_r a b (l1 l2 : list A) :
  before a b l2 → before a b (l1 ++ l2).
Proof. induction l1; simpl; auto. Qed.

Lemma before_middle a b (l1 l2 l3 : list A) :
  before a b (l1 ++ a :: l2 ++ b :: l3).
Proof.
  apply before_app_r. simpl. left. split; [done|].
  apply in_or_app. right. by left.
Qed.

Lemma insert_sorted_perm x (l : list A) : insert_sorted le x l ≡ₚ x :: l.
Proof.
  induction l as [|y t IH]; simpl; [done|].
  destruct (le x y); [done|]. rewrite IH. apply Permutation_swap.
Qed.

Lemma stable_sort_perm (l : list A) : stable_sort le l ≡ₚ l.
Proof.
  induction l as [|x t IH]; simpl; [done|].
  by rewrite insert_sorted_perm, IH.
Qed.

Lemma stable_sort_In x (l : list A) : In x (stable_sort le l) ↔ In x l.
Proof.
  split; apply Permutation_in; [|symmetry]; apply stable_sort_perm.
Qed.

(** Where an inserted element ends up relative to the others. *)
Lemma before_insert_sorted a b x (s : list A) :
  before a b (insert_sorted le x s) →
  (a = x ∧ In b s) ∨ (b = x ∧ In a s ∧ le x a = false) ∨ before a b s.
Proof.
  induction s as [|y t IH]; simpl.
  - intros [[_ []]|[]].
  - destruct (le x y) eqn:Hxy; simpl.
    + intros [[<- Hb]|H]; auto.
    + intros [[<- Hb]|H].
      * apply (Permutation_in _ (insert_sorted_perm x t)) in Hb.
        destruct Hb as [<-|Hb]; auto 6.
      * destruct (IH H) as [[-> Hb]|[(-> & Ha & Hle)|Hb]]; auto 7.
Qed.

(** Stability: two elements the order does not tell apart (the later not
    above the earlier) keep the order they had. *)
Lemma stable_sort_stable a b (l : list A) :
  before a b (stable_sort le l) → le b a = true → before a b l.
Proof.
  induction l as [|x t IH]; simpl; [done|].
  intros H Hba.
  destruct (before_insert_sorted _ _ _ _ H) as [[-> Hb]|[(-> & Ha & Hle)|Hb]].
  - left. split; [done|]. by apply stable_sort_In.
  - congruence.
  - right. by apply IH.
Qed.

Context (le_total : ∀ x y, le x y = false → le y x = true).
Context (le_trans : ∀ x y z, le x y = true → le y z = true → le x z = true).

Lemma insert_sorted_sorted x (s : list A) :
  StronglySorted (λ a b, le a b = true) s →
  StronglySorted (λ a b, le a b = true) (insert_sorted le x s).
Proof.
  induction 1 as [|y t Ht IH Hy]; simpl.
  - repeat constructor.
  - destruct (le x y) eqn:Hxy.
    + constructor; [by constructor|].
      constructor; [done|].
      eapply Forall_impl; [exact Hy|]. intros z Hz. by eapply le_trans.
    + constructor; [done|].
      rewrite (insert_sorted_perm x t). constructor; [|done].
      by apply le_total.
Qed.

Lemma stable_sort_sorted (l : list A) :
  StronglySorted (λ a b, le a b = true) (stable_sort le l).
Proof.
  induction l; simpl; [constructor|]. by apply insert_sorted_sorted.
Qed.

Lemma StronglySorted_before a b (l : list A) :
  StronglySorted (λ a b, le a b = true) l → before a b l → le a b = true.
Proof.
  induction 1 as [|y t Ht IH Hy]; simpl; [done|].
  intros [[-> Hb]|H]; [|by apply IH].
  rewrite List.Forall_forall in Hy. by apply Hy.
Qed.

Lemma stable_sort_before a b (l : list A) :
  before a b (stable_sort le l) → le a b = true.
Proof. apply StronglySorted_before, stable_sort_sorted. Qed.
End StableSortFacts.

Lemma before_seq i j start n : before i j (seq start n) → (i < j)%nat.
Proof.
  revert start. induction n as [|n IH]; intros start; simpl; [done|].
  intros [[<- Hj]|H]; [|by eapply IH].
  apply in_seq in Hj. lia.
Qed.

(** Positions: [a] at position [p] and [b] at a later position [q]. *)
Lemma before_lookup {A} (l : list A) p q a b :
  l !! p = Some a → l !! q = Some b → (p < q)%nat → before a b l.
Proof.
  revert p q. induction l as [|y t IH]; intros p q Hp Hq Hpq; [done|].
  destruct p as [|p]; simpl in *.
  - inversion Hp; subst. left. split; [done|].
    destruct q as [|q]; [lia|]. simpl in Hq.
    apply list_elem_of_In. by eapply list_elem_of_lookup_2.
  - destruct q as [|q]; [lia|]. right. eapply (IH p q); eauto with lia.
Qed.

(** ** The order of the keys *)

Lemma string_leb_trans s t u :
  String.leb s t = true → String.leb t u = true → String.leb s u = true.
Proof.
  unfold String.leb. intros Hst Htu.
  destruct (String.compare s t) eqn:E1; try done.
  - apply String.compare_eq_iff in E1. by subst.
  - destruct (String.compare t u) eqn:E2; try done.
    + apply String.compare_eq_iff in E2. subst. by rewrite E1.
    + assert (String_as_OT.lt s u) as H.
      { eapply (@StrictOrder_Transitive _ _ String_as_OT.lt_strorder);
          [exact E1|exact E2]. }
      change (String.compare s u = Lt) in H. by rewrite H.
Qed.

Lemma string_leb_total s t :
  String.leb s t = false → String.leb t s = true.
Proof. intros H. destruct (String.leb_total s t); congruence. Qed.

Lemma val_leb_rank a b : val_leb a b = true → cell_rank a ≤ cell_rank b.
Proof. destruct a, b; simpl; intros; try lia; by apply Z.leb_le. Qed.

Lemma val_leb_total a b : val_leb a b = false → val_leb b a = true.
Proof.
  destruct a, b; simpl; try done; try (intros; lia);
    try apply string_leb_total.
Qed.

Lemma val_leb_trans a b c :
  val_leb a b = true → val_leb b c = true → val_leb a c = true.
Proof.
  intros Hab Hbc.
  pose proof (val_leb_rank _ _ Hab). pose proof (val_leb_rank _ _ Hbc).
  destruct a, c; simpl in *; try lia; try done;
    destruct b; simpl in *; try lia; try done.
  by eapply string_leb_trans.
Qed.

Lemma key_leb_total asc a b : key_leb asc a b = false → key_leb asc b a = true.
Proof.
  unfold key_leb. destruct (isna b), (isna a), asc; try done;
    apply val_leb_total.
Qed.

Lemma key_leb_trans asc a b c :
  key_leb asc a b = true → key_leb asc b c = true → key_leb asc a c = true.
Proof.
  unfold key_leb. destruct (isna c), (isna b), (isna a), asc; try done;
    eauto using val_leb_trans.
Qed.

(** ** The posts table, column by column *)

Lemma has_column_lookup df c :
  has_column df c = true ↔ is_Some (col_lookup c df).
Proof.
  unfold has_column, columns.
  induction df as [|[c' s] df IH]; simpl.
  - split; [done|]. by intros [? ?].
  - destruct (String.eqb c c'); simpl; [|done]. split; eauto.
Qed.

Lemma filter_missing_nil df :
  (∀ c, In c required_cols → is_Some (col_lookup c df)) →
  List.filter (λ c, negb (has_column df c)) required_cols = [].
Proof.
  intros H. generalize required_cols H. clear H.
  induction l as [|c l IH]; intros H; simpl; [done|].
  assert (has_column df c = true) as ->
    by (apply has_column_lookup, H; by left).
  simpl. apply IH. intros c' Hc'. apply H. by right.
Qed.

Lemma filter_missing_nil_inv df :
  List.filter (λ c, negb (has_column df c)) required_cols = [] →
  ∀ c, In c required_cols → is_Some (col_lookup c df).
Proof.
  intros H c Hc. apply has_column_lookup.
  destruct (has_column df c) eqn:E; [done|].
  assert (In c (List.filter (λ c, negb (has_column df c)) required_cols)) as Hin
    by (apply filter_In; by rewrite E).
  by rewrite H in Hin.
Qed.

Lemma select_all df cols :
  nodupb (columns df) = true →
  (∀ c, In c cols → is_Some (col_lookup c df)) →
  select df cols = inr (map (λ c, (c, raw_col df c)) cols).
Proof.
  intros Hnd. unfold select, getitem, raw_col. rewrite Hnd.
  induction cols as [|c cols IH]; intros H; simpl; [done|].
  destruct (H c) as [s Hs]; [by left|]. rewrite Hs. simpl.
  rewrite IH; [done|]. intros c' Hc'. apply H. by right.
Qed.

Section PostsColumns.
Context (parse_datetime : Series → string → option Z).

Lemma posts_table_eq raw :
  nodupb (columns raw) = true →
  (∀ c, In c required_cols → is_Some (col_lookup c raw)) →
  posts_table parse_datetime raw =
    (post_id <- astype_str (raw_col raw "shortCode");;;
     ts <- to_datetime parse_datetime (raw_col raw "timestamp");;;
     engagement <- series_add (raw_col raw "likesCount")
                              (raw_col raw "commentsCount");;;
     if sortable (raw_col raw "ownerUsername") && sortable ts then
       inr (take_rows (posts_indexer raw ts)
              (unsorted_posts raw post_id ts engagement))
     else inl Unsupported).
Proof.
  intros Hnd Hall. unfold posts_table.
  rewrite (filter_missing_nil _ Hall). simpl negb. cbv iota.
  rewrite (select_all _ _ Hnd Hall).
  unfold required_cols, col_order, rename_table, sort_values, posts_indexer,
    unsorted_posts.
  cbn -[raw_col astype_str to_datetime series_add sortable take_rows
        lexsort_indexer].
  destruct (astype_str _) as [e|post_id]; [done|].
  destruct (to_datetime _ _) as [e|ts]; [done|].
  destruct (series_add _ _) as [e|engagement]; [done|].
  cbn -[raw_col sortable take_rows lexsort_indexer].
  rewrite andb_true_r.
  destruct (sortable _ && sortable ts); [|done].
  by cbn -[raw_col take lexsort_indexer].
Qed.

(** A table that comes out had its columns: the schema check and the
    projection both passed. *)
Lemma posts_table_ok_inv raw posts :
  posts_table parse_datetime raw = inr posts →
  nodupb (columns raw) = true ∧
  (∀ c, In c required_cols → is_Some (col_lookup c raw)).
Proof.
  unfold posts_table.
  destruct (List.filter _ required_cols) as [|c l] eqn:Hmiss; [|done].
  simpl negb. cbv iota. intros H. split.
  - unfold select, required_cols in H. simpl rmapM in H.
    unfold getitem at 1 in H. by destruct (nodupb (columns raw)).
  - by apply filter_missing_nil_inv.
Qed.
End PostsColumns.

(** ** What a builder returns *)

Lemma builder_outcome_returns h f pure m df :
  builder_outcome h f pure (m (State h f)) →
  returns_frame m (State h f) df ↔ pure = inr df.
Proof.
  intros (h' & Hst & _ & Hres). split.
  - intros (l & σ' & Hrun & Hl). rewrite Hrun in Hst, Hres. simpl in *.
    subst σ'. destruct pure as [e|df']; [done|].
    destruct Hres as (l' & [= <-] & Hl' & _). simpl in Hl. congruence.
  - intros ->. destruct Hres as (l & Hl1 & Hl & _).
    exists l, (State h' f). split; [|done].
    destruct (m (State h f)) as [res σ']. simpl in *. by subst.
Qed.

Section Returns.
Context (parse_datetime : Series → string → option Z).

Lemma build_posts_returns σ r raw posts :
  heap σ !! r = Some raw →
  returns_frame (build_posts_table parse_datetime r) σ posts
  ↔ posts_table parse_datetime raw = inr posts.
Proof.
  destruct σ as [h f]. intros Hr.
  apply builder_outcome_returns. by apply build_posts_table_run.
Qed.

Lemma build_users_returns σ r posts users :
  heap σ !! r = Some posts →
  returns_frame (build_users_table r) σ users
  ↔ users_table posts = inr users.
Proof.
  destruct σ as [h f]. intros Hr.
  apply builder_outcome_returns. by apply build_users_table_run.
Qed.

(** The posts table that comes out, spelled out. *)
Lemma posts_returned_inv σ r raw posts :
  heap σ !! r = Some raw →
  returns_frame (build_posts_table parse_datetime r) σ posts →
  ∃ post_id ts engagement,
    astype_str (raw_col raw "shortCode") = inr post_id
    ∧ to_datetime parse_datetime (raw_col raw "timestamp") = inr ts
    ∧ series_add (raw_col raw "likesCount") (raw_col raw "commentsCount")
      = inr engagement
    ∧ sortable (raw_col raw "ownerUsername") = true
    ∧ posts = take_rows (posts_indexer raw ts)
                (unsorted_posts raw post_id ts engagement).
Proof.
  intros Hr Hret. apply (build_posts_returns _ _ _ _ Hr) in Hret.
  destruct (posts_table_ok_inv _ _ _ Hret) as [Hnd Hall].
  rewrite (posts_table_eq _ _ Hnd Hall) in Hret.
  destruct (astype_str _) as [e|post_id]; [done|].
  destruct (to_datetime _ _) as [e|ts]; [done|].
  destruct (series_add _ _) as [e|engagement]; [done|].
  cbn [rbind] in Hret.
  destruct (sortable (raw_col raw "ownerUsername")) eqn:Hs; [|done].
  destruct (sortable ts); [|done]. cbn [andb] in Hret.
  exists post_id, ts, engagement. by injection Hret as <-.
Qed.
End Returns.

(** ** Lists *)

Lemma rmapM_Forall2 {A B} (f : A → result B) l l' :
  rmapM f l = inr l' ↔ Forall2 (λ a b, f a = inr b) l l'.
Proof.
  revert l'. induction l as [|a l IH]; intros l'; simpl.
  - split; [intros [= <-]; constructor | by inversion 1].
  - destruct (f a) as [e|b] eqn:Hfa; simpl.
    + split; [done|]. inversion 1; congruence.
    + destruct (rmapM f l) as [e|bs]; simpl.
      * split; [done|]. inversion 1 as [|? ? ? ? _ Hl]; subst.
        apply IH in Hl. done.
      * split.
        -- intros [= <-]. constructor; [done|]. by apply IH.
        -- inversion 1 as [|? b' ? l'' Hb Hl]; subst.
           apply IH in Hl. congruence.
Qed.

Lemma take_lookup idx (s : Series) p :
  take idx s !! p = (λ i, s !!! i) <$> idx !! p.
Proof. unfold take. apply list_lookup_fmap. Qed.

Lemma take_identity (s : Series) : take (seq 0 (length s)) s = s.
Proof.
  unfold take. apply list_eq. intros i. rewrite list_lookup_fmap.
  destruct (s !! i) as [c|] eqn:Hi.
  - rewrite lookup_seq_lt by (by eapply lookup_lt_Some). simpl.
    by rewrite (list_lookup_total_correct _ _ _ Hi).
  - rewrite lookup_seq_ge by (by apply lookup_ge_None). done.
Qed.

Lemma take_perm idx (s : Series) :
  idx ≡ₚ seq 0 (length s) → take idx s ≡ₚ s.
Proof.
  intros H. rewrite <- (take_identity s) at 2. unfold take. by rewrite H.
Qed.

Lemma lexsort_indexer_perm keys n : lexsort_indexer keys n ≡ₚ seq 0 n.
Proof.
  unfold lexsort_indexer. induction keys as [|k keys IH]; simpl; [done|].
  by rewrite stable_sort_perm.
Qed.

Lemma lexsort_indexer_length keys n : length (lexsort_indexer keys n) = n.
Proof. by rewrite (lexsort_indexer_perm keys n), length_seq. Qed.

Lemma lexsort_indexer_lt keys n p i :
  lexsort_indexer keys n !! p = Some i → (i < n)%nat.
Proof.
  intros H. apply list_elem_of_lookup_2 in H.
  rewrite (lexsort_indexer_perm keys n) in H.
  apply elem_of_seq in H. lia.
Qed.

(** ** The columns of the posts table *)

Lemma series_add_lookup_total a b e j :
  series_add a b = inr e → cell_add (a !!! j) (b !!! j) = inr (e !!! j).
Proof.
  unfold series_add. intros H. apply rmapM_Forall2 in H.
  revert b e j H. induction a as [|x a IH]; intros b e j H.
  - inversion H; subst. done.
  - destruct b as [|y b].
    + inversion H; subst. unfold cell_add.
      replace (isna ([] !!! j)) with true by done. by rewrite orb_true_r.
    + inversion H as [|? z ? e' Hz He]; subst.
      destruct j as [|j]; [done|]. simpl. by apply IH.
Qed.

(** ** Sums within reach *)

Lemma abs_sum_nonneg s : 0 ≤ abs_sum s.
Proof. induction s as [|c s IH]; simpl; [done|]. destruct c; lia. Qed.

Lemma abs_sum_elem s z : Int z ∈ s → Z.abs z ≤ abs_sum s.
Proof.
  induction s as [|c s IH]; [by intros ?%elem_of_nil|].
  pose proof (abs_sum_nonneg s).
  intros [<-|Hin]%elem_of_cons; simpl; [lia|].
  specialize (IH Hin). destruct c; lia.
Qed.

Lemma abs_sum_perm s s' : s ≡ₚ s' → abs_sum s = abs_sum s'.
Proof.
  induction 1 as [|c s s' _ IH|x y s|s1 s2 s3 _ IH1 _ IH2]; simpl.
  - done.
  - by rewrite IH.
  - destruct x, y; lia.
  - congruence.
Qed.

Lemma sum_skipna_abs s z : sum_skipna s = inr z → Z.abs z ≤ abs_sum s.
Proof.
  revert z. induction s as [|c s IH]; intros z; simpl.
  - intros [= <-]. done.
  - destruct (sum_skipna s) as [e|r]; [done|]. cbn [rbind].
    specialize (IH r eq_refl).
    destruct c; simpl; try done; intros [= <-]; lia.
Qed.

Lemma abs_sum_filter {A} (f : A → cell) (P : A → Prop)
    `{!∀ x, Decision (P x)} (l : list A) :
  abs_sum (map f (filter P l)) ≤ abs_sum (map f l).
Proof.
  induction l as [|a l IH]; [done|].
  rewrite filter_cons. pose proof (abs_sum_nonneg (map f l)).
  destruct (decide (P a)); simpl; destruct (f a); lia.
Qed.

Lemma abs_sum_lookups (s : Series) n :
  abs_sum (map (λ i, s !!! i) (seq 0 n)) ≤ abs_sum s.
Proof.
  revert n. induction s as [|c s IH]; intros n.
  - induction n as [|n IHn]; [done|].
    rewrite seq_S, map_app. simpl.
    erewrite abs_sum_perm by (symmetry; apply Permutation_cons_append).
    done.
  - destruct n as [|n]; [apply abs_sum_nonneg|].
    cbn [seq map]. rewrite <- fmap_S_seq.
    change (map ?f (S <$> ?l)) with (f <$> (S <$> l)).
    rewrite <- list_fmap_compose. specialize (IH n).
    change (abs_sum (c :: ((λ i, s !!! i) <$> seq 0 n)) ≤ abs_sum (c :: s)).
    simpl. change (map ?f ?l) with (f <$> l) in IH. destruct c; lia.
Qed.

Lemma abs_sum_take idx (s : Series) n :
  idx ≡ₚ seq 0 n → abs_sum (take idx s) ≤ abs_sum s.
Proof.
  intros Hp. unfold take.
  rewrite (abs_sum_perm _ (map (λ i, s !!! i) (seq 0 n))).
  - apply abs_sum_lookups.
  - change (map ?f ?l) with (f <$> l). by rewrite Hp.
Qed.

Lemma owner_cells_abs posts c o :
  abs_sum (owner_cells posts c o) ≤ abs_sum (raw_col posts c).
Proof.
  unfold owner_cells. etrans; [apply abs_sum_filter|]. apply abs_sum_lookups.
Qed.

Lemma series_add_abs a b e :
  series_add a b = inr e → abs_sum e ≤ abs_sum a + abs_sum b.
Proof.
  unfold series_add. intros H. apply rmapM_Forall2 in H.
  revert b e H. induction a as [|x a IH]; intros b e H.
  - inversion H; subst. simpl. apply abs_sum_nonneg.
  - destruct b as [|y b].
    + inversion H; subst. simpl. pose proof (abs_sum_nonneg a).
      destruct x; lia.
    + inversion H as [|? z ? e' Hz He]; subst. simpl in Hz.
      specialize (IH b e' He). simpl.
      unfold cell_add in Hz.
      destruct x, y; simpl in Hz; try done; injection Hz as <-; lia.
Qed.

(** What [exact_counts] says of one column and of two. *)
Lemma exact_counts_one df c :
  exact_counts df [c] = true ↔ abs_sum (raw_col df c) ≤ 2 ^ 53.
Proof.
  unfold exact_counts. cbn [foldr]. rewrite Z.add_0_r. apply Z.leb_le.
Qed.

Lemma exact_counts_two df c1 c2 :
  exact_counts df [c1; c2] = true ↔
  abs_sum (raw_col df c1) + abs_sum (raw_col df c2) ≤ 2 ^ 53.
Proof.
  unfold exact_counts. cbn [foldr]. rewrite Z.add_0_r. apply Z.leb_le.
Qed.

(** A sum over the posts of one owner is within reach when the column
    is. *)
Lemma owner_sum_exact posts c o z :
  exact_counts posts [c] = true →
  sum_skipna (owner_cells posts c o) = inr z →
  Z.abs z ≤ 2 ^ 53.
Proof.
  intros Hb%exact_counts_one Hz%sum_skipna_abs.
  pose proof (owner_cells_abs posts c o). lia.
Qed.

Section ExactPosts.
Context (parse_datetime : Series → string → option Z).

(** The counts of a posts table built from a raw table within reach are
    within reach, the engagement with them. *)
Lemma posts_returned_exact σ r raw posts :
  heap σ !! r = Some raw →
  returns_frame (build_posts_table parse_datetime r) σ posts →
  exact_counts raw ["likesCount"; "commentsCount"] = true →
  exact_counts posts ["likes"; "comments"] = true
  ∧ exact_counts posts ["engagement_raw"] = true.
Proof.
  intros Hr Hret Hb%exact_counts_two.
  destruct (posts_returned_inv _ _ _ _ _ Hr Hret)
    as (pid & ts & eng & _ & _ & Hadd & _ & ->).
  rewrite exact_counts_two, exact_counts_one.
  change (raw_col (take_rows ?idx (unsorted_posts raw pid ts eng)) "likes")
    with (take idx (raw_col raw "likesCount")).
  change (raw_col (take_rows ?idx (unsorted_posts raw pid ts eng)) "comments")
    with (take idx (raw_col raw "commentsCount")).
  change (raw_col (take_rows ?idx (unsorted_posts raw pid ts eng))
            "engagement_raw") with (take idx eng).
  pose proof (abs_sum_take (posts_indexer raw ts) (raw_col raw "likesCount") _
                (lexsort_indexer_perm _ _)).
  pose proof (abs_sum_take (posts_indexer raw ts) (raw_col raw "commentsCount")
                _ (lexsort_indexer_perm _ _)).
  pose proof (abs_sum_take (posts_indexer raw ts) eng _
                (lexsort_indexer_perm _ _)).
  pose proof (series_add_abs _ _ _ Hadd).
  lia.
Qed.
End ExactPosts.

Lemma cell_at_elem df c i v : cell_at df c i = Some v → v ∈ raw_col df c.
Proof.
  unfold cell_at, raw_col. destruct (col_lookup c df) as [s|]; [|done].
  simpl. apply list_elem_of_lookup_2.
Qed.

Section PostsProperties.
Context (parse_datetime : Series → string → option Z).

(** C2. For every raw table from which [build_posts_table] returns a posts
    table, every row of that table has
    [engagement_raw = likes + comments], where [+] is the addition the
    script applies to the two columns.  The counts of the raw table are
    taken to add up to at most 2^53: the sum is then the one pandas
    computes, and it is itself within that bound, so that neither int64 nor
    float64 alters it. *)
Theorem posts_engagement_is_likes_plus_comments σ r raw posts :
  heap σ !! r = Some raw →
  returns_frame (build_posts_table parse_datetime r) σ posts →
  exact_counts raw ["likesCount"; "commentsCount"] = true →
  ∀ i likes comments engagement,
    cell_at posts "likes" i = Some likes →
    cell_at posts "comments" i = Some comments →
    cell_at posts "engagement_raw" i = Some engagement →
    cell_add likes comments = inr engagement
    ∧ ∀ z, engagement = Int z → Z.abs z ≤ 2 ^ 53.
Proof.
  intros Hr Hret Hb i l c e Hl Hc He.
  destruct (posts_returned_exact _ _ _ _ _ Hr Hret Hb)
    as [_ Hexact%exact_counts_one].
  split.
  - revert Hl Hc He.
    destruct (posts_returned_inv _ _ _ _ _ Hr Hret)
      as (pid & ts & eng & _ & _ & Hadd & _ & ->).
    unfold cell_at. cbn -[take raw_col posts_indexer].
    rewrite !take_lookup.
    destruct (posts_indexer raw ts !! i) as [j|]; [|done]. simpl.
    intros [= <-] [= <-] [= <-]. by apply series_add_lookup_total.
  - intros z ->. apply cell_at_elem, abs_sum_elem in He. lia.
Qed.
End PostsProperties.

(** ** The order of the rows *)

Lemma val_leb_refl a : val_leb a a = true.
Proof.
  destruct (val_leb a a) eqn:E; [done|].
  pose proof (val_leb_total _ _ E). congruence.
Qed.

Lemma same_key_leb asc a b : same_key a b → key_leb asc b a = true.
Proof.
  unfold same_key, norm_na, key_leb.
  destruct (isna a) eqn:Ha, (isna b) eqn:Hb; try done.
  - intros ->. done.
  - intros ->. destruct asc; apply val_leb_refl.
Qed.

Lemma lookup_total_notna_elem (s : Series) i :
  isna (s !!! i) = false → s !!! i ∈ s.
Proof.
  rewrite list_lookup_total_alt.
  destruct (s !! i) as [c|] eqn:E; simpl; [|done].
  intros _. by eapply list_elem_of_lookup_2.
Qed.

Lemma same_kind_leb k a b :
  same_kind k a = true → same_kind k b = true →
  isna a = false → isna b = false → val_leb a b = cell_leb a b.
Proof. destruct k, a, b; simpl; done. Qed.

Lemma sortable_val_leb s a b :
  sortable s = true → a ∈ s → b ∈ s →
  isna a = false → isna b = false → val_leb a b = cell_leb a b.
Proof.
  unfold sortable. intros Hs Ha Hb.
  apply list_elem_of_In in Ha, Hb.
  apply orb_true_iff in Hs as [Hs|Hs]; [apply orb_true_iff in Hs as [Hs|Hs]|];
    rewrite forallb_forall in Hs; eapply same_kind_leb; eauto.
Qed.

(** What [key_leb] says in terms of pandas' [<=], on a column that can be
    ordered. *)
Lemma key_leb_sortable asc s i j :
  sortable s = true →
  key_leb asc (s !!! i) (s !!! j) = true →
  isna (s !!! j) = true
  ∨ (if asc then cell_leb (s !!! i) (s !!! j)
     else cell_leb (s !!! j) (s !!! i)) = true.
Proof.
  intros Hs. unfold key_leb.
  destruct (isna (s !!! j)) eqn:Hj; [by left|].
  destruct (isna (s !!! i)) eqn:Hi; [done|].
  intros H. right.
  destruct asc; rewrite <- (sortable_val_leb s) by
    (first [done | by apply lookup_total_notna_elem]); done.
Qed.

Section ToDatetime.
Context (parse_datetime : Series → string → option Z).

Lemma to_datetime_cells s ts :
  to_datetime parse_datetime s = inr ts →
  Forall (λ c, c = NaT ∨ ∃ t, c = Time t) ts.
Proof.
  unfold to_datetime. generalize (parse_datetime s). intros parse H.
  apply rmapM_Forall2 in H.
  induction H as [|c c' ? ? Hc _ IH]; constructor; [|done].
  destruct c as [| | | |t| | | |]; try done;
    try (injection Hc as <-; by left).
  destruct (String.eqb t ""); [injection Hc as <-; by left|].
  destruct (parse t); injection Hc as <-; eauto.
Qed.

Lemma to_datetime_length s ts :
  to_datetime parse_datetime s = inr ts → length ts = length s.
Proof.
  unfold to_datetime. intros H. apply rmapM_Forall2 in H.
  symmetry. by eapply Forall2_length.
Qed.

Lemma to_datetime_sortable s ts :
  to_datetime parse_datetime s = inr ts → sortable ts = true.
Proof.
  intros H. apply to_datetime_cells in H. unfold sortable.
  assert (forallb (same_kind KTime) ts = true) as ->;
    [|by rewrite orb_true_r].
  apply forallb_forall. intros c Hc.
  rewrite List.Forall_forall in H.
  destruct (H c Hc) as [->|[t ->]]; done.
Qed.
End ToDatetime.

(** The indexer of the posts table: the primary key decides; the second key
    decides between rows the first does not separate; rows neither key
    separates keep their order. *)
Lemma posts_indexer_order raw ts p q i j :
  let u := raw_col raw "ownerUsername" in
  (p < q)%nat →
  posts_indexer raw ts !! p = Some i →
  posts_indexer raw ts !! q = Some j →
  key_leb true (u !!! i) (u !!! j) = true
  ∧ (key_leb true (u !!! j) (u !!! i) = true →
     key_leb false (ts !!! i) (ts !!! j) = true
     ∧ (key_leb false (ts !!! j) (ts !!! i) = true → (i < j)%nat)).
Proof.
  intros u Hpq Hp Hq.
  pose proof (before_lookup _ _ _ _ _ Hp Hq Hpq) as Hb.
  unfold posts_indexer, lexsort_indexer in Hb. simpl in Hb. fold u in Hb.
  split.
  - eapply (stable_sort_before _ _ _ _ _ _ Hb).
  - intros Hji. eapply stable_sort_stable in Hb; [|exact Hji]. split.
    + eapply (stable_sort_before _ _ _ _ _ _ Hb).
    + intros Hji'. eapply stable_sort_stable in Hb; [|exact Hji'].
      by eapply before_seq.
  Unshelve.
  all: simpl; eauto using key_leb_total, key_leb_trans.
Qed.

Section PostsOrder.
Context (parse_datetime : Series → string → option Z).

(** C3, as the code has it. For every raw table from which
    [build_posts_table] returns a posts table, and any row [p] above a row
    [q] of it: the username of [q] is missing or that of [p] is less than
    or equal to it (usernames ascend, missing usernames last); and when
    the two rows fall under one username, the timestamp of [q] is missing
    or less than or equal to that of [p] (timestamps descend, missing
    timestamps last). *)
Theorem posts_rows_ordered σ r raw posts :
  heap σ !! r = Some raw →
  returns_frame (build_posts_table parse_datetime r) σ posts →
  ∀ p q u1 u2 t1 t2,
    (p < q)%nat →
    cell_at posts "owner_username" p = Some u1 →
    cell_at posts "owner_username" q = Some u2 →
    cell_at posts "timestamp" p = Some t1 →
    cell_at posts "timestamp" q = Some t2 →
    (isna u2 = true ∨ cell_leb u1 u2 = true)
    ∧ (same_key u1 u2 → isna t2 = true ∨ cell_leb t2 t1 = true).
Proof.
  intros Hr Hret p q u1 u2 t1 t2 Hpq.
  destruct (posts_returned_inv _ _ _ _ _ Hr Hret)
    as (pid & ts & eng & _ & Hts & _ & Hsort & ->).
  unfold cell_at. cbn -[take raw_col posts_indexer].
  rewrite !take_lookup.
  destruct (posts_indexer raw ts !! p) as [i|] eqn:Hp; [|done].
  destruct (posts_indexer raw ts !! q) as [j|] eqn:Hq; [|done].
  simpl. intros [= <-] [= <-] [= <-] [= <-].
  destruct (posts_indexer_order raw ts p q i j Hpq Hp Hq) as [Hu Ht].
  split.
  - by apply (key_leb_sortable true) in Hu.
  - intros Hsame. destruct (Ht (same_key_leb _ _ _ Hsame)) as [Hle _].
    apply (key_leb_sortable false) in Hle; [done|].
    by eapply to_datetime_sortable.
Qed.

(** C8. The sort of [build_posts_table] is stable: the posts table is the
    table before the sort, whose rows stand in the order of the raw rows,
    rearranged by an indexer that never exchanges two rows that agree on
    both sort keys.  That is, there is a permutation [idx] of the row
    numbers such that row [p] of the posts table carries the raw cells of
    row [idx p] under their new labels, and of two rows of the posts table
    that agree on both sort keys (the same username or both missing, the
    same instant or both missing) the upper one comes from the earlier
    row. *)
Theorem posts_sort_is_stable σ r raw posts :
  heap σ !! r = Some raw →
  returns_frame (build_posts_table parse_datetime r) σ posts →
  ∃ idx : list nat,
    idx ≡ₚ seq 0 (length (raw_col raw "id"))
    ∧ (∀ p i c,
         idx !! p = Some i → In c required_cols → c ≠ "timestamp" →
         cell_at posts (rename_label rename_table c) p
         = Some (raw_col raw c !!! i))
    ∧ (∀ p q i j u1 u2 t1 t2,
         (p < q)%nat →
         idx !! p = Some i → idx !! q = Some j →
         cell_at posts "owner_username" p = Some u1 →
         cell_at posts "owner_username" q = Some u2 →
         cell_at posts "timestamp" p = Some t1 →
         cell_at posts "timestamp" q = Some t2 →
         same_key u1 u2 → same_key t1 t2 →
         (i < j)%nat).
Proof.
  intros Hr Hret.
  destruct (posts_returned_inv _ _ _ _ _ Hr Hret)
    as (pid & ts & eng & _ & Hts & _ & Hsort & ->).
  exists (posts_indexer raw ts). split; [apply lexsort_indexer_perm|]. split.
  - intros p i c Hp Hc Hne. unfold cell_at.
    unfold required_cols in Hc. simpl in Hc.
    repeat (destruct Hc as [<-|Hc]; [
      first [ done
            | cbn -[take raw_col posts_indexer];
              by rewrite take_lookup, Hp ] |]).
    done.
  - intros p q i j u1 u2 t1 t2 Hpq Hp Hq. unfold cell_at.
    cbn -[take raw_col posts_indexer]. rewrite !take_lookup, Hp, Hq.
    simpl. intros [= <-] [= <-] [= <-] [= <-] Hu Ht.
    destruct (posts_indexer_order raw ts p q i j Hpq Hp Hq) as [_ Hord].
    destruct (Hord (same_key_leb _ _ _ Hu)) as [_ Hlt].
    exact (Hlt (same_key_leb _ _ _ Ht)).
Qed.

(** Stability seen from outside: number the rows of the raw table in its
    [id] column, which the sort does not look at; then in the posts table,
    of two rows that agree on both sort keys the upper one carries the
    smaller number. *)
Lemma posts_sort_keeps_numbered_rows σ r raw posts :
  heap σ !! r = Some raw →
  returns_frame (build_posts_table parse_datetime r) σ posts →
  (∀ i, (i < length (raw_col raw "id"))%nat →
        raw_col raw "id" !! i = Some (Int (Z.of_nat i))) →
  ∀ p q u1 u2 t1 t2 a b,
    (p < q)%nat →
    cell_at posts "owner_username" p = Some u1 →
    cell_at posts "owner_username" q = Some u2 →
    cell_at posts "timestamp" p = Some t1 →
    cell_at posts "timestamp" q = Some t2 →
    cell_at posts "ig_post_id" p = Some (Int a) →
    cell_at posts "ig_post_id" q = Some (Int b) →
    same_key u1 u2 → same_key t1 t2 →
    a < b.
Proof.
  intros Hr Hret Hid p q u1 u2 t1 t2 a b Hpq.
  destruct (posts_returned_inv _ _ _ _ _ Hr Hret)
    as (pid & ts & eng & _ & Hts & _ & Hsort & ->).
  unfold cell_at. cbn -[take raw_col posts_indexer].
  rewrite !take_lookup.
  destruct (posts_indexer raw ts !! p) as [i|] eqn:Hp; [|done].
  destruct (posts_indexer raw ts !! q) as [j|] eqn:Hq; [|done].
  simpl. intros [= <-] [= <-] [= <-] [= <-] Ha Hb Hu Ht.
  destruct (posts_indexer_order raw ts p q i j Hpq Hp Hq) as [_ Hord].
  destruct (Hord (same_key_leb _ _ _ Hu)) as [_ Hlt].
  specialize (Hlt (same_key_leb _ _ _ Ht)).
  pose proof (lexsort_indexer_lt _ _ _ _ Hp) as Hi.
  pose proof (lexsort_indexer_lt _ _ _ _ Hq) as Hj.
  rewrite (list_lookup_total_correct _ _ _ (Hid i Hi)) in Ha.
  rewrite (list_lookup_total_correct _ _ _ (Hid j Hj)) in Hb.
  injection Ha as <-. injection Hb as <-. lia.
Qed.
End PostsOrder.

(** ** The input is left alone; the schema check *)

Lemma has_column_In df c : has_column df c = true ↔ In c (columns df).
Proof.
  unfold has_column. rewrite existsb_exists. split.
  - intros (c' & Hin & Heq). apply String.eqb_eq in Heq. by subst.
  - intros Hin. exists c. split; [done|]. apply String.eqb_refl.
Qed.

Lemma missing_cols_spec raw c :
  In c (missing_cols raw) ↔ In c required_cols ∧ ¬ In c (columns raw).
Proof.
  unfold missing_cols. rewrite filter_In, negb_true_iff.
  rewrite <- has_column_In. by destruct (has_column raw c); intuition.
Qed.

Section InputAndSchema.
Context (parse_datetime : Series → string → option Z).
Context (format_cell : Series → cell → string).
Context (read_json : string → result DataFrame).
Context (os : os_name) (quote_breaks : bool).

(** C10. [build_posts_table] leaves its input as it was: whether it
    returns or raises, the raw table still holds the same frame after the
    call, and so does every other object that existed before it; the
    files are untouched. *)
Theorem build_posts_table_leaves_input σ r raw :
  heap σ !! r = Some raw →
  let σ' := (build_posts_table parse_datetime r σ).2 in
  heap σ' !! r = Some raw
  ∧ (∀ l df, heap σ !! l = Some df → heap σ' !! l = Some df)
  ∧ files σ' = files σ.
Proof.
  destruct σ as [h f]. simpl. intros Hr.
  destruct (build_posts_table_run parse_datetime r raw h f Hr)
    as (h' & -> & Hsub & _). simpl.
  split; [|split; [|done]].
  - by eapply lookup_weaken.
  - intros l df Hl. by eapply lookup_weaken.
Qed.

Lemma build_posts_table_missing σ r raw :
  heap σ !! r = Some raw →
  missing_cols raw ≠ [] →
  build_posts_table parse_datetime r σ =
    (inl (ValueError ("Missing expected columns in JSON: "
                      +:+ repr_names (missing_cols raw))), σ).
Proof.
  destruct σ as [h f]. simpl. intros Hr Hmiss.
  unfold build_posts_table. step_with deref_run.
  fold (missing_cols raw).
  by destruct (missing_cols raw).
Qed.

Lemma load_raw_posts_run path text raw h f :
  f !! path = Some text → read_json text = inr raw →
  load_raw_posts read_json path (State h f) =
    (inr (fresh (dom h)), State (<[fresh (dom h) := raw]> h) f).
Proof.
  intros Hf Hj. unfold load_raw_posts. simpl. by rewrite Hf, Hj.
Qed.

(** C1, as the code has it. A raw table that lacks a required column
    makes [build_posts_table] raise a [ValueError] whose message is
    "Missing expected columns in JSON: " followed by the list
    [missing_cols] of exactly the required columns the table does not have;
    nothing in the store changes.  When [main] loads such a table it stops
    with that error and every file is as it was: no output file is created
    or modified. *)
Theorem missing_columns_value_error σ r raw :
  heap σ !! r = Some raw →
  (∃ c, In c required_cols ∧ ¬ In c (columns raw)) →
  (∀ c, In c (missing_cols raw) ↔ In c required_cols ∧ ¬ In c (columns raw))
  ∧ build_posts_table parse_datetime r σ =
      (inl (ValueError ("Missing expected columns in JSON: "
                        +:+ repr_names (missing_cols raw))), σ)
  ∧ ∀ σ0 text,
      files σ0 !! RAW_POSTS_JSON = Some text →
      read_json text = inr raw →
      ∃ σ1,
        main parse_datetime format_cell read_json os quote_breaks σ0 =
          (inl (ValueError ("Missing expected columns in JSON: "
                            +:+ repr_names (missing_cols raw))), σ1)
        ∧ files σ1 = files σ0.
Proof.
  intros Hr (c & Hc1 & Hc2).
  assert (missing_cols raw ≠ []) as Hne.
  { intros Hnil. assert (In c (missing_cols raw)) as Hin
      by by apply missing_cols_spec.
    by rewrite Hnil in Hin. }
  split; [apply missing_cols_spec|]. split.
  - by apply build_posts_table_missing.
  - intros [h0 f0] text Hf Hj. simpl in Hf.
    eexists. unfold main.
    erewrite bind_run by (eapply load_raw_posts_run; eassumption).
    cbv beta iota.
    erewrite bind_run
      by (apply build_posts_table_missing; [apply lookup_insert_eq|done]).
    done.
Qed.
End InputAndSchema.

(** ** The builder returns on valid raw tables *)

Lemma astype_str_total s :
  forallb printable s = true → ∃ t, astype_str s = inr t.
Proof.
  unfold astype_str. induction s as [|c s IH]; simpl; [by eexists|].
  intros [Hc Hs]%andb_true_iff. destruct (IH Hs) as [t ->].
  unfold printable in Hc. destruct (py_str c); [done|]. by eexists.
Qed.

Lemma series_add_total a b :
  forallb int_or_missing a = true → forallb int_or_missing b = true →
  ∃ e, series_add a b = inr e.
Proof.
  unfold series_add. revert b. induction a as [|x a IH]; intros b Ha Hb.
  - by eexists.
  - destruct b as [|y b]; [by eexists|]. simpl in *.
    apply andb_true_iff in Ha as [Hx Ha]. apply andb_true_iff in Hb as [Hy Hb].
    destruct (IH b Ha Hb) as [e ->].
    unfold cell_add. destruct x, y; try done; simpl; by eexists.
Qed.

Section Valid.
Context (parse_datetime : Series → string → option Z).

Lemma to_datetime_total s :
  forallb text_or_missing s = true →
  ∃ ts, to_datetime parse_datetime s = inr ts.
Proof.
  unfold to_datetime. generalize (parse_datetime s). intros parse.
  induction s as [|c s IH]; simpl; [by eexists|].
  intros [Hc Hs]%andb_true_iff. destruct (IH Hs) as [ts ->].
  destruct c as [| | | |t| | | |]; try done; simpl; try by eexists.
  destruct (String.eqb t ""); [by eexists|].
  destruct (parse t); by eexists.
Qed.

(** What [to_datetime] makes of a text it cannot read. *)
Lemma to_datetime_unreadable s ts j t :
  to_datetime parse_datetime s = inr ts →
  s !! j = Some (Str t) →
  t = "" ∨ parse_datetime s t = None →
  ts !! j = Some NaT.
Proof.
  unfold to_datetime. intros H Hj Ht. apply rmapM_Forall2 in H.
  destruct (Forall2_lookup_l _ _ _ _ _ H Hj) as (c & -> & Hc).
  f_equal. simpl in Hc. destruct Ht as [->|Ht].
  - simpl in Hc. congruence.
  - rewrite Ht in Hc. destruct (String.eqb t ""); congruence.
Qed.

Lemma valid_raw_columns raw :
  valid_raw raw = true →
  nodupb (columns raw) = true
  ∧ (∀ c, In c required_cols → is_Some (col_lookup c raw))
  ∧ (∀ c, In c required_cols → length (raw_col raw c) = nrows raw).
Proof.
  unfold valid_raw. rewrite !andb_true_iff.
  intros [[[[[[[Hnd Hall] Hlen] _] _] _] _] _].
  rewrite forallb_forall in Hall, Hlen.
  split; [done|]. split; intros c Hc.
  - by apply has_column_lookup, Hall.
  - by apply Nat.eqb_eq, Hlen.
Qed.

(** On a valid raw table the builder returns a posts table. *)
Lemma valid_raw_posts_table raw :
  valid_raw raw = true →
  ∃ post_id ts engagement,
    astype_str (raw_col raw "shortCode") = inr post_id
    ∧ to_datetime parse_datetime (raw_col raw "timestamp") = inr ts
    ∧ posts_table parse_datetime raw =
        inr (take_rows (posts_indexer raw ts)
               (unsorted_posts raw post_id ts engagement)).
Proof.
  intros Hv. destruct (valid_raw_columns _ Hv) as (Hnd & Hall & _).
  rewrite (posts_table_eq _ _ Hnd Hall).
  unfold valid_raw in Hv. rewrite !andb_true_iff in Hv.
  destruct Hv as [[[[[_ Hp] Ht] Hl] Hc] Hs].
  destruct (astype_str_total _ Hp) as [post_id ->].
  destruct (to_datetime_total _ Ht) as [ts Hts]. rewrite Hts.
  destruct (series_add_total _ _ Hl Hc) as [engagement ->].
  exists post_id, ts, engagement. cbn [rbind].
  by rewrite Hs, (to_datetime_sortable _ _ _ Hts).
Qed.

(** C6. On every valid raw table the builder returns a posts table, and
    every raw row whose timestamp text is empty or cannot be read is a row
    of that table: the row's timestamp is the missing instant [NaT], and
    its other cells are the raw cells of that row under their new
    labels. *)
Theorem unreadable_timestamp_becomes_null σ r raw :
  heap σ !! r = Some raw →
  valid_raw raw = true →
  ∃ posts,
    returns_frame (build_posts_table parse_datetime r) σ posts
    ∧ ∀ j t,
        raw_col raw "timestamp" !! j = Some (Str t) →
        t = "" ∨ parse_datetime (raw_col raw "timestamp") t = None →
        ∃ p,
          cell_at posts "timestamp" p = Some NaT
          ∧ ∀ c, In c required_cols → c ≠ "timestamp" →
              cell_at posts (rename_label rename_table c) p
              = raw_col raw c !! j.
Proof.
  intros Hr Hv.
  destruct (valid_raw_posts_table _ Hv) as (pid & ts & eng & _ & Hts & Hp).
  destruct (valid_raw_columns _ Hv) as (_ & _ & Hlen).
  eexists. split; [by apply (build_posts_returns _ _ _ _ _ Hr)|].
  intros j t Hj Ht.
  assert (j < length (raw_col raw "id"))%nat as Hjn.
  { rewrite (Hlen "id") by (vm_compute; tauto).
    rewrite <- (Hlen "timestamp") by (vm_compute; tauto).
    by eapply lookup_lt_Some. }
  assert (j ∈ posts_indexer raw ts) as Hin.
  { unfold posts_indexer. rewrite lexsort_indexer_perm.
    apply elem_of_seq. lia. }
  apply list_elem_of_lookup_1 in Hin as [p Hpj].
  exists p. unfold cell_at. split.
  - cbn -[take raw_col posts_indexer]. rewrite take_lookup, Hpj. simpl.
    f_equal. apply list_lookup_total_correct.
    by eapply to_datetime_unreadable.
  - intros c Hc Hne.
    assert (raw_col raw c !! j = Some (raw_col raw c !!! j)) as ->.
    { apply list_lookup_lookup_total, lookup_lt_is_Some.
      rewrite (Hlen c Hc), <- (Hlen "id") by (vm_compute; tauto). done. }
    unfold required_cols in Hc. simpl in Hc.
    repeat (destruct Hc as [<-|Hc]; [
      first [ done
            | cbn -[take raw_col posts_indexer];
              by rewrite take_lookup, Hpj ] |]).
    done.
Qed.
End Valid.

(** ** The users table, column by column *)

Lemma getitem_raw_col df c s : getitem df c = inr s → s = raw_col df c.
Proof.
  unfold getitem, raw_col. destruct (nodupb _); [|done].
  destruct (col_lookup c df); [|done]. simpl. congruence.
Qed.

Lemma rmapM_inr {A B} (f : A → B) (l : list A) :
  rmapM (λ a, inr (f a)) l = inr (map f l).
Proof. induction l as [|a l IH]; simpl; [done|]. by rewrite IH. Qed.

Ltac name_column posts c :=
  let s := fresh "s" in let E := fresh "E" in
  destruct (getitem posts c) as [?|s] eqn:E; cbn [rbind]; [done|];
  apply getitem_raw_col in E; subst s.

Ltac name_values v :=
  match goal with
  | |- context [rmapM ?f (group_keys ?k)] =>
      destruct (rmapM f (group_keys k)) as [?|v] eqn:?; cbn [rbind]; [done|]
  end.

Lemma users_table_inv posts users :
  users_table posts = inr users →
  ∃ tl tc te al ac ae first last,
    rmapM (λ g, agg_sum (group_cells posts "engagement_raw" g))
      (posts_groups posts) = inr te
    ∧ users =
      take_rows (lexsort_indexer [(te, false)] (length (posts_groups posts)))
        [ ("owner_username", map (λ g, g !!! 0%nat) (posts_groups posts));
          ("owner_full_name", map (λ g, g !!! 1%nat) (posts_groups posts));
          ("owner_id", map (λ g, g !!! 2%nat) (posts_groups posts));
          ("owner_profile_url", map (λ g, g !!! 3%nat) (posts_groups posts));
          ("posts_count",
           map (λ g, Int (Z.of_nat (nunique (group_cells posts "post_id" g))))
             (posts_groups posts));
          ("total_likes", tl); ("total_comments", tc);
          ("total_engagement", te);
          ("avg_likes", al); ("avg_comments", ac); ("avg_engagement", ae);
          ("first_post_timestamp", first); ("last_post_timestamp", last) ].
Proof.
  unfold users_table, groupby_agg, owner_key, user_aggs.
  cbn [rmapM rbind fst snd].
  name_column posts "owner_username". name_column posts "owner_full_name".
  name_column posts "owner_id". name_column posts "owner_profile_url".
  destruct (forallb _ _); [|done].
  name_column posts "post_id".
  unfold agg_nunique. rewrite rmapM_inr. cbn [rbind].
  name_column posts "likes". name_values v1.
  name_column posts "comments". name_values v2.
  name_column posts "engagement_raw". name_values te.
  name_values v3. name_values v4. name_values v5.
  name_column posts "timestamp". name_values v6. name_values v7.
  change [raw_col posts "owner_username"; raw_col posts "owner_full_name";
          raw_col posts "owner_id"; raw_col posts "owner_profile_url"]
    with (map (raw_col posts) owner_key) in *.
  fold (posts_keys posts) in *. fold (posts_groups posts) in *.
  fold (group_cells posts "post_id").
  fold (group_cells posts "engagement_raw") in *.
  unfold sort_values.
  cbn -[sortable take_rows lexsort_indexer posts_groups group_cells].
  destruct (sortable te && true); [|done].
  rewrite length_map. intros [= <-].
  by exists v1, v2, te, v3, v4, v5, v6, v7.
Qed.

(** ** Groups *)

Lemma lookup_total_seq_map {A} `{!Inhabited A} (l : list A) :
  map (λ i, l !!! i) (seq 0 (length l)) = l.
Proof.
  apply list_eq. intros i. rewrite list_lookup_fmap.
  destruct (l !! i) as [c|] eqn:Hi.
  - rewrite lookup_seq_lt by (by eapply lookup_lt_Some). simpl.
    by rewrite (list_lookup_total_correct _ _ _ Hi).
  - rewrite lookup_seq_ge by (by apply lookup_ge_None). done.
Qed.

Lemma group_keys_perm keys : group_keys keys ≡ₚ remove_dups keys.
Proof.
  unfold group_keys. cbv zeta.
  rewrite lexsort_indexer_perm. by rewrite lookup_total_seq_map.
Qed.

Lemma norm_na_idemp c : norm_na (norm_na c) = norm_na c.
Proof. unfold norm_na. by destruct (isna c) eqn:E; [|rewrite E]. Qed.

Lemma take_lookup_total idx (s : Series) u k :
  idx !! u = Some k → take idx s !!! u = s !!! k.
Proof.
  intros H. apply list_lookup_total_correct. by rewrite take_lookup, H.
Qed.

Lemma filter_ext_elem {A} (P Q : A → Prop)
    (decP : ∀ x, Decision (P x)) (decQ : ∀ x, Decision (Q x)) (l : list A) :
  (∀ x, x ∈ l → P x ↔ Q x) → filter P l = filter Q l.
Proof.
  induction l as [|x l IH]; intros Hext; [done|].
  rewrite !filter_cons.
  rewrite IH by (intros y Hy; apply Hext; by right).
  assert (P x ↔ Q x) as Hx by (apply Hext; by left).
  destruct (decide (P x)) as [HP|HP], (decide (Q x)) as [HQ|HQ];
    try done; tauto.
Qed.

Section Groups.
Context (posts : DataFrame).

Lemma posts_keys_length : length (posts_keys posts) = nrows posts.
Proof. unfold posts_keys, row_keys. by rewrite length_map, length_seq. Qed.

Lemma posts_keys_lookup i g :
  posts_keys posts !! i = Some g ↔ (i < nrows posts)%nat ∧ owner_of posts i = g.
Proof.
  unfold posts_keys, row_keys, owner_of, owner_key.
  rewrite list_lookup_fmap. cbn [map]. split.
  - intros H. destruct (seq 0 (nrows posts) !! i) as [j|] eqn:Hj; [|done].
    apply lookup_seq in Hj as [-> Hi]. simpl in H. split; [done|congruence].
  - intros [Hi <-]. by rewrite lookup_seq_lt.
Qed.

Lemma posts_groups_elem g :
  g ∈ posts_groups posts ↔ ∃ i, (i < nrows posts)%nat ∧ owner_of posts i = g.
Proof.
  unfold posts_groups. rewrite group_keys_perm, elem_of_remove_dups.
  rewrite list_elem_of_lookup. by setoid_rewrite posts_keys_lookup.
Qed.

Lemma posts_groups_NoDup : NoDup (posts_groups posts).
Proof.
  unfold posts_groups. rewrite group_keys_perm. apply NoDup_remove_dups.
Qed.

Lemma group_rows_eq g :
  group_rows (posts_keys posts) g =
  filter (λ i, owner_of posts i = g) (seq 0 (nrows posts)).
Proof.
  unfold group_rows. rewrite posts_keys_length.
  apply filter_ext_elem. intros i Hi. rewrite posts_keys_lookup.
  apply elem_of_seq in Hi. intuition lia.
Qed.
End Groups.

(** ** The rows of the users table *)

Lemma map_lookup_total {A B} `{!Inhabited A, !Inhabited B} (f : A → B)
    (l : list A) k :
  (k < length l)%nat → map f l !!! k = f (l !!! k).
Proof. apply (list_lookup_total_fmap f l k). Qed.

Lemma users_frame_owner posts idx tl tc te al ac ae first last u k g :
  idx !! u = Some k →
  posts_groups posts !! k = Some g →
  owner_of (users_frame posts idx tl tc te al ac ae first last) u = g.
Proof.
  intros Hu Hk.
  assert (g ∈ posts_groups posts) as Hg by by eapply list_elem_of_lookup_2.
  apply posts_groups_elem in Hg as (i & _ & Hg).
  pose proof (lookup_lt_Some _ _ _ Hk) as Hlt.
  unfold owner_of at 1. unfold owner_key, users_frame. cbn [map].
  unfold raw_col. cbn -[take posts_groups].
  rewrite !(take_lookup_total _ _ _ _ Hu).
  rewrite !map_lookup_total by done.
  rewrite (list_lookup_total_correct _ _ _ Hk).
  rewrite <- Hg. unfold owner_of, owner_key. cbn [map].
  generalize (raw_col posts "owner_username" !!! i),
    (raw_col posts "owner_full_name" !!! i),
    (raw_col posts "owner_id" !!! i),
    (raw_col posts "owner_profile_url" !!! i).
  intros a b c d. cbn [lookup_total list_lookup_total].
  by rewrite !norm_na_idemp.
Qed.

Lemma users_frame_nrows posts idx tl tc te al ac ae first last :
  nrows (users_frame posts idx tl tc te al ac ae first last) = length idx.
Proof. unfold users_frame, take_rows, take. simpl. by rewrite length_map. Qed.

(** The users table is a [users_frame] whose indexer arranges the groups. *)
Lemma users_returned_inv σ r posts users :
  heap σ !! r = Some posts →
  returns_frame (build_users_table r) σ users →
  ∃ idx tl tc te al ac ae first last,
    idx ≡ₚ seq 0 (length (posts_groups posts))
    ∧ Forall2 (λ g v, agg_sum (group_cells posts "engagement_raw" g) = inr v)
        (posts_groups posts) te
    ∧ users = users_frame posts idx tl tc te al ac ae first last.
Proof.
  intros Hr Hret. apply (build_users_returns _ _ _ _ Hr) in Hret.
  apply users_table_inv in Hret
    as (tl & tc & te & al & ac & ae & first & last & Hte & ->).
  eexists _, tl, tc, te, al, ac, ae, first, last.
  split; [apply lexsort_indexer_perm|]. split; [|reflexivity].
  by apply rmapM_Forall2.
Qed.

Lemma perm_seq_lookup idx n u :
  idx ≡ₚ seq 0 n → (u < length idx)%nat →
  ∃ k, idx !! u = Some k ∧ (k < n)%nat.
Proof.
  intros Hp Hu. destruct (lookup_lt_is_Some_2 _ _ Hu) as [k Hk].
  exists k. split; [done|].
  apply list_elem_of_lookup_2 in Hk. rewrite Hp in Hk.
  apply elem_of_seq in Hk. lia.
Qed.

Lemma perm_seq_position idx n k :
  idx ≡ₚ seq 0 n → (k < n)%nat →
  ∃ u, idx !! u = Some k ∧ (u < length idx)%nat.
Proof.
  intros Hp Hk. assert (k ∈ idx) as Hin.
  { rewrite Hp. apply elem_of_seq. lia. }
  apply list_elem_of_lookup_1 in Hin as [u Hu]. exists u. split; [done|].
  by eapply lookup_lt_Some.
Qed.


(** ** Sums over the users table *)

Lemma sum_skipna_perm s s' : s ≡ₚ s' → sum_skipna s = sum_skipna s'.
Proof.
  induction 1 as [|c s s' _ IH|x y s|s1 s2 s3 _ IH1 _ IH2]; simpl.
  - done.
  - by rewrite IH.
  - destruct (sum_skipna s) as [e|z]; simpl; [done|].
    destruct x, y; simpl; try done; f_equal; lia.
  - congruence.
Qed.

Lemma sum_skipna_counts {A} (f : A → nat) (l : list A) :
  sum_skipna (map (λ a, Int (Z.of_nat (f a))) l)
  = inr (Z.of_nat (sum_list_with f l)).
Proof.
  induction l as [|a l IH]; simpl; [done|].
  rewrite IH. simpl. f_equal. lia.
Qed.

Lemma length_bind_sum {A B} (f : A → list B) (l : list A) :
  length (l ≫= f) = sum_list_with (λ a, length (f a)) l.
Proof.
  induction l as [|a l IH]; csimpl; [done|]. by rewrite length_app, IH.
Qed.

Section Counting.
Context (posts : DataFrame).

Local Abbreviation group_ids := (group_ids posts).

Lemma group_cells_elem c g x :
  x ∈ group_cells posts c g ↔
  ∃ i, (i < nrows posts)%nat ∧ owner_of posts i = g
       ∧ x = raw_col posts c !!! i.
Proof.
  unfold group_cells, take. rewrite group_rows_eq.
  change (map ?f ?l) with (f <$> l). rewrite list_elem_of_fmap.
  setoid_rewrite list_elem_of_filter. setoid_rewrite elem_of_seq.
  split.
  - intros (i & -> & Hg & Hi). exists i. split; [lia|done].
  - intros (i & Hi & Hg & ->). exists i. split; [done|]. split; [done|lia].
Qed.

Lemma group_ids_elem g x :
  x ∈ group_ids g ↔
  isna x = false ∧
  ∃ i, (i < nrows posts)%nat ∧ owner_of posts i = g
       ∧ x = raw_col posts "post_id" !!! i.
Proof.
  unfold group_ids.
  by rewrite elem_of_remove_dups, list_elem_of_filter, group_cells_elem.
Qed.

(** When no post id occurs under two owners, the groups split the
    distinct post ids of the table among them. *)
Lemma group_ids_partition :
  length (raw_col posts "post_id") = nrows posts →
  (∀ i j, (i < nrows posts)%nat → (j < nrows posts)%nat →
          isna (raw_col posts "post_id" !!! i) = false →
          raw_col posts "post_id" !!! i = raw_col posts "post_id" !!! j →
          owner_of posts i = owner_of posts j) →
  sum_list_with (λ g, nunique (group_cells posts "post_id" g))
    (posts_groups posts)
  = nunique (raw_col posts "post_id").
Proof.
  intros Hlen Hone.
  change (λ g, nunique (group_cells posts "post_id" g))
    with (λ g, length (group_ids g)).
  rewrite <- length_bind_sum. unfold nunique.
  apply Permutation_length, NoDup_Permutation.
  - apply NoDup_bind; [|intros; apply NoDup_remove_dups
                       |apply posts_groups_NoDup].
    intros g g' x _ _ (Hx & i & Hi & <- & ->)%group_ids_elem
      (_ & j & Hj & <- & Heq)%group_ids_elem.
    by apply Hone.
  - apply NoDup_remove_dups.
  - intros x. rewrite list_elem_of_bind, elem_of_remove_dups.
    rewrite list_elem_of_filter. setoid_rewrite group_ids_elem.
    setoid_rewrite posts_groups_elem. split.
    + intros (g & (Hx & i & Hi & _ & ->) & _). split; [done|].
      apply list_elem_of_lookup_total_2. lia.
    + intros (Hx & Hin).
      apply list_elem_of_lookup_total_1 in Hin as (i & Hi & <-).
      exists (owner_of posts i). rewrite Hlen in Hi. eauto 10.
Qed.
End Counting.

(** The sums of the users table of any posts table: the totals always, the
    counts when the table is rectangular at [post_id] and no post id occurs
    under two owners. *)
Lemma users_totals_of_posts σ r posts users :
  heap σ !! r = Some posts →
  returns_frame (build_users_table r) σ users →
  (∀ u, (u < nrows users)%nat →
        ∃ z, cell_at users "total_engagement" u = Some (Int z)
             ∧ sum_skipna (owner_engagement posts (owner_of users u)) = inr z)
  ∧ (length (raw_col posts "post_id") = nrows posts →
     (∀ i j, (i < nrows posts)%nat → (j < nrows posts)%nat →
             isna (raw_col posts "post_id" !!! i) = false →
             raw_col posts "post_id" !!! i = raw_col posts "post_id" !!! j →
             owner_of posts i = owner_of posts j) →
     sum_skipna (raw_col users "posts_count")
     = inr (Z.of_nat (nunique (raw_col posts "post_id")))).
Proof.
  intros Hr Hret.
  destruct (users_returned_inv _ _ _ _ Hr Hret)
    as (idx & tl & tc & te & al & ac & ae & first & last & Hidx & Hte & ->).
  split.
  - rewrite users_frame_nrows. intros u Hu.
    destruct (perm_seq_lookup idx _ u Hidx Hu) as (k & Hk & Hlt).
    destruct (lookup_lt_is_Some_2 _ _ Hlt) as [g Hg].
    rewrite (users_frame_owner _ _ _ _ _ _ _ _ _ _ _ _ _ Hk Hg).
    destruct (Forall2_lookup_l _ _ _ _ _ Hte Hg) as (v & Hv & Hsum).
    unfold agg_sum in Hsum.
    destruct (sum_skipna (group_cells posts "engagement_raw" g))
      as [e|z] eqn:Hz; [done|].
    injection Hsum as <-. exists z. split.
    + unfold cell_at, users_frame. cbn -[take posts_groups].
      rewrite take_lookup, Hk. simpl.
      by rewrite (list_lookup_total_correct _ _ _ Hv).
    + unfold owner_engagement. rewrite <- group_rows_eq. exact Hz.
  - intros Hlen Hone.
    assert (raw_col (users_frame posts idx tl tc te al ac ae first last)
              "posts_count"
            = take idx
                (map (λ g, Int (Z.of_nat
                              (nunique (group_cells posts "post_id" g))))
                   (posts_groups posts))) as -> by done.
    erewrite sum_skipna_perm
      by (apply take_perm; by rewrite length_map).
    rewrite sum_skipna_counts. by rewrite group_ids_partition.
Qed.

Section Pipeline.
Context (parse_datetime : Series → string → option Z).

(** Every column of a posts table the builder returns has as many cells as
    the table has rows. *)
Lemma posts_returned_rectangular σ r raw posts :
  heap σ !! r = Some raw →
  returns_frame (build_posts_table parse_datetime r) σ posts →
  rectangular posts.
Proof.
  intros Hr Hret.
  destruct (posts_returned_inv _ _ _ _ _ Hr Hret)
    as (pid & ts & eng & _ & _ & _ & _ & ->).
  unfold rectangular, unsorted_posts, take_rows, take. cbn [map nrows].
  repeat constructor; cbn [snd]; by rewrite !length_map.
Qed.

Lemma rectangular_raw_col df c :
  rectangular df → is_Some (col_lookup c df) →
  length (raw_col df c) = nrows df.
Proof.
  unfold rectangular, raw_col. intros Hrect [s Hs]. rewrite Hs. simpl.
  generalize (nrows df) Hrect. clear Hrect. intros n Hrect.
  induction df as [|[c' s'] df IH]; [done|]. simpl in Hs.
  inversion Hrect as [|? ? Hhd Htl]; subst.
  destruct (String.eqb c c'); [|by apply IH].
  by injection Hs as <-.
Qed.

(** C4, as the code has it. Build the posts table from a raw table whose
    counts add up to at most 2^53, and the users table from that posts
    table. Then each user row's [total_engagement] is the sum of
    [engagement_raw] over the posts of that owner (the posts whose owner
    4-tuple is the row's key), missing values skipped, a sum within the
    bound, which int64 and float64 compute exactly; and, when no post id
    occurs under two different owners, the [posts_count] column sums to the
    number of distinct post ids of the posts table. *)
Theorem users_totals σ r raw l σ1 posts users :
  heap σ !! r = Some raw →
  build_posts_table parse_datetime r σ = (inr l, σ1) →
  heap σ1 !! l = Some posts →
  returns_frame (build_users_table l) σ1 users →
  exact_counts raw ["likesCount"; "commentsCount"] = true →
  (∀ u, (u < nrows users)%nat →
        ∃ z, cell_at users "total_engagement" u = Some (Int z)
             ∧ sum_skipna (owner_engagement posts (owner_of users u)) = inr z
             ∧ Z.abs z ≤ 2 ^ 53)
  ∧ ((∀ i j, (i < nrows posts)%nat → (j < nrows posts)%nat →
             raw_col posts "post_id" !!! i = raw_col posts "post_id" !!! j →
             owner_of posts i = owner_of posts j) →
     sum_skipna (raw_col users "posts_count")
     = inr (Z.of_nat (nunique (raw_col posts "post_id")))).
Proof.
  intros Hr Hrun Hl Hret Hb.
  assert (returns_frame (build_posts_table parse_datetime r) σ posts) as Hp
    by (by exists l, σ1).
  destruct (posts_returned_exact _ _ _ _ _ Hr Hp Hb) as [_ Hexact].
  destruct (users_totals_of_posts _ _ _ _ Hl Hret) as [Htot Hcount].
  split.
  - intros u Hu. destruct (Htot u Hu) as (z & Hcell & Hz).
    exists z. split; [done|]. split; [done|].
    exact (owner_sum_exact posts "engagement_raw" _ z Hexact Hz).
  - intros Hone. apply Hcount; [|by auto].
    apply rectangular_raw_col.
    + exact (posts_returned_rectangular _ _ _ _ Hr Hp).
    + destruct (posts_returned_inv _ _ _ _ _ Hr Hp)
        as (pid & ts & eng & _ & _ & _ & _ & ->).
      by cbn -[take posts_indexer raw_col].
Qed.
End Pipeline.

(** ** Texts put together *)

Lemma append_nil_l s : "" +:+ s = s.
Proof. done. Qed.

Lemma append_cons c s t : String c s +:+ t = String c (s +:+ t).
Proof. done. Qed.

Lemma append_nil_r s : s +:+ "" = s.
Proof.
  induction s as [|c s IH]; [done|]. rewrite append_cons. by rewrite IH.
Qed.

Lemma append_assoc s t u : (s +:+ t) +:+ u = s +:+ (t +:+ u).
Proof.
  induction s as [|c s IH]; [done|]. rewrite !append_cons. by rewrite IH.
Qed.

Ltac norm_append := rewrite ?append_assoc, ?append_cons, ?append_nil_l.

Lemma concat_empty_cons (a : string) (l : list string) :
  String.concat "" (a :: l) = a +:+ String.concat "" l.
Proof. destruct l as [|b l]; simpl; [by rewrite append_nil_r|done]. Qed.

(** The column standing at position [j] is the one its label finds. *)
Lemma cell_at_position df j c i v :
  nodupb (columns df) = true →
  columns df !! j = Some c →
  cell_at df c i = Some v →
  ∃ col, df !! j = Some (c, col) ∧ col !! i = Some v.
Proof.
  unfold cell_at, columns. revert j.
  induction df as [|[c' col'] df IH]; intros j Hnd Hj; [done|].
  simpl in Hnd. apply andb_true_iff in Hnd as [Hfresh Hnd].
  destruct j as [|j]; simpl in Hj |- *.
  - injection Hj as ->. rewrite String.eqb_refl. simpl. eauto.
  - destruct (String.eqb c c') eqn:E.
    + apply String.eqb_eq in E. subst c'.
      apply negb_true_iff in Hfresh.
      assert (existsb (String.eqb c) (map fst df) = true) as Hin.
      { apply existsb_exists. exists c. split; [|apply String.eqb_refl].
        apply list_elem_of_In. by eapply list_elem_of_lookup_2. }
      congruence.
    + by apply IH.
Qed.

(** ** The lines [to_csv] writes *)

Section Layout.
Context (format_cell : Series → cell → string).
Context (os : os_name) (quote_breaks : bool).

Local Abbreviation special := (special os quote_breaks).
Local Abbreviation csv_field := (csv_field os quote_breaks).
Local Abbreviation csv_line := (csv_line os quote_breaks).
Local Abbreviation csv_text := (csv_text os quote_breaks).

Lemma not_delim_not_special f :
  string_existsb is_delim f = false → string_existsb special f = false.
Proof.
  induction f as [|c f IH]; simpl; [done|].
  intros [Hc Hf]%orb_false_iff. rewrite (IH Hf), orb_false_r.
  unfold is_delim, is_break in Hc. unfold special, lineterminator.
  apply orb_false_iff in Hc as [Hc Hbreak].
  apply orb_false_iff in Hc as [Hcomma Hquote].
  apply orb_false_iff in Hbreak as [Hcr Hlf].
  rewrite Hcomma, Hquote, Hcr, Hlf. simpl.
  destruct os; simpl; by rewrite ?Hcr, ?Hlf, ?andb_false_r.
Qed.

(** The field the writer makes of a cell: nothing for a missing value; a
    text as it is when it holds no comma, double quote or line break, and
    between quotes when it holds a character that calls for them. *)
Lemma csv_field_of_cell (col : Series) v :
  let f := csv_field (csv_value format_cell col v) in
  (isna v = true → f = "")
  ∧ (∀ s, v = Str s → string_existsb is_delim s = false → f = s)
  ∧ (∀ s, v = Str s → string_existsb special s = true → f = quoted s).
Proof.
  split; [|split].
  - by destruct v.
  - intros s -> Hs. simpl. unfold csv_field.
    by rewrite (not_delim_not_special _ Hs).
  - intros s -> Hs. simpl. unfold csv_field. by rewrite Hs.
Qed.

(** A record of several fields is written as its fields, each as the
    writer makes it, with commas between them and the line terminator at
    the end. *)
Lemma csv_line_fields {A} (f : A → string) (l : list A) :
  length l ≠ 1%nat →
  csv_line (map f l)
  = String.concat "," (map (λ a, csv_field (f a)) l) +:+ linesep os.
Proof.
  unfold csv_line, lineterminator. rewrite map_map.
  destruct l as [|a [|b l]]; done.
Qed.

(** The text [to_csv] writes, line by line. *)
Lemma csv_text_layout df :
  nodupb (columns df) = true →
  length df ≠ 1%nat →
  ∃ lines,
    csv_text (csv_records format_cell df)
    = csv_line (columns df) +:+ String.concat "" lines
    ∧ length lines = nrows df
    ∧ ∀ i, (i < nrows df)%nat →
        ∃ fields,
          lines !! i = Some (String.concat "," fields +:+ linesep os)
          ∧ length fields = length df
          ∧ ∀ j c v,
              columns df !! j = Some c → cell_at df c i = Some v →
              ∃ f, fields !! j = Some f
                   ∧ (isna v = true → f = "")
                   ∧ (∀ s, v = Str s →
                           string_existsb is_delim s = false → f = s)
                   ∧ (∀ s, v = Str s →
                           string_existsb special s = true → f = quoted s).
Proof.
  intros Hnd Hlen.
  exists (map (λ i, csv_line
                      (map (λ cs, csv_value format_cell cs.2 (cs.2 !!! i)) df))
            (seq 0 (nrows df))).
  split; [|split].
  - unfold csv_text, csv_records. cbn [map].
    by rewrite concat_empty_cons, map_map.
  - by rewrite length_map, length_seq.
  - intros i Hi.
    exists (map (λ cs, csv_field (csv_value format_cell cs.2 (cs.2 !!! i)))
              df).
    split; [|split].
    + rewrite list_lookup_fmap, lookup_seq_lt by done. simpl.
      by rewrite csv_line_fields.
    + by rewrite length_map.
    + intros j c v Hj Hv.
      destruct (cell_at_position _ _ _ _ _ Hnd Hj Hv) as (col & Hcol & Hcell).
      eexists. split.
      * rewrite list_lookup_fmap, Hcol. simpl.
        by rewrite (list_lookup_total_correct _ _ _ Hcell).
      * apply csv_field_of_cell.
Qed.
End Layout.

(** ** The files [main] writes *)

Lemma bind_assoc {A B C} (m : M A) (k : A → M B) (k' : B → M C) σ :
  bind (bind m k) k' σ = bind m (λ a, bind (k a) k') σ.
Proof. unfold bind. destruct (m σ) as [[e|a] σ']; done. Qed.

Section MainWrites.
Context (parse_datetime : Series → string → option Z).
Context (format_cell : Series → cell → string).
Context (read_json : string → result DataFrame).
Context (os : os_name) (quote_breaks : bool).

Local Abbreviation load_and_build := (load_and_build parse_datetime read_json).

Lemma to_csv_run l path df h f :
  h !! l = Some df →
  to_csv format_cell os quote_breaks l path (State h f) =
    (inr tt,
     State h (<[path := csv_text os quote_breaks (csv_records format_cell df)]> f)).
Proof.
  intros H. unfold to_csv.
  by rewrite (bind_run _ _ _ _ _ (deref_run _ _ _ _ H)).
Qed.

Lemma load_raw_posts_inv path σ l σ' :
  load_raw_posts read_json path σ = (inr l, σ') →
  ∃ raw, heap σ' !! l = Some raw ∧ files σ' = files σ.
Proof.
  unfold load_raw_posts, alloc.
  destruct (files σ !! path) as [text|]; [|done].
  destruct (read_json text) as [e|raw]; [done|].
  intros [= <- <-]. exists raw. simpl. split; [apply lookup_insert_eq|done].
Qed.

Lemma load_and_build_inv σ0 l σ1 posts :
  load_and_build σ0 = (inr l, σ1) →
  heap σ1 !! l = Some posts →
  ∃ σa r raw,
    heap σa !! r = Some raw
    ∧ returns_frame (build_posts_table parse_datetime r) σa posts.
Proof.
  unfold load_and_build, bind. intros Hrun Hl.
  destruct (load_raw_posts read_json RAW_POSTS_JSON σ0) as [[e|r] σa] eqn:Hload;
    [done|].
  destruct (load_raw_posts_inv _ _ _ _ Hload) as (raw & Hr & _).
  exists σa, r, raw. split; [done|]. by exists l, σ1.
Qed.

(** What [main] leaves in [posts.csv] once the posts table is built. *)
Lemma main_posts_csv σ0 l σ1 posts :
  load_and_build σ0 = (inr l, σ1) →
  heap σ1 !! l = Some posts →
  files (main parse_datetime format_cell read_json os quote_breaks σ0).2
    !! POSTS_CSV
  = Some (csv_text os quote_breaks (csv_records format_cell posts)).
Proof.
  intros Hrun Hl. unfold main.
  rewrite <- (bind_assoc (load_raw_posts read_json RAW_POSTS_JSON)
               (build_posts_table parse_datetime)).
  fold load_and_build. rewrite (bind_run _ _ _ _ _ Hrun).
  destruct σ1 as [h1 f1]. simpl in Hl.
  rewrite (bind_run _ _ _ _ _ (to_csv_run _ _ _ _ _ Hl)).
  unfold bind at 1.
  destruct (build_users_table_run l posts h1
              (<[POSTS_CSV := csv_text os quote_breaks
                                (csv_records format_cell posts)]> f1) Hl)
    as (h' & Hst & _ & Hres).
  destruct (build_users_table l _) as [[e|u] σ2]; simpl in Hst; subst σ2.
  - simpl. apply lookup_insert_eq.
  - destruct (users_table posts) as [e|users]; [done|].
    destruct Hres as (l' & [= <-] & Hu & _).
    rewrite (to_csv_run _ _ _ _ _ Hu). simpl.
    rewrite lookup_insert_ne by done. apply lookup_insert_eq.
Qed.

End MainWrites.

(** ** The reader undoes the writer *)

Section ReadBack.
Context (os : os_name) (quote_breaks : bool).

Local Abbreviation special := (special os quote_breaks).
Local Abbreviation csv_field := (csv_field os quote_breaks).
Local Abbreviation csv_line := (csv_line os quote_breaks).
Local Abbreviation csv_text := (csv_text os quote_breaks).
Local Abbreviation field_safe := (field_safe os quote_breaks).
Local Abbreviation after_field := (after_field os quote_breaks).

Lemma not_special_not_delim f :
  string_existsb special f = false →
  string_existsb is_break f = false →
  string_existsb is_delim f = false.
Proof.
  induction f as [|c f IH]; simpl; [done|].
  intros [Hc Hf]%orb_false_iff [Hb Hfb]%orb_false_iff.
  rewrite (IH Hf Hfb), orb_false_r. unfold is_delim. rewrite Hb, orb_false_r.
  unfold special in Hc.
  apply orb_false_iff in Hc as [Hc _]. apply orb_false_iff in Hc as [Hc _].
  exact Hc.
Qed.

Lemma read_quoted_body f fld rec recs rest :
  csv_read Quoted fld rec recs (double_quotes f +:+ String dquote rest)
  = csv_read QuoteSeen (fld +:+ f) rec recs rest.
Proof.
  revert fld. induction f as [|c f IH]; intros fld; simpl; norm_append.
  - by rewrite append_nil_r.
  - destruct (Ascii.eqb c dquote) eqn:Hc; norm_append; simpl.
    + apply Ascii.eqb_eq in Hc as ->.
      rewrite IH. by norm_append.
    + rewrite Hc, IH. by norm_append.
Qed.

Lemma read_quoted f rec recs rest :
  csv_read FieldStart "" rec recs (quoted f +:+ rest)
  = csv_read QuoteSeen f rec recs rest.
Proof.
  unfold quoted. norm_append. simpl. norm_append.
  by rewrite read_quoted_body.
Qed.

Lemma read_unquoted_body f fld rec recs rest :
  string_existsb is_delim f = false →
  csv_read Unquoted fld rec recs (f +:+ rest)
  = csv_read Unquoted (fld +:+ f) rec recs rest.
Proof.
  revert fld. induction f as [|c f IH]; intros fld; simpl; norm_append.
  - by rewrite append_nil_r.
  - intros [Hc Hf]%orb_false_iff. unfold is_delim in Hc.
    apply orb_false_iff in Hc as [Hc Hb].
    apply orb_false_iff in Hc as [Hc _].
    simpl. rewrite Hc, Hb, (IH _ Hf). by norm_append.
Qed.

Lemma read_field f rec recs rest :
  field_safe f = true →
  csv_read FieldStart "" rec recs (csv_field f +:+ rest)
  = csv_read (after_field f).1 (after_field f).2 rec recs rest.
Proof.
  unfold field_safe, csv_field, after_field. intros Hsafe.
  destruct (string_existsb special f) eqn:Hq; [apply read_quoted|].
  destruct (string_existsb is_break f) eqn:Hb; [done|].
  pose proof (not_special_not_delim _ Hq Hb) as Hd.
  destruct f as [|c f]; [done|]. simpl in Hd. norm_append. simpl.
  apply orb_false_iff in Hd as [Hc Hf]. unfold is_delim in Hc.
  apply orb_false_iff in Hc as [Hc Hcb].
  apply orb_false_iff in Hc as [Hc1 Hc2].
  rewrite Hc1, Hc2, Hcb. by rewrite (read_unquoted_body _ _ _ _ _ Hf).
Qed.

Lemma read_comma f rec recs rest :
  csv_read (after_field f).1 (after_field f).2 rec recs (String comma rest)
  = csv_read FieldStart "" (rec ++ [f]) recs rest.
Proof.
  unfold after_field.
  destruct (string_existsb special f); [done|].
  destruct (String.eqb f "") eqn:Hf; [|done].
  apply String.eqb_eq in Hf as ->. done.
Qed.

Lemma read_eol f rec recs rest :
  string_existsb special f = true ∨ f ≠ "" ∨ rec ≠ [] →
  csv_read (after_field f).1 (after_field f).2 rec recs
    (lineterminator os +:+ rest)
  = csv_read FieldStart "" [] (recs ++ [rec ++ [f]]) rest.
Proof.
  unfold after_field, lineterminator. intros H.
  destruct (string_existsb special f) eqn:Hq;
    [by destruct os; simpl; norm_append|].
  destruct (String.eqb f "") eqn:Hf.
  - apply String.eqb_eq in Hf as ->.
    destruct rec as [|r rec]; [by destruct H as [?|[?|?]]|].
    by destruct os; simpl; norm_append.
  - by destruct os; simpl; norm_append.
Qed.

Lemma read_fields fs f rec recs rest :
  Forall (λ f, field_safe f = true) (f :: fs) →
  string_existsb special f = true ∨ f ≠ "" ∨ rec ≠ [] ∨ fs ≠ [] →
  csv_read FieldStart "" rec recs
    (String.concat "," (map csv_field (f :: fs))
     +:+ lineterminator os +:+ rest)
  = csv_read FieldStart "" [] (recs ++ [rec ++ f :: fs]) rest.
Proof.
  revert f rec. induction fs as [|f' fs IH]; intros f rec Hsafe Hne.
  - inversion Hsafe as [|? ? Hf _]; subst.
    change (String.concat "," (map csv_field [f])) with (csv_field f).
    rewrite read_field by done. apply read_eol.
    destruct Hne as [?|[?|[?|?]]]; auto; done.
  - inversion Hsafe as [|? ? Hf Hfs]; subst.
    change (String.concat "," (map csv_field (f :: f' :: fs)))
      with (csv_field f +:+ "," +:+
            String.concat "," (map csv_field (f' :: fs))).
    rewrite !append_assoc. rewrite read_field by done.
    change ("," +:+ ?x) with (String comma x).
    rewrite read_comma. rewrite IH; [|done|].
    + by rewrite <- app_assoc.
    + right. right. left. by destruct rec.
Qed.

Lemma read_line fields recs rest :
  fields ≠ [] →
  Forall (λ f, field_safe f = true) fields →
  csv_read FieldStart "" [] recs (csv_line fields +:+ rest)
  = csv_read FieldStart "" [] (recs ++ [fields]) rest.
Proof.
  intros Hne Hsafe. destruct fields as [|f fs]; [done|].
  unfold csv_line. rewrite append_assoc.
  destruct fs as [|f' fs].
  - destruct (String.eqb f "") eqn:Hf.
    + apply String.eqb_eq in Hf as ->. rewrite read_quoted.
      unfold lineterminator. by destruct os; simpl; norm_append.
    + change (csv_field f) with (String.concat "," (map csv_field [f])).
      apply (read_fields [] f []); [done|].
      right. left. intros ->. done.
  - apply (read_fields (f' :: fs) f []); [done|]. auto.
Qed.

(** The reader gives back the records the writer wrote. *)
Lemma read_csv_text records :
  Forall (λ fields, fields ≠ []) records →
  Forall (Forall (λ f, field_safe f = true)) records →
  read_csv (csv_text records) = records.
Proof.
  unfold read_csv, csv_text.
  assert (∀ recs,
    Forall (λ fields, fields ≠ []) records →
    Forall (Forall (λ f, field_safe f = true)) records →
    csv_read FieldStart "" [] recs (String.concat "" (map csv_line records))
    = recs ++ records) as Hgen; [|apply Hgen].
  induction records as [|fields records IH]; intros recs Hne Hsafe.
  - simpl. by rewrite app_nil_r.
  - inversion Hne; inversion Hsafe; subst.
    assert (String.concat "" (map csv_line (fields :: records))
            = csv_line fields +:+ String.concat "" (map csv_line records))
      as ->.
    { destruct records; simpl; [by rewrite append_nil_r|done]. }
    rewrite read_line, IH by done. by rewrite <- app_assoc.
Qed.

(** On Windows, and with the csv module of Python 3.13, every field is
    safe. *)
Lemma field_safe_always f :
  os = nt ∨ quote_breaks = true → field_safe f = true.
Proof.
  intros H. unfold field_safe.
  destruct (string_existsb is_break f) eqn:Hb; [|done]. simpl.
  induction f as [|c f IH]; simpl in *; [done|].
  apply orb_true_iff in Hb as [Hc|Hf]; [|by rewrite IH, orb_true_r].
  apply orb_true_iff. left. unfold special, lineterminator.
  unfold is_break in Hc.
  destruct H as [->| ->]; simpl.
  - apply orb_true_iff in Hc as [->| ->]; by rewrite ?orb_true_r.
  - rewrite Hc. by rewrite orb_true_r.
Qed.
End ReadBack.

(** ** Writing [posts.csv] and reading it back *)

Lemma astype_str_cells s pid :
  astype_str s = inr pid →
  length pid = length s ∧ Forall (λ c, ∃ t, c = Str t) pid.
Proof.
  unfold astype_str. intros H. apply rmapM_Forall2 in H. split.
  - symmetry. by eapply Forall2_length.
  - induction H as [|c p ? ? Hc _ IH]; constructor; [|done].
    destruct (py_str c) as [e|t]; [done|]. injection Hc as <-. by eexists.
Qed.

Lemma map_csv_value_texts format_cell (col : Series) :
  Forall (λ c, ∃ t, c = Str t) col →
  map (λ i, Str (csv_value format_cell col (col !!! i))) (seq 0 (length col))
  = col.
Proof.
  intros Hcol.
  transitivity (map (λ i, col !!! i) (seq 0 (length col)));
    [|apply lookup_total_seq_map].
  apply map_ext_in. intros i Hi. apply in_seq in Hi.
  destruct (lookup_lt_is_Some_2 col i) as [c Hc]; [lia|].
  rewrite (list_lookup_total_correct _ _ _ Hc).
  rewrite List.Forall_forall in Hcol.
  destruct (Hcol c) as [t ->]; [|done].
  apply list_elem_of_In. by eapply list_elem_of_lookup_2.
Qed.

Section RoundTrip.
Context (parse_datetime : Series → string → option Z).
Context (format_cell : Series → cell → string).
Context (read_json : string → result DataFrame).
Context (os : os_name) (quote_breaks : bool).

Local Abbreviation csv_safe := (csv_safe format_cell os quote_breaks).

Lemma csv_safe_always df : os = nt ∨ quote_breaks = true → csv_safe df.
Proof.
  intros H. unfold csv_safe.
  apply List.Forall_forall. intros record _.
  apply List.Forall_forall. intros f _. by apply field_safe_always.
Qed.

(** [main] runs up to the posts table on a valid raw table. *)
Lemma load_and_build_valid σ0 json raw :
  files σ0 !! RAW_POSTS_JSON = Some json →
  read_json json = inr raw →
  valid_raw raw = true →
  ∃ l σ1 post_id ts engagement,
    load_and_build parse_datetime read_json σ0 = (inr l, σ1)
    ∧ heap σ1 !! l
      = Some (take_rows (posts_indexer raw ts)
                (unsorted_posts raw post_id ts engagement))
    ∧ astype_str (raw_col raw "shortCode") = inr post_id
    ∧ to_datetime parse_datetime (raw_col raw "timestamp") = inr ts.
Proof.
  destruct σ0 as [h0 f0]. simpl. intros Hf Hj Hv.
  destruct (valid_raw_posts_table parse_datetime _ Hv)
    as (pid & ts & eng & Hpid & Hts & Hp).
  pose proof (load_raw_posts_run read_json _ _ _ h0 f0 Hf Hj) as Hload.
  assert (returns_frame
            (build_posts_table parse_datetime (fresh (dom h0)))
            (State (<[fresh (dom h0) := raw]> h0) f0)
            (take_rows (posts_indexer raw ts)
               (unsorted_posts raw pid ts eng))) as (l & σ1 & Hrun & Hl).
  { eapply build_posts_returns; [|exact Hp]. apply lookup_insert_eq. }
  exists l, σ1, pid, ts, eng. split; [|done].
  unfold load_and_build. by rewrite (bind_run _ _ _ _ _ Hload).
Qed.

End RoundTrip.

(** ** The shape of the posts table *)

Lemma take_length idx (s : Series) : length (take idx s) = length idx.
Proof. unfold take. by rewrite length_map. Qed.

Lemma take_lookup_total_None idx (s : Series) u :
  idx !! u = None → take idx s !!! u = NaN.
Proof.
  intros H. rewrite list_lookup_total_alt, take_lookup, H. done.
Qed.

Lemma getitem_present df c :
  nodupb (columns df) = true → is_Some (col_lookup c df) →
  getitem df c = inr (raw_col df c).
Proof. intros Hnd [s Hs]. unfold getitem, raw_col. by rewrite Hnd, Hs. Qed.

Lemma astype_str_lookup s pid j c :
  astype_str s = inr pid → s !! j = Some c →
  ∃ t, py_str c = inr t ∧ pid !! j = Some (Str t).
Proof.
  unfold astype_str. intros H Hj. apply rmapM_Forall2 in H.
  destruct (Forall2_lookup_l _ _ _ _ _ H Hj) as (p & Hp & Hc).
  destruct (py_str c) as [e|t]; [done|]. injection Hc as <-. by exists t.
Qed.

Lemma filter_missing_ext raw1 raw2 :
  (∀ c, In c required_cols → col_lookup c raw1 = col_lookup c raw2) →
  List.filter (λ c, negb (has_column raw1 c)) required_cols
  = List.filter (λ c, negb (has_column raw2 c)) required_cols.
Proof.
  intros Heq. apply List.filter_ext_in. intros c Hc. f_equal.
  apply eq_true_iff_eq. rewrite !has_column_lookup. by rewrite (Heq c Hc).
Qed.

Lemma astype_str_texts s :
  forallb is_text s = true → astype_str s = inr s.
Proof.
  unfold astype_str. induction s as [|c s IH]; simpl; [done|].
  intros [Hc Hs]%andb_true_iff. rewrite (IH Hs).
  by destruct c.
Qed.

Section PostsShape.
Context (parse_datetime : Series → string → option Z).

Lemma posts_returned_columns σ r raw posts :
  heap σ !! r = Some raw →
  returns_frame (build_posts_table parse_datetime r) σ posts →
  nodupb (columns raw) = true
  ∧ (∀ c, In c required_cols → is_Some (col_lookup c raw)).
Proof.
  intros Hr Hret. apply (build_posts_returns _ _ _ _ _ Hr) in Hret.
  by eapply posts_table_ok_inv.
Qed.

(** X1. The posts table [build_posts_table] returns has exactly the 18
    columns of [col_order], in that order, and every column has as many
    cells as the table has rows; built from a rectangular raw table, it has
    as many rows as the raw table: no record is dropped and none is
    added. *)
Theorem posts_table_shape σ r raw posts :
  heap σ !! r = Some raw →
  returns_frame (build_posts_table parse_datetime r) σ posts →
  columns posts = col_order
  ∧ rectangular posts
  ∧ (rectangular raw → nrows posts = nrows raw).
Proof.
  intros Hr Hret.
  destruct (posts_returned_columns _ _ _ _ Hr Hret) as [_ Hall].
  pose proof (posts_returned_rectangular _ _ _ _ _ Hr Hret) as Hrect.
  destruct (posts_returned_inv _ _ _ _ _ Hr Hret)
    as (pid & ts & eng & _ & _ & _ & _ & ->).
  split; [done|]. split; [done|].
  intros Hraw. cbn [take_rows unsorted_posts map nrows snd].
  rewrite take_length. unfold posts_indexer.
  rewrite lexsort_indexer_length.
  apply rectangular_raw_col; [done|]. apply Hall. vm_compute. tauto.
Qed.

(** X2. In the posts table built from a rectangular raw table, every row
    whose [shortcode] is a text has that same text as its [post_id]. *)
Theorem post_id_is_text_of_shortcode σ r raw posts :
  heap σ !! r = Some raw →
  returns_frame (build_posts_table parse_datetime r) σ posts →
  rectangular raw →
  ∀ i s, cell_at posts "shortcode" i = Some (Str s) →
         cell_at posts "post_id" i = Some (Str s).
Proof.
  intros Hr Hret Hraw i s.
  destruct (posts_returned_columns _ _ _ _ Hr Hret) as [_ Hall].
  destruct (posts_returned_inv _ _ _ _ _ Hr Hret)
    as (pid & ts & eng & Hpid & _ & _ & _ & ->).
  unfold cell_at. cbn -[take raw_col posts_indexer].
  rewrite !take_lookup.
  destruct (posts_indexer raw ts !! i) as [j|] eqn:Hi; [|done]. simpl.
  intros [= Hs].
  apply lexsort_indexer_lt in Hi.
  rewrite (rectangular_raw_col raw "id"),
    <- (rectangular_raw_col raw "shortCode")
    in Hi by (first [done | apply Hall; vm_compute; tauto]).
  destruct (lookup_lt_is_Some_2 _ _ Hi) as [c Hc].
  destruct (astype_str_lookup _ _ _ _ Hpid Hc) as (t & Ht & Hp).
  rewrite (list_lookup_total_correct _ _ _ Hc) in Hs. subst c.
  injection Ht as <-.
  by rewrite (list_lookup_total_correct _ _ _ Hp).
Qed.

(** The post ids of a posts table whose short codes are all texts are its
    short codes. *)
Lemma posts_returned_text_ids σ r raw posts :
  heap σ !! r = Some raw →
  returns_frame (build_posts_table parse_datetime r) σ posts →
  forallb is_text (raw_col raw "shortCode") = true →
  raw_col posts "post_id" = raw_col posts "shortcode".
Proof.
  intros Hr Hret Htexts.
  destruct (posts_returned_inv _ _ _ _ _ Hr Hret)
    as (pid & ts & eng & Hpid & _ & _ & _ & ->).
  rewrite (astype_str_texts _ Htexts) in Hpid. by injection Hpid as <-.
Qed.

Lemma posts_table_ext raw1 raw2 :
  nodupb (columns raw1) = true → nodupb (columns raw2) = true →
  (∀ c, In c required_cols → col_lookup c raw1 = col_lookup c raw2) →
  posts_table parse_datetime raw1 = posts_table parse_datetime raw2.
Proof.
  intros Hn1 Hn2 Heq.
  pose proof (filter_missing_ext _ _ Heq) as Hmiss.
  destruct (List.filter (λ c, negb (has_column raw2 c)) required_cols)
    as [|c l] eqn:E.
  - pose proof (filter_missing_nil_inv _ Hmiss) as H1.
    pose proof (filter_missing_nil_inv _ E) as H2.
    rewrite (posts_table_eq _ _ Hn1 H1), (posts_table_eq _ _ Hn2 H2).
    assert (∀ c, In c required_cols → raw_col raw1 c = raw_col raw2 c) as Hcol.
    { intros c Hc. unfold raw_col. by rewrite (Heq c Hc). }
    unfold unsorted_posts, posts_indexer.
    rewrite !(Hcol _) by (vm_compute; tauto). done.
  - unfold posts_table. by rewrite Hmiss, E.
Qed.

(** X3. [build_posts_table] reads the 16 required columns and nothing else:
    two raw tables with distinct labels that agree on the required columns,
    whatever other columns they have and in whatever order their columns
    stand, give the same posts table, or both give none. *)
Theorem posts_table_reads_required_columns_only σ1 r1 raw1 σ2 r2 raw2 posts :
  heap σ1 !! r1 = Some raw1 →
  heap σ2 !! r2 = Some raw2 →
  nodupb (columns raw1) = true → nodupb (columns raw2) = true →
  (∀ c, In c required_cols → col_lookup c raw1 = col_lookup c raw2) →
  returns_frame (build_posts_table parse_datetime r1) σ1 posts
  ↔ returns_frame (build_posts_table parse_datetime r2) σ2 posts.
Proof.
  intros H1 H2 Hn1 Hn2 Heq.
  rewrite (build_posts_returns _ _ _ _ _ H1), (build_posts_returns _ _ _ _ _ H2).
  by rewrite (posts_table_ext _ _ Hn1 Hn2 Heq).
Qed.

(** The object a run of the builder returns holds the posts table. *)
Lemma build_posts_table_result σ r raw l σ1 :
  heap σ !! r = Some raw →
  build_posts_table parse_datetime r σ = (inr l, σ1) →
  ∃ posts, heap σ1 !! l = Some posts
           ∧ returns_frame (build_posts_table parse_datetime r) σ posts.
Proof.
  destruct σ as [h f]. simpl. intros Hr Hrun.
  destruct (build_posts_table_run parse_datetime r raw h f Hr)
    as (h' & Hst & _ & Hres).
  rewrite Hrun in Hst, Hres. simpl in Hst, Hres. subst σ1.
  destruct (posts_table parse_datetime raw) as [e|posts]; [done|].
  destruct Hres as (l' & [= <-] & Hl & _).
  exists posts. split; [done|]. by exists l, (State h' f).
Qed.

(** X4. [build_posts_table] does not accept its own output: called on the
    posts table it has returned, it raises the [ValueError] of the schema
    check, whose message lists the eleven columns the first call renamed,
    and changes nothing. *)
Theorem build_posts_table_rejects_posts_table σ r raw l σ1 :
  heap σ !! r = Some raw →
  build_posts_table parse_datetime r σ = (inr l, σ1) →
  build_posts_table parse_datetime l σ1 =
    (inl (ValueError
            "Missing expected columns in JSON: ['id', 'shortCode', 'type', 'productType', 'url', 'likesCount', 'commentsCount', 'ownerUsername', 'ownerFullName', 'ownerId', 'inputUrl']"),
     σ1).
Proof.
  intros Hr Hrun.
  destruct (build_posts_table_result _ _ _ _ _ Hr Hrun) as (posts & Hl & Hret).
  destruct (posts_returned_inv _ _ _ _ _ Hr Hret)
    as (pid & ts & eng & _ & _ & _ & _ & Hposts).
  rewrite (build_posts_table_missing parse_datetime σ1 l posts Hl);
    subst posts; [done|done].
Qed.

(** What [to_datetime] makes of a text it can read. *)
Lemma to_datetime_readable s ts j t i :
  to_datetime parse_datetime s = inr ts →
  s !! j = Some (Str t) →
  t ≠ "" → parse_datetime s t = Some i →
  ts !! j = Some (Time i).
Proof.
  unfold to_datetime. intros H Hj Ht Hi. apply rmapM_Forall2 in H.
  destruct (Forall2_lookup_l _ _ _ _ _ H Hj) as (c & -> & Hc).
  f_equal. simpl in Hc. apply String.eqb_neq in Ht. rewrite Ht, Hi in Hc.
  congruence.
Qed.

(** X5. Every raw row of a rectangular raw table whose timestamp is a text
    the parser reads is a row of the posts table: the row's timestamp is
    the instant the parser read, and its other cells are the raw cells of
    that row under their new labels. *)
Theorem readable_timestamp_is_parsed σ r raw posts :
  heap σ !! r = Some raw →
  returns_frame (build_posts_table parse_datetime r) σ posts →
  rectangular raw →
  ∀ j t i,
    raw_col raw "timestamp" !! j = Some (Str t) →
    t ≠ "" →
    parse_datetime (raw_col raw "timestamp") t = Some i →
    ∃ p,
      cell_at posts "timestamp" p = Some (Time i)
      ∧ ∀ c, In c required_cols → c ≠ "timestamp" →
          cell_at posts (rename_label rename_table c) p = raw_col raw c !! j.
Proof.
  intros Hr Hret Hraw j t i Hj Ht Hi.
  destruct (posts_returned_columns _ _ _ _ Hr Hret) as [_ Hall].
  destruct (posts_returned_inv _ _ _ _ _ Hr Hret)
    as (pid & ts & eng & _ & Hts & _ & _ & ->).
  assert (∀ c, In c required_cols → length (raw_col raw c) = nrows raw)
    as Hlen by (intros c Hc; by apply rectangular_raw_col, Hall).
  assert (j < length (raw_col raw "id"))%nat as Hjn.
  { rewrite (Hlen "id") by (vm_compute; tauto).
    rewrite <- (Hlen "timestamp") by (vm_compute; tauto).
    by eapply lookup_lt_Some. }
  assert (j ∈ posts_indexer raw ts) as Hin.
  { unfold posts_indexer. rewrite lexsort_indexer_perm.
    apply elem_of_seq. lia. }
  apply list_elem_of_lookup_1 in Hin as [p Hpj].
  exists p. unfold cell_at. split.
  - cbn -[take raw_col posts_indexer]. rewrite take_lookup, Hpj. simpl.
    f_equal. apply list_lookup_total_correct.
    by eapply to_datetime_readable.
  - intros c Hc Hne.
    assert (raw_col raw c !! j = Some (raw_col raw c !!! j)) as ->.
    { apply list_lookup_lookup_total, lookup_lt_is_Some.
      rewrite (Hlen c Hc), <- (Hlen "id") by (vm_compute; tauto). done. }
    unfold required_cols in Hc. simpl in Hc.
    repeat (destruct Hc as [<-|Hc]; [
      first [ done
            | cbn -[take raw_col posts_indexer];
              by rewrite take_lookup, Hpj ] |]).
    done.
Qed.
End PostsShape.

(** ** The posts of one user stand together *)

Lemma string_leb_antisym s t :
  String.leb s t = true → String.leb t s = true → s = t.
Proof.
  unfold String.leb. rewrite (String.compare_antisym t s).
  destruct (String.compare s t) eqn:E; simpl; try done.
  intros _ _. by apply String.compare_eq_iff.
Qed.

Lemma cell_leb_antisym a b :
  cell_leb a b = true → cell_leb b a = true → a = b.
Proof.
  destruct a, b; simpl; try done.
  - intros H1%Z.leb_le H2%Z.leb_le. f_equal. lia.
  - intros H1 H2. f_equal. by apply string_leb_antisym.
  - intros H1%Z.leb_le H2%Z.leb_le. f_equal. lia.
Qed.

(** On a column that can be ordered, two keys that are each below the other
    fall together. *)
Lemma key_leb_antisym asc s i j :
  sortable s = true →
  key_leb asc (s !!! i) (s !!! j) = true →
  key_leb asc (s !!! j) (s !!! i) = true →
  same_key (s !!! i) (s !!! j).
Proof.
  intros Hs. unfold key_leb, same_key, norm_na.
  destruct (isna (s !!! i)) eqn:Hi, (isna (s !!! j)) eqn:Hj; try done.
  pose proof (lookup_total_notna_elem _ _ Hi) as Hei.
  pose proof (lookup_total_notna_elem _ _ Hj) as Hej.
  rewrite (sortable_val_leb s (s !!! i) (s !!! j)) by done.
  rewrite (sortable_val_leb s (s !!! j) (s !!! i)) by done.
  destruct asc; intros H1 H2; [|symmetry]; by apply cell_leb_antisym.
Qed.

Section PostsBlocks.
Context (parse_datetime : Series → string → option Z).

(** X6. In the posts table the rows of one user stand together: a row
    between two rows with the same username (or both without one) has that
    username too. *)
Theorem posts_of_one_user_are_adjacent σ r raw posts :
  heap σ !! r = Some raw →
  returns_frame (build_posts_table parse_datetime r) σ posts →
  ∀ p q s u1 u2 u3,
    (p < q)%nat → (q < s)%nat →
    cell_at posts "owner_username" p = Some u1 →
    cell_at posts "owner_username" q = Some u2 →
    cell_at posts "owner_username" s = Some u3 →
    same_key u1 u3 → same_key u1 u2.
Proof.
  intros Hr Hret p q s u1 u2 u3 Hpq Hqs.
  destruct (posts_returned_inv _ _ _ _ _ Hr Hret)
    as (pid & ts & eng & _ & _ & _ & Hsort & ->).
  unfold cell_at. cbn -[take raw_col posts_indexer].
  rewrite !take_lookup.
  destruct (posts_indexer raw ts !! p) as [i|] eqn:Hp; [|done].
  destruct (posts_indexer raw ts !! q) as [j|] eqn:Hq; [|done].
  destruct (posts_indexer raw ts !! s) as [k|] eqn:Hs; [|done].
  simpl. intros [= <-] [= <-] [= <-] Hsame.
  destruct (posts_indexer_order raw ts p q i j Hpq Hp Hq) as [Hij _].
  destruct (posts_indexer_order raw ts q s j k Hqs Hq Hs) as [Hjk _].
  apply key_leb_antisym with (asc := true); [done|done|].
  eapply key_leb_trans; [exact Hjk|]. by apply same_key_leb.
Qed.
End PostsBlocks.

(** ** The users table, row by row *)

Ltac name_aggregate v :=
  match goal with
  | |- context [rmapM ?f (group_keys ?k)] =>
      let E := fresh "Hagg" in
      destruct (rmapM f (group_keys k)) as [?|v] eqn:E; cbn [rbind]; [done|];
      apply rmapM_Forall2 in E
  end.

(** The users table, spelled out with all its aggregates. *)
Lemma users_table_aggregates posts users :
  users_table posts = inr users →
  ∃ tl tc te al ac ae first last,
    aggregates posts "likes" agg_sum tl
    ∧ aggregates posts "comments" agg_sum tc
    ∧ aggregates posts "engagement_raw" agg_sum te
    ∧ aggregates posts "likes" agg_mean al
    ∧ aggregates posts "comments" agg_mean ac
    ∧ aggregates posts "engagement_raw" agg_mean ae
    ∧ aggregates posts "timestamp" agg_min first
    ∧ aggregates posts "timestamp" agg_max last
    ∧ users = users_frame posts (users_indexer posts te)
                tl tc te al ac ae first last.
Proof.
  unfold users_table, groupby_agg, owner_key, user_aggs.
  cbn [rmapM rbind fst snd].
  name_column posts "owner_username". name_column posts "owner_full_name".
  name_column posts "owner_id". name_column posts "owner_profile_url".
  destruct (forallb _ _); [|done].
  name_column posts "post_id".
  unfold agg_nunique. rewrite rmapM_inr. cbn [rbind].
  name_column posts "likes". name_aggregate v1.
  name_column posts "comments". name_aggregate v2.
  name_column posts "engagement_raw". name_aggregate v3.
  name_aggregate v4. name_aggregate v5. name_aggregate v6.
  name_column posts "timestamp". name_aggregate v7. name_aggregate v8.
  change [raw_col posts "owner_username"; raw_col posts "owner_full_name";
          raw_col posts "owner_id"; raw_col posts "owner_profile_url"]
    with (map (raw_col posts) owner_key) in *.
  fold (posts_keys posts) in *. fold (posts_groups posts) in *.
  fold (group_cells posts "post_id").
  unfold sort_values.
  cbn -[sortable take_rows lexsort_indexer posts_groups group_cells].
  destruct (sortable v3 && true); [|done].
  rewrite length_map. intros [= <-].
  by exists v1, v2, v3, v4, v5, v6, v7, v8.
Qed.

Lemma users_returned_aggregates σ r posts users :
  heap σ !! r = Some posts →
  returns_frame (build_users_table r) σ users →
  ∃ tl tc te al ac ae first last,
    aggregates posts "likes" agg_sum tl
    ∧ aggregates posts "comments" agg_sum tc
    ∧ aggregates posts "engagement_raw" agg_sum te
    ∧ aggregates posts "likes" agg_mean al
    ∧ aggregates posts "comments" agg_mean ac
    ∧ aggregates posts "engagement_raw" agg_mean ae
    ∧ aggregates posts "timestamp" agg_min first
    ∧ aggregates posts "timestamp" agg_max last
    ∧ users = users_frame posts (users_indexer posts te)
                tl tc te al ac ae first last.
Proof.
  intros Hr Hret. apply (build_users_returns _ _ _ _ Hr) in Hret.
  by apply users_table_aggregates.
Qed.

Lemma group_cells_owner posts c g :
  group_cells posts c g = owner_cells posts c g.
Proof. unfold group_cells, owner_cells, take. by rewrite group_rows_eq. Qed.

Lemma aggregates_lookup posts c f vs k g :
  aggregates posts c f vs → posts_groups posts !! k = Some g →
  ∃ v, vs !! k = Some v ∧ f (owner_cells posts c g) = inr v.
Proof.
  intros Hagg Hg. rewrite <- group_cells_owner.
  by apply (Forall2_lookup_l _ _ _ _ _ Hagg Hg).
Qed.

(** Row [u] of the users table is the group the indexer has at [u]. *)
Lemma users_frame_row posts idx tl tc te al ac ae first last u :
  idx ≡ₚ seq 0 (length (posts_groups posts)) →
  (u < length idx)%nat →
  ∃ k, idx !! u = Some k
       ∧ posts_groups posts !! k
         = Some (owner_of (users_frame posts idx tl tc te al ac ae first last) u).
Proof.
  intros Hidx Hu.
  destruct (perm_seq_lookup idx _ u Hidx Hu) as (k & Hk & Hlt).
  destruct (lookup_lt_is_Some_2 _ _ Hlt) as [g Hg].
  exists k. split; [done|].
  by rewrite (users_frame_owner _ _ _ _ _ _ _ _ _ _ _ _ _ Hk Hg).
Qed.

(** Every aggregate cell of a user row is the aggregate of its source
    column over the posts of the row's owner. *)
Lemma users_row_aggregate σ r posts users u name c f :
  heap σ !! r = Some posts →
  returns_frame (build_users_table r) σ users →
  (u < nrows users)%nat →
  In (name, (c, f)) user_aggs →
  ∃ v, cell_at users name u = Some v
       ∧ f (owner_cells posts c (owner_of users u)) = inr v.
Proof.
  intros Hr Hret Hu Hin.
  destruct (users_returned_aggregates _ _ _ _ Hr Hret)
    as (tl & tc & te & al & ac & ae & first & last
        & Htl & Htc & Hte & Hal & Hac & Hae & Hfirst & Hlast & ->).
  rewrite users_frame_nrows in Hu.
  destruct (users_frame_row posts (users_indexer posts te) tl tc te al ac ae
              first last u (lexsort_indexer_perm _ _) Hu) as (k & Hk & Hg).
  set (o := owner_of _ u) in *. clearbody o.
  assert (∀ vs, aggregates posts c f vs →
            ∃ v, take (users_indexer posts te) vs !! u = Some v
                 ∧ f (owner_cells posts c o) = inr v) as Hcol.
  { intros vs Hvs.
    destruct (aggregates_lookup _ _ _ _ _ _ Hvs Hg) as (v & Hv & Hf).
    exists v. split; [|done].
    by rewrite take_lookup, Hk, <- (list_lookup_total_correct _ _ _ Hv). }
  unfold user_aggs in Hin. simpl in Hin. unfold cell_at, users_frame.
  destruct Hin as [[= <- <- <-]|Hin].
  { cbn -[take posts_groups users_indexer]. rewrite take_lookup, Hk. simpl.
    eexists. split; [reflexivity|].
    rewrite map_lookup_total by (by eapply lookup_lt_Some).
    rewrite (list_lookup_total_correct _ _ _ Hg).
    by rewrite group_cells_owner. }
  repeat (destruct Hin as [[= <- <- <-]|Hin];
          [cbn -[take posts_groups users_indexer]; by apply Hcol|]).
  done.
Qed.

Lemma agg_sum_inv s v :
  agg_sum s = inr v → ∃ z, v = Int z ∧ sum_skipna s = inr z.
Proof.
  unfold agg_sum. destruct (sum_skipna s) as [e|z]; [done|].
  intros [= <-]. by exists z.
Qed.

Lemma agg_mean_inv s v :
  agg_mean s = inr v →
  ∃ z, sum_skipna s = inr z ∧ v = mean_of z (series_count s).
Proof.
  unfold agg_mean, mean_of, series_count.
  destruct (sum_skipna s) as [e|z]; [done|]. cbn [rbind].
  intros H. exists z. split; [done|].
  by destruct (length _); injection H as <-.
Qed.

Lemma filter_all {A} (P : A → Prop) `{!∀ x, Decision (P x)} (l : list A) :
  Forall P l → filter P l = l.
Proof.
  induction 1 as [|x l Hx _ IH]; [done|].
  rewrite filter_cons, IH. by destruct (decide (P x)).
Qed.

Lemma remove_dups_length_le {A} `{EqDecision A} (l : list A) :
  (length (remove_dups l) ≤ length l)%nat.
Proof.
  induction l as [|x l IH]; simpl; [done|].
  destruct (decide_rel _ _ _); simpl; lia.
Qed.

Lemma remove_dups_nonempty {A} `{EqDecision A} (l : list A) x :
  x ∈ l → (1 ≤ length (remove_dups l))%nat.
Proof.
  intros Hx. apply elem_of_remove_dups in Hx.
  destruct (remove_dups l); [by apply elem_of_nil in Hx|simpl; lia].
Qed.

Lemma instants_elem s l :
  instants s = inr l → ∀ t, t ∈ l ↔ Time t ∈ s.
Proof.
  revert l. induction s as [|c s IH]; intros l; simpl.
  - intros [= <-] t. by rewrite !elem_of_nil.
  - destruct (instants s) as [e|r]; [done|]. cbn [rbind].
    specialize (IH r eq_refl).
    destruct c as [| | |z|x|b|xs|t0|n d]; simpl; try done; intros [= <-] t;
      rewrite !elem_of_cons, ?IH.
    1-3: split; [by right | by intros [?|?]].
    split; intros [H|H]; [left; by subst | by right | left; congruence
                         | by right].
Qed.

Lemma foldr_min_spec t l :
  let m := foldr Z.min t l in
  (m = t ∨ m ∈ l) ∧ m ≤ t ∧ ∀ x, x ∈ l → m ≤ x.
Proof.
  induction l as [|y l (Hin & Hle & Hall)]; simpl.
  - split; [by left|]. split; [lia|]. intros x Hx. by apply elem_of_nil in Hx.
  - split; [|split].
    + destruct (Z.min_spec y (foldr Z.min t l)) as [[_ ->]|[_ ->]].
      * right. by left.
      * destruct Hin as [->|Hin]; [by left|]. right. by right.
    + lia.
    + intros x [->|Hx]%elem_of_cons; [lia|]. specialize (Hall x Hx). lia.
Qed.

Lemma foldr_max_spec t l :
  let m := foldr Z.max t l in
  (m = t ∨ m ∈ l) ∧ t ≤ m ∧ ∀ x, x ∈ l → x ≤ m.
Proof.
  induction l as [|y l (Hin & Hle & Hall)]; simpl.
  - split; [by left|]. split; [lia|]. intros x Hx. by apply elem_of_nil in Hx.
  - split; [|split].
    + destruct (Z.max_spec y (foldr Z.max t l)) as [[_ ->]|[_ ->]].
      * destruct Hin as [->|Hin]; [by left|]. right. by right.
      * right. by left.
    + lia.
    + intros x [->|Hx]%elem_of_cons; [lia|]. specialize (Hall x Hx). lia.
Qed.

(** [min] of a column of instants: the missing instant when there is none,
    else the least of them. *)
Lemma agg_min_inv s v :
  agg_min s = inr v →
  ((∀ c, c ∈ s → isna c = true) → v = NaT)
  ∧ (∀ t, Time t ∈ s → ∃ a, v = Time a ∧ a ≤ t ∧ Time a ∈ s).
Proof.
  unfold agg_min. destruct (instants s) as [e|l] eqn:Hl; [done|].
  cbn [rbind]. pose proof (instants_elem _ _ Hl) as Hel.
  destruct l as [|t0 l]; intros [= <-].
  - split; [done|]. intros t Ht. apply Hel in Ht. by apply elem_of_nil in Ht.
  - destruct (foldr_min_spec t0 l) as (Hin & Hle & Hall). split.
    + intros Hna. assert (Time t0 ∈ s) as H0 by (apply Hel; by left).
      by apply Hna in H0.
    + intros t Ht. eexists. split; [reflexivity|]. split.
      * apply Hel in Ht. apply elem_of_cons in Ht as [->|Ht]; auto.
      * apply Hel. destruct Hin as [->|Hin]; [by left|by right].
Qed.

(** [max], likewise. *)
Lemma agg_max_inv s v :
  agg_max s = inr v →
  ((∀ c, c ∈ s → isna c = true) → v = NaT)
  ∧ (∀ t, Time t ∈ s → ∃ b, v = Time b ∧ t ≤ b ∧ Time b ∈ s).
Proof.
  unfold agg_max. destruct (instants s) as [e|l] eqn:Hl; [done|].
  cbn [rbind]. pose proof (instants_elem _ _ Hl) as Hel.
  destruct l as [|t0 l]; intros [= <-].
  - split; [done|]. intros t Ht. apply Hel in Ht. by apply elem_of_nil in Ht.
  - destruct (foldr_max_spec t0 l) as (Hin & Hle & Hall). split.
    + intros Hna. assert (Time t0 ∈ s) as H0 by (apply Hel; by left).
      by apply Hna in H0.
    + intros t Ht. eexists. split; [reflexivity|]. split.
      * apply Hel in Ht. apply elem_of_cons in Ht as [->|Ht]; auto.
      * apply Hel. destruct Hin as [->|Hin]; [by left|by right].
Qed.

(** X7. [build_users_table] leaves its input as it was: whether it returns
    or raises, the posts table still holds the same frame after the call,
    and so does every other object that existed before it; the files are
    untouched. *)
Theorem build_users_table_leaves_input σ r posts :
  heap σ !! r = Some posts →
  let σ' := (build_users_table r σ).2 in
  heap σ' !! r = Some posts
  ∧ (∀ l df, heap σ !! l = Some df → heap σ' !! l = Some df)
  ∧ files σ' = files σ.
Proof.
  destruct σ as [h f]. simpl. intros Hr.
  destruct (build_users_table_run r posts h f Hr) as (h' & -> & Hsub & _).
  simpl. split; [|split; [|done]].
  - by eapply lookup_weaken.
  - intros l df Hl. by eapply lookup_weaken.
Qed.

(** X8. The users table [build_users_table] returns has the 13 columns of
    [users_columns]: the four owner columns, then the nine aggregates in
    the order [agg] names them.  Every column has as many cells as the
    table has rows; there are at most as many users as posts, and none
    exactly when there is no post. *)
Theorem users_table_shape σ r posts users :
  heap σ !! r = Some posts →
  returns_frame (build_users_table r) σ users →
  columns users = users_columns
  ∧ rectangular users
  ∧ (nrows users ≤ nrows posts)%nat
  ∧ (nrows users = 0%nat ↔ nrows posts = 0%nat).
Proof.
  intros Hr Hret.
  destruct (users_returned_aggregates _ _ _ _ Hr Hret)
    as (tl & tc & te & al & ac & ae & first & last & _ & _ & _ & _ & _ & _
        & _ & _ & ->).
  split; [done|]. split.
  { unfold rectangular, users_frame, take_rows. cbn [map nrows].
    repeat constructor; cbn [snd]; by rewrite !take_length. }
  rewrite users_frame_nrows. unfold users_indexer.
  rewrite lexsort_indexer_length.
  assert (length (posts_groups posts)
          = length (remove_dups (posts_keys posts))) as Hlen
    by apply Permutation_length, group_keys_perm.
  split.
  - rewrite Hlen, <- (posts_keys_length posts). apply remove_dups_length_le.
  - split.
    + intros Hz. destruct (nrows posts) as [|n] eqn:Hn; [done|].
      assert (owner_of posts 0 ∈ posts_groups posts) as Hin
        by (apply posts_groups_elem; exists 0%nat; split; [lia|done]).
      destruct (posts_groups posts); [by apply elem_of_nil in Hin|done].
    + intros Hz. rewrite Hlen. unfold posts_keys, row_keys. by rewrite Hz.
Qed.

(** X9. The users table is in descending order of [total_engagement]:
    the totals are integers, and a row never has a greater total than a row
    above it. *)
Theorem users_sorted_by_total_engagement σ r posts users :
  heap σ !! r = Some posts →
  returns_frame (build_users_table r) σ users →
  ∀ u u' a b,
    (u < u')%nat →
    cell_at users "total_engagement" u = Some a →
    cell_at users "total_engagement" u' = Some b →
    ∃ x y, a = Int x ∧ b = Int y ∧ y ≤ x.
Proof.
  intros Hr Hret u u' a b Huu.
  destruct (users_returned_aggregates _ _ _ _ Hr Hret)
    as (tl & tc & te & al & ac & ae & first & last & _ & _ & Hte & _ & _ & _
        & _ & _ & ->).
  unfold cell_at, users_frame. cbn -[take posts_groups users_indexer].
  rewrite !take_lookup.
  destruct (users_indexer posts te !! u) as [i|] eqn:Hi; [|done].
  destruct (users_indexer posts te !! u') as [j|] eqn:Hj; [|done].
  simpl. intros [= <-] [= <-].
  assert (∀ k p, users_indexer posts te !! p = Some k →
            ∃ z, te !!! k = Int z) as Hint.
  { intros k p Hp. apply lexsort_indexer_lt in Hp.
    destruct (lookup_lt_is_Some_2 _ _ Hp) as [g Hg].
    destruct (Forall2_lookup_l _ _ _ _ _ Hte Hg) as (v & Hv & Hsum).
    apply agg_sum_inv in Hsum as (z & -> & _).
    exists z. by apply list_lookup_total_correct. }
  destruct (Hint i u Hi) as [x Hx]. destruct (Hint j u' Hj) as [y Hy].
  exists x, y. split; [done|]. split; [done|].
  pose proof (before_lookup _ _ _ _ _ Hi Hj Huu) as Hb.
  unfold users_indexer, lexsort_indexer in Hb. simpl in Hb.
  eapply stable_sort_before in Hb.
  - rewrite Hx, Hy in Hb. simpl in Hb. by apply Z.leb_le.
  - simpl. eauto using key_leb_total.
  - simpl. eauto using key_leb_trans.
Qed.

(** X10. When the likes and comments of the posts table add up to at most
    2^53, then in every row of the users table [total_likes] is the sum of
    [likes] and [total_comments] the sum of [comments] over the posts of
    the row's owner, missing values skipped; both sums are within the
    bound, where int64 and float64 compute them exactly. *)
Theorem users_likes_and_comments_totals σ r posts users :
  heap σ !! r = Some posts →
  returns_frame (build_users_table r) σ users →
  exact_counts posts ["likes"; "comments"] = true →
  ∀ u, (u < nrows users)%nat →
    ∃ a b,
      cell_at users "total_likes" u = Some (Int a)
      ∧ sum_skipna (owner_cells posts "likes" (owner_of users u)) = inr a
      ∧ cell_at users "total_comments" u = Some (Int b)
      ∧ sum_skipna (owner_cells posts "comments" (owner_of users u)) = inr b
      ∧ Z.abs a ≤ 2 ^ 53 ∧ Z.abs b ≤ 2 ^ 53.
Proof.
  intros Hr Hret Hb%exact_counts_two u Hu.
  destruct (users_row_aggregate _ _ _ _ u "total_likes" "likes" agg_sum
              Hr Hret Hu) as (v1 & Hc1 & (a & -> & Ha)%agg_sum_inv);
    [vm_compute; tauto|].
  destruct (users_row_aggregate _ _ _ _ u "total_comments" "comments" agg_sum
              Hr Hret Hu) as (v2 & Hc2 & (b & -> & Hb')%agg_sum_inv);
    [vm_compute; tauto|].
  exists a, b. do 4 (split; [done|]).
  pose proof (abs_sum_nonneg (raw_col posts "likes")).
  pose proof (abs_sum_nonneg (raw_col posts "comments")).
  split; (eapply owner_sum_exact; [apply exact_counts_one|eassumption]); lia.
Qed.

(** X11. When the values of a column of counts add up to at most 2^53, its
    total in a user row is within that bound and its average in that row is
    the float64 quotient of that total by the number of the owner's posts
    in which the value is not missing (not by [posts_count]), and [nan]
    when it is missing in all of them: so for [avg_likes] and
    [total_likes], [avg_comments] and [total_comments], [avg_engagement]
    and [total_engagement]. *)
Theorem users_averages σ r posts users :
  heap σ !! r = Some posts →
  returns_frame (build_users_table r) σ users →
  ∀ u avg total c,
    (u < nrows users)%nat →
    In (avg, total, c)
       [ ("avg_likes", "total_likes", "likes");
         ("avg_comments", "total_comments", "comments");
         ("avg_engagement", "total_engagement", "engagement_raw") ] →
    exact_counts posts [c] = true →
    ∃ z,
      cell_at users total u = Some (Int z)
      ∧ Z.abs z ≤ 2 ^ 53
      ∧ cell_at users avg u
        = Some (mean_of z
                  (series_count (owner_cells posts c (owner_of users u)))).
Proof.
  intros Hr Hret u avg total c Hu Hin Hb.
  assert (In (total, (c, agg_sum)) user_aggs
          ∧ In (avg, (c, agg_mean)) user_aggs) as [Ht Ha].
  { simpl in Hin.
    repeat (destruct Hin as [[= <- <- <-]|Hin]; [vm_compute; tauto|]).
    done. }
  destruct (users_row_aggregate _ _ _ _ u _ _ _ Hr Hret Hu Ht)
    as (v1 & Hc1 & (z & -> & Hz)%agg_sum_inv).
  destruct (users_row_aggregate _ _ _ _ u _ _ _ Hr Hret Hu Ha)
    as (v2 & Hc2 & (z' & Hz' & ->)%agg_mean_inv).
  exists z. split; [done|]. split; [by eapply owner_sum_exact|]. congruence.
Qed.

(** X12. In every row of the users table, [first_post_timestamp] and
    [last_post_timestamp] are the earliest and the latest instant among the
    owner's posts: both are the missing instant when no post of the owner
    has a timestamp; otherwise both are timestamps of posts of the owner,
    and every timestamp of the owner lies between them. *)
Theorem users_first_and_last_post σ r posts users :
  heap σ !! r = Some posts →
  returns_frame (build_users_table r) σ users →
  ∀ u, (u < nrows users)%nat →
    let ts := owner_cells posts "timestamp" (owner_of users u) in
    ∃ first last,
      cell_at users "first_post_timestamp" u = Some first
      ∧ cell_at users "last_post_timestamp" u = Some last
      ∧ ((∀ c, c ∈ ts → isna c = true) → first = NaT ∧ last = NaT)
      ∧ (∀ t, Time t ∈ ts →
           ∃ a b, first = Time a ∧ last = Time b ∧ a ≤ t ≤ b
                  ∧ Time a ∈ ts ∧ Time b ∈ ts).
Proof.
  intros Hr Hret u Hu ts.
  destruct (users_row_aggregate _ _ _ _ u "first_post_timestamp" "timestamp"
              agg_min Hr Hret Hu) as (first & Hc1 & [Hn1 Ht1]%agg_min_inv);
    [vm_compute; tauto|].
  destruct (users_row_aggregate _ _ _ _ u "last_post_timestamp" "timestamp"
              agg_max Hr Hret Hu) as (last & Hc2 & [Hn2 Ht2]%agg_max_inv);
    [vm_compute; tauto|].
  exists first, last. split; [done|]. split; [done|]. split.
  - intros Hna. split; [by apply Hn1|by apply Hn2].
  - intros t Ht.
    destruct (Ht1 t Ht) as (a & -> & Ha & Hina).
    destruct (Ht2 t Ht) as (b & -> & Hb & Hinb).
    exists a, b. repeat split; done.
Qed.

(** ** The totals of all users *)

Lemma sum_skipna_app s1 s2 a b :
  sum_skipna s1 = inr a → sum_skipna s2 = inr b →
  sum_skipna (s1 ++ s2) = inr (a + b).
Proof.
  revert a. induction s1 as [|c s1 IH]; intros a; simpl.
  - intros [= <-] ->. done.
  - destruct (sum_skipna s1) as [e|a']; [done|]. cbn [rbind].
    intros Hc Hb. rewrite (IH a' eq_refl Hb). cbn [rbind].
    destruct (isna c); [injection Hc as <-; done|].
    destruct c; try done. injection Hc as <-. f_equal. lia.
Qed.

(** The sums of the groups add up to the sum over all their cells. *)
Lemma sum_skipna_groups {A} (f : A → Series) (l : list A) (vs : Series) :
  Forall2 (λ g v, agg_sum (f g) = inr v) l vs →
  ∃ z, sum_skipna vs = inr z ∧ sum_skipna (l ≫= f) = inr z.
Proof.
  induction 1 as [|g v l vs Hv _ (z & Hz1 & Hz2)]; csimpl.
  - by exists 0.
  - apply agg_sum_inv in Hv as (x & -> & Hx).
    exists (x + z). rewrite Hz1. split; [done|].
    by apply sum_skipna_app.
Qed.

(** The groups split the rows of the table among them. *)
Lemma group_rows_partition posts :
  posts_groups posts
    ≫= (λ g, filter (λ i, owner_of posts i = g) (seq 0 (nrows posts)))
  ≡ₚ seq 0 (nrows posts).
Proof.
  apply NoDup_Permutation.
  - apply NoDup_bind; [| |apply posts_groups_NoDup].
    + intros g g' i _ _ [Hg _]%list_elem_of_filter [Hg' _]%list_elem_of_filter.
      congruence.
    + intros g _. apply NoDup_filter, NoDup_seq.
  - apply NoDup_seq.
  - intros i. rewrite list_elem_of_bind. split.
    + by intros (g & [_ Hi]%list_elem_of_filter & _).
    + intros Hi. exists (owner_of posts i). split.
      * by apply list_elem_of_filter.
      * apply posts_groups_elem. exists i. split; [|done].
        apply elem_of_seq in Hi. lia.
Qed.

Lemma owner_cells_partition posts c :
  length (raw_col posts c) = nrows posts →
  posts_groups posts ≫= owner_cells posts c ≡ₚ raw_col posts c.
Proof.
  intros Hlen.
  assert (raw_col posts c
          = map (λ i, raw_col posts c !!! i) (seq 0 (nrows posts))) as Hcol
    by (rewrite <- Hlen; symmetry; apply lookup_total_seq_map).
  unfold owner_cells. set (x := λ i : nat, raw_col posts c !!! i) in *.
  rewrite Hcol. change (map x ?y) with (x <$> y).
  rewrite <- (group_rows_partition posts).
  generalize (posts_groups posts). intros l.
  induction l as [|g l IH]; csimpl; [done|].
  change (map x ?y) with (x <$> y). rewrite fmap_app. by rewrite IH.
Qed.

(** X13. Grouping loses nothing: when the posts table has a cell of
    [likes] in every row and its likes add up to at most 2^53, the
    [total_likes] of all user rows add up to the sum of [likes] over all
    posts, missing values skipped, a sum within the bound; likewise for
    [total_comments] and [comments], and for [total_engagement] and
    [engagement_raw]. *)
Theorem users_totals_add_up σ r posts users :
  heap σ !! r = Some posts →
  returns_frame (build_users_table r) σ users →
  ∀ total c,
    In (total, c)
       [ ("total_likes", "likes"); ("total_comments", "comments");
         ("total_engagement", "engagement_raw") ] →
    length (raw_col posts c) = nrows posts →
    exact_counts posts [c] = true →
    ∃ z, sum_skipna (raw_col users total) = inr z
         ∧ sum_skipna (raw_col posts c) = inr z
         ∧ Z.abs z ≤ 2 ^ 53.
Proof.
  intros Hr Hret total c Hin Hlen Hb%exact_counts_one.
  destruct (users_returned_aggregates _ _ _ _ Hr Hret)
    as (tl & tc & te & al & ac & ae & first & last
        & Htl & Htc & Hte & _ & _ & _ & _ & _ & ->).
  assert (∃ vs, aggregates posts c agg_sum vs
                ∧ raw_col (users_frame posts (users_indexer posts te)
                             tl tc te al ac ae first last) total
                  = take (users_indexer posts te) vs) as (vs & Hvs & ->).
  { simpl in Hin.
    destruct Hin as [[= <- <-]|[[= <- <-]|[[= <- <-]|[]]]].
    - by exists tl.
    - by exists tc.
    - by exists te. }
  assert (Forall2 (λ g v, agg_sum (owner_cells posts c g) = inr v)
            (posts_groups posts) vs) as Hown.
  { eapply Forall2_impl; [exact Hvs|]. intros g v. simpl.
    by rewrite group_cells_owner. }
  destruct (sum_skipna_groups _ _ _ Hown) as (z & Hz1 & Hz2).
  assert (sum_skipna (raw_col posts c) = inr z) as Hz.
  { rewrite <- Hz2. symmetry.
    by apply sum_skipna_perm, owner_cells_partition. }
  exists z. split; [|split; [done|]].
  - rewrite <- Hz1. apply sum_skipna_perm, take_perm.
    unfold users_indexer. rewrite lexsort_indexer_perm.
    by rewrite (Forall2_length _ _ _ Hvs).
  - apply sum_skipna_abs in Hz. lia.
Qed.

(** ** The users of a posts table the builder returns *)

(** Sums over rows on which the third column is the sum of the other two,
    the two missing together. *)
Lemma sum_skipna_add (L C E : Series) (rows : list nat) a b :
  (∀ i, i ∈ rows → cell_add (L !!! i) (C !!! i) = inr (E !!! i)
                   ∧ isna (L !!! i) = isna (C !!! i)) →
  sum_skipna (map (λ i, L !!! i) rows) = inr a →
  sum_skipna (map (λ i, C !!! i) rows) = inr b →
  sum_skipna (map (λ i, E !!! i) rows) = inr (a + b).
Proof.
  revert a b. induction rows as [|i rows IH]; intros a b Hrows; simpl.
  - by intros [= <-] [= <-].
  - destruct (Hrows i) as [Hadd Hna]; [by left|].
    destruct (sum_skipna (map (λ i, L !!! i) rows)) as [e|a'];
      [done|].
    destruct (sum_skipna (map (λ i, C !!! i) rows)) as [e|b'];
      [done|].
    rewrite (IH a' b') by (first [done | intros; apply Hrows; by right]).
    cbn [rbind]. unfold cell_add in Hadd. rewrite <- Hna in Hadd.
    rewrite <- Hna. destruct (isna (L !!! i)) eqn:HL.
    + simpl in Hadd. injection Hadd as <-. simpl.
      by intros [= <-] [= <-].
    + simpl in Hadd.
      destruct (L !!! i); try done. destruct (C !!! i); try done.
      injection Hadd as <-. simpl. intros [= <-] [= <-]. f_equal. lia.
Qed.

Section UsersOfPosts.
Context (parse_datetime : Series → string → option Z).

(** In a posts table the builder returns, [engagement_raw] is the sum of
    [likes] and [comments] at every index. *)
Lemma posts_returned_engagement σ r raw posts i :
  heap σ !! r = Some raw →
  returns_frame (build_posts_table parse_datetime r) σ posts →
  cell_add (raw_col posts "likes" !!! i) (raw_col posts "comments" !!! i)
  = inr (raw_col posts "engagement_raw" !!! i).
Proof.
  intros Hr Hret.
  destruct (posts_returned_inv _ _ _ _ _ Hr Hret)
    as (pid & ts & eng & _ & _ & Hadd & _ & ->).
  change (raw_col (take_rows ?idx (unsorted_posts raw pid ts eng)) "likes")
    with (take idx (raw_col raw "likesCount")).
  change (raw_col (take_rows ?idx (unsorted_posts raw pid ts eng)) "comments")
    with (take idx (raw_col raw "commentsCount")).
  change (raw_col (take_rows ?idx (unsorted_posts raw pid ts eng))
            "engagement_raw") with (take idx eng).
  destruct (posts_indexer raw ts !! i) as [j|] eqn:Hi.
  - rewrite !(take_lookup_total _ _ _ _ Hi).
    by apply series_add_lookup_total.
  - by rewrite !(take_lookup_total_None _ _ _ Hi).
Qed.

(** The post ids of a posts table built from a rectangular raw table are
    texts. *)
Lemma posts_returned_post_id σ r raw posts i :
  heap σ !! r = Some raw →
  returns_frame (build_posts_table parse_datetime r) σ posts →
  rectangular raw →
  (i < nrows posts)%nat →
  ∃ t, raw_col posts "post_id" !! i = Some (Str t).
Proof.
  intros Hr Hret Hraw Hi.
  destruct (posts_returned_columns _ _ _ _ _ Hr Hret) as [_ Hall].
  destruct (posts_returned_inv _ _ _ _ _ Hr Hret)
    as (pid & ts & eng & Hpid & _ & _ & _ & ->).
  change (raw_col (take_rows ?idx (unsorted_posts raw pid ts eng)) "post_id")
    with (take idx pid).
  cbn [take_rows unsorted_posts map nrows snd] in Hi.
  rewrite take_length in Hi.
  destruct (lookup_lt_is_Some_2 _ _ Hi) as [j Hj].
  rewrite take_lookup, Hj. simpl.
  apply lexsort_indexer_lt in Hj.
  rewrite (rectangular_raw_col raw "id"),
    <- (rectangular_raw_col raw "shortCode")
    in Hj by (first [done | apply Hall; vm_compute; tauto]).
  destruct (lookup_lt_is_Some_2 _ _ Hj) as [c Hc].
  destruct (astype_str_lookup _ _ _ _ Hpid Hc) as (t & _ & Hp).
  exists t. by rewrite (list_lookup_total_correct _ _ _ Hp).
Qed.

(** X14. Build the posts table from a raw table whose counts add up to at
    most 2^53, and the users table from that posts table. For a user none
    of whose posts has exactly one of [likes] and [comments] missing,
    [total_engagement] is the sum of [total_likes] and [total_comments],
    all three within the bound. *)
Theorem users_total_engagement_splits σ r raw l σ1 posts users :
  heap σ !! r = Some raw →
  build_posts_table parse_datetime r σ = (inr l, σ1) →
  heap σ1 !! l = Some posts →
  returns_frame (build_users_table l) σ1 users →
  exact_counts raw ["likesCount"; "commentsCount"] = true →
  ∀ u, (u < nrows users)%nat →
    (∀ i, (i < nrows posts)%nat →
          owner_of posts i = owner_of users u →
          isna (raw_col posts "likes" !!! i)
          = isna (raw_col posts "comments" !!! i)) →
    ∃ a b,
      cell_at users "total_likes" u = Some (Int a)
      ∧ cell_at users "total_comments" u = Some (Int b)
      ∧ cell_at users "total_engagement" u = Some (Int (a + b))
      ∧ Z.abs a ≤ 2 ^ 53 ∧ Z.abs b ≤ 2 ^ 53 ∧ Z.abs (a + b) ≤ 2 ^ 53.
Proof.
  intros Hr Hrun Hl Hret Hb u Hu Htogether.
  assert (returns_frame (build_posts_table parse_datetime r) σ posts) as Hp
    by (by exists l, σ1).
  destruct (posts_returned_exact _ _ _ _ _ Hr Hp Hb)
    as [Hlc%exact_counts_two Hexact].
  destruct (users_row_aggregate _ _ _ _ u "total_likes" "likes" agg_sum
              Hl Hret Hu) as (v1 & Hc1 & (a & -> & Ha)%agg_sum_inv);
    [vm_compute; tauto|].
  destruct (users_row_aggregate _ _ _ _ u "total_comments" "comments" agg_sum
              Hl Hret Hu) as (v2 & Hc2 & (b & -> & Hb')%agg_sum_inv);
    [vm_compute; tauto|].
  destruct (users_row_aggregate _ _ _ _ u "total_engagement" "engagement_raw"
              agg_sum Hl Hret Hu) as (v3 & Hc3 & (e & -> & He)%agg_sum_inv);
    [vm_compute; tauto|].
  assert (e = a + b) as ->.
  { unfold owner_cells in Ha, Hb', He.
    assert (sum_skipna
              (map (λ i, raw_col posts "engagement_raw" !!! i)
                 (filter (λ i, owner_of posts i = owner_of users u)
                    (seq 0 (nrows posts)))) = inr (a + b)) as Hsum.
    { apply (sum_skipna_add (raw_col posts "likes")
               (raw_col posts "comments")); [|done|done].
      intros i [Ho Hi%elem_of_seq]%list_elem_of_filter. split.
      - exact (posts_returned_engagement _ _ _ _ i Hr Hp).
      - apply Htogether; [lia|done]. }
    congruence. }
  exists a, b. do 3 (split; [done|]).
  pose proof (abs_sum_nonneg (raw_col posts "likes")).
  pose proof (abs_sum_nonneg (raw_col posts "comments")).
  split; [|split].
  - eapply owner_sum_exact; [apply exact_counts_one|exact Ha]. lia.
  - eapply owner_sum_exact; [apply exact_counts_one|exact Hb']. lia.
  - by eapply owner_sum_exact.
Qed.

(** X15. Build the posts table from a rectangular raw table whose short
    codes are all texts, and the users table from that posts table. Then
    [posts_count] is in every user row the number of distinct short codes
    among the posts of the row's owner: at least 1, at most the number of
    those posts, and equal to it when their short codes are pairwise
    distinct. *)
Theorem users_posts_count_bounds σ r raw l σ1 posts users :
  heap σ !! r = Some raw →
  build_posts_table parse_datetime r σ = (inr l, σ1) →
  heap σ1 !! l = Some posts →
  returns_frame (build_users_table l) σ1 users →
  rectangular raw →
  forallb is_text (raw_col raw "shortCode") = true →
  ∀ u, (u < nrows users)%nat →
    let codes := owner_cells posts "shortcode" (owner_of users u) in
    ∃ n,
      cell_at users "posts_count" u = Some (Int n)
      ∧ n = Z.of_nat (length (remove_dups codes))
      ∧ 1 ≤ n ≤ Z.of_nat (length codes)
      ∧ (NoDup codes → n = Z.of_nat (length codes)).
Proof.
  intros Hr Hrun Hl Hret Hraw Htexts u Hu codes. unfold codes. clear codes.
  assert (returns_frame (build_posts_table parse_datetime r) σ posts) as Hp
    by (by exists l, σ1).
  destruct (users_row_aggregate _ _ _ _ u "posts_count" "post_id" agg_nunique
              Hl Hret Hu) as (v & Hc & Hv); [vm_compute; tauto|].
  injection Hv as <-. eexists. split; [exact Hc|].
  set (o := owner_of users u) in *.
  assert (owner_cells posts "post_id" o = owner_cells posts "shortcode" o)
    as Hids.
  { unfold owner_cells.
    by rewrite (posts_returned_text_ids _ _ _ _ _ Hr Hp Htexts). }
  rewrite Hids. clear Hids.
  assert (o ∈ posts_groups posts) as Ho.
  { destruct (users_returned_aggregates _ _ _ _ Hl Hret)
      as (tl & tc & te & al & ac & ae & first & last & _ & _ & _ & _ & _ & _
          & _ & _ & Husers).
    subst users. rewrite users_frame_nrows in Hu.
    destruct (users_frame_row posts (users_indexer posts te) tl tc te al ac
                ae first last u (lexsort_indexer_perm _ _) Hu)
      as (k & _ & Hg).
    by eapply list_elem_of_lookup_2. }
  apply posts_groups_elem in Ho as (i & Hi & Hio).
  assert (∀ j, (j < nrows posts)%nat →
               ∃ t, raw_col posts "shortcode" !! j = Some (Str t)) as Hcode.
  { intros j Hj.
    rewrite <- (posts_returned_text_ids _ _ _ _ _ Hr Hp Htexts).
    exact (posts_returned_post_id _ _ _ _ j Hr Hp Hraw Hj). }
  assert (filter (λ c, isna c = false) (owner_cells posts "shortcode" o)
          = owner_cells posts "shortcode" o) as Hfilter.
  { apply filter_all, Forall_forall. intros x Hx.
    unfold owner_cells in Hx. apply list_elem_of_fmap in Hx as (j & -> & Hj).
    apply list_elem_of_filter in Hj as [_ Hj%elem_of_seq].
    destruct (Hcode j) as [t' Ht']; [lia|].
    by rewrite (list_lookup_total_correct _ _ _ Ht'). }
  unfold nunique. rewrite Hfilter.
  split; [done|].
  destruct (Hcode i Hi) as [t Ht].
  assert (1 ≤ length (remove_dups (owner_cells posts "shortcode" o)))%nat
    as Hlow.
  { apply (remove_dups_nonempty _ (Str t)).
    unfold owner_cells. apply list_elem_of_fmap. exists i. split.
    - by rewrite (list_lookup_total_correct _ _ _ Ht).
    - apply list_elem_of_filter. split; [done|]. apply elem_of_seq. lia. }
  pose proof (remove_dups_length_le (owner_cells posts "shortcode" o)).
  split; [lia|]. intros Hnd. f_equal.
  apply Permutation_length, NoDup_Permutation;
    [apply NoDup_remove_dups|done|apply elem_of_remove_dups].
Qed.
End UsersOfPosts.

(** ** The users table comes out *)

Lemma rmapM_total {A B} (f : A → result B) (l : list A) :
  (∀ a, ∃ b, f a = inr b) → ∃ bs, rmapM f l = inr bs.
Proof.
  intros Hf. induction l as [|a l [bs IH]]; simpl; [by eexists|].
  destruct (Hf a) as [b ->]. rewrite IH. by eexists.
Qed.

Lemma take_forallb (P : cell → bool) idx (s : Series) :
  P NaN = true → forallb P s = true → forallb P (take idx s) = true.
Proof.
  intros Hnan Hs. rewrite forallb_forall in Hs.
  apply forallb_forall. intros c Hc.
  apply in_map_iff in Hc as (i & <- & _).
  rewrite list_lookup_total_alt.
  destruct (s !! i) as [x|] eqn:Hx; simpl; [|done].
  apply Hs, list_elem_of_In. by eapply list_elem_of_lookup_2.
Qed.

Lemma sum_skipna_total s :
  forallb int_or_missing s = true → ∃ z, sum_skipna s = inr z.
Proof.
  induction s as [|c s IH]; simpl; [by eexists|].
  intros [Hc Hs]%andb_true_iff. destruct (IH Hs) as [z ->]. cbn [rbind].
  destruct c; try done; simpl; by eexists.
Qed.

Lemma agg_sum_total s :
  forallb int_or_missing s = true → ∃ v, agg_sum s = inr v.
Proof.
  intros Hs. unfold agg_sum. destruct (sum_skipna_total _ Hs) as [z ->].
  by eexists.
Qed.

Lemma agg_mean_total s :
  forallb int_or_missing s = true → ∃ v, agg_mean s = inr v.
Proof.
  intros Hs. unfold agg_mean. destruct (sum_skipna_total _ Hs) as [z ->].
  cbn [rbind]. destruct (length _); by eexists.
Qed.

Lemma instants_total s :
  forallb time_or_missing s = true → ∃ l, instants s = inr l.
Proof.
  induction s as [|c s IH]; simpl; [by eexists|].
  intros [Hc Hs]%andb_true_iff. destruct (IH Hs) as [l ->]. cbn [rbind].
  destruct c; try done; simpl; by eexists.
Qed.

Lemma agg_min_total s :
  forallb time_or_missing s = true → ∃ v, agg_min s = inr v.
Proof.
  intros Hs. unfold agg_min. destruct (instants_total _ Hs) as [l ->].
  cbn [rbind]. destruct l; by eexists.
Qed.

Lemma agg_max_total s :
  forallb time_or_missing s = true → ∃ v, agg_max s = inr v.
Proof.
  intros Hs. unfold agg_max. destruct (instants_total _ Hs) as [l ->].
  cbn [rbind]. destruct l; by eexists.
Qed.

(** A column of sums can be ordered. *)
Lemma agg_sum_sortable {A} (f : A → Series) (l : list A) te :
  rmapM (λ g, agg_sum (f g)) l = inr te → sortable te = true.
Proof.
  intros H. apply rmapM_Forall2 in H. unfold sortable.
  assert (forallb (same_kind KInt) te = true) as ->; [|done].
  induction H as [|g v ? ? Hv _ IH]; simpl; [done|].
  apply agg_sum_inv in Hv as (z & -> & _). by rewrite IH.
Qed.

Lemma series_add_cells a b e :
  series_add a b = inr e → forallb int_or_missing e = true.
Proof.
  unfold series_add. intros H. apply rmapM_Forall2 in H.
  induction H as [|p c ? ? Hc _ IH]; simpl; [done|].
  rewrite IH, andb_true_r. unfold cell_add in Hc.
  destruct (isna p.1 || isna p.2); [by injection Hc as <-|].
  destruct p.1; try done. destruct p.2; try done. by injection Hc as <-.
Qed.

Lemma to_datetime_cells_b parse_datetime s ts :
  to_datetime parse_datetime s = inr ts → forallb time_or_missing ts = true.
Proof.
  intros H. apply to_datetime_cells in H. apply forallb_forall.
  intros c Hc. rewrite List.Forall_forall in H.
  by destruct (H c Hc) as [->|[t ->]].
Qed.

Ltac total_aggregate H E :=
  match goal with
  | |- context [rmapM ?f (posts_groups ?p)] =>
      let vs := fresh "vs" in
      destruct (rmapM_total f (posts_groups p)) as [vs E];
      [intros g; apply H; by apply take_forallb
      |rewrite E; cbn [rbind]]
  end.

(** The users table comes out of a posts table with the columns it reads,
    keys it can group on, integer counts and parsed instants. *)
Lemma users_table_total posts :
  nodupb (columns posts) = true →
  (∀ c, In c (owner_key ++ ["post_id"; "likes"; "comments"; "engagement_raw";
                            "timestamp"]) →
        is_Some (col_lookup c posts)) →
  forallb (forallb hashable_key) (map (raw_col posts) owner_key) = true →
  forallb int_or_missing (raw_col posts "likes") = true →
  forallb int_or_missing (raw_col posts "comments") = true →
  forallb int_or_missing (raw_col posts "engagement_raw") = true →
  forallb time_or_missing (raw_col posts "timestamp") = true →
  ∃ users, users_table posts = inr users.
Proof.
  intros Hnd Hall Hkeys Hl Hc He Ht.
  unfold users_table, groupby_agg, owner_key, user_aggs.
  cbn [rmapM rbind fst snd].
  rewrite !(getitem_present posts)
    by (first [done | apply Hall; vm_compute; tauto]).
  cbn [rbind].
  change [raw_col posts "owner_username"; raw_col posts "owner_full_name";
          raw_col posts "owner_id"; raw_col posts "owner_profile_url"]
    with (map (raw_col posts) owner_key).
  rewrite Hkeys.
  fold (posts_keys posts). fold (posts_groups posts).
  unfold agg_nunique. rewrite rmapM_inr. cbn [rbind].
  total_aggregate agg_sum_total Htl. total_aggregate agg_sum_total Htc.
  total_aggregate agg_sum_total Hte.
  total_aggregate agg_mean_total Hal. total_aggregate agg_mean_total Hac.
  total_aggregate agg_mean_total Hae.
  total_aggregate agg_min_total Hfirst. total_aggregate agg_max_total Hlast.
  unfold sort_values.
  cbn -[sortable take_rows lexsort_indexer posts_groups group_cells].
  rewrite (agg_sum_sortable _ _ _ Hte). by eexists.
Qed.

(** ** [main], file by file *)

Section MainFiles.
Context (parse_datetime : Series → string → option Z).
Context (format_cell : Series → cell → string).
Context (read_json : string → result DataFrame).
Context (os : os_name) (quote_breaks : bool).

Local Abbreviation main :=
  (main parse_datetime format_cell read_json os quote_breaks).
Local Abbreviation main_files :=
  (main_files parse_datetime format_cell read_json os quote_breaks).
Local Abbreviation file_of df :=
  (csv_text os quote_breaks (csv_records format_cell df)).

(** [main] acts on the files as [main_files] says. *)
Lemma main_run σ0 :
  (main σ0).1 = (main_files (files σ0)).1
  ∧ files (main σ0).2 = (main_files (files σ0)).2.
Proof.
  destruct σ0 as [h0 f0]. unfold main, main_files, bind.
  unfold load_raw_posts. simpl files.
  destruct (f0 !! RAW_POSTS_JSON) as [json|]; [|done].
  destruct (read_json json) as [e|raw]; [done|]. cbn [rbind].
  unfold alloc. simpl heap. simpl files.
  set (l0 := fresh (dom h0)). set (h1 := <[l0 := raw]> h0).
  destruct (build_posts_table_run parse_datetime l0 raw h1 f0
              (lookup_insert_eq _ _ _)) as (h2 & Hst & _ & Hres).
  destruct (build_posts_table parse_datetime l0 (State h1 f0))
    as [res σ2]. simpl in Hst, Hres. subst σ2.
  destruct (posts_table parse_datetime raw) as [e|posts].
  { by subst res. }
  destruct Hres as (l & -> & Hl & _).
  rewrite (to_csv_run _ _ _ _ _ _ _ _ Hl).
  set (f1 := <[POSTS_CSV := _]> f0).
  destruct (build_users_table_run l posts h2 f1 Hl) as (h3 & Hst & _ & Hres).
  destruct (build_users_table l (State h2 f1)) as [res σ3].
  simpl in Hst, Hres. subst σ3.
  destruct (users_table posts) as [e|users].
  { by subst res. }
  destruct Hres as (l' & -> & Hl' & _).
  by rewrite (to_csv_run _ _ _ _ _ _ _ _ Hl').
Qed.

Lemma main_run_eq σ0 res σ' :
  main σ0 = (res, σ') →
  main_files (files σ0) = (res, files σ').
Proof.
  intros H. destruct (main_run σ0) as [H1 H2].
  rewrite H in H1, H2. simpl in H1, H2.
  destruct (main_files (files σ0)). simpl in *. by subst.
Qed.

(** What [main_files] is when it ends well. *)
Lemma main_files_ok f f' :
  main_files f = (inr tt, f') →
  ∃ json raw posts users,
    f !! RAW_POSTS_JSON = Some json
    ∧ read_json json = inr raw
    ∧ posts_table parse_datetime raw = inr posts
    ∧ users_table posts = inr users
    ∧ f' = <[USERS_CSV := file_of users]> (<[POSTS_CSV := file_of posts]> f).
Proof.
  unfold main_files.
  destruct (f !! RAW_POSTS_JSON) as [json|] eqn:Hf; [|done].
  destruct (read_json json) as [e|raw] eqn:Hj; [done|]. cbn [rbind].
  destruct (posts_table parse_datetime raw) as [e|posts] eqn:Hp; [done|].
  destruct (users_table posts) as [e|users] eqn:Hu; [done|].
  intros [= <-]. by exists json, raw, posts, users.
Qed.

Lemma posts_table_returns raw posts σ r :
  posts_table parse_datetime raw = inr posts →
  heap σ !! r = Some raw →
  returns_frame (build_posts_table parse_datetime r) σ posts.
Proof. intros Hp Hr. by apply (build_posts_returns _ _ _ _ _ Hr). Qed.

Lemma users_table_returns posts users σ r :
  users_table posts = inr users →
  heap σ !! r = Some posts →
  returns_frame (build_users_table r) σ users.
Proof. intros Hp Hr. by apply (build_users_returns _ _ _ _ Hr). Qed.

(** X16. [main] touches no file but its two outputs: whatever it finds and
    however it ends, every file other than [posts.csv] and [users.csv], the
    input file among them, is after the run what it was before. *)
Theorem main_touches_only_outputs σ0 path :
  path ≠ POSTS_CSV → path ≠ USERS_CSV →
  files (main σ0).2 !! path = files σ0 !! path.
Proof.
  intros Hp Hu. destruct (main_run σ0) as [_ ->].
  unfold main_files.
  destruct (files σ0 !! RAW_POSTS_JSON) as [json|]; [|done].
  destruct (_ <- read_json json;;; _) as [e|posts]; [done|]. cbv zeta.
  destruct (users_table posts) as [e|users]; simpl;
    by rewrite ?lookup_insert_ne by done.
Qed.

(** X17. When [main] ends well, the input file was there and decoded to a
    raw table; [posts.csv] holds the CSV text of the posts table
    [build_posts_table] returns on that raw table, and [users.csv] the CSV
    text of the users table [build_users_table] returns on that posts table
    (the table in memory, not the file written from it); the other files
    are as they were. *)
Theorem main_writes_both_tables σ0 σ' :
  main σ0 = (inr tt, σ') →
  ∃ json raw posts users,
    files σ0 !! RAW_POSTS_JSON = Some json
    ∧ read_json json = inr raw
    ∧ (∀ σ r, heap σ !! r = Some raw →
              returns_frame (build_posts_table parse_datetime r) σ posts)
    ∧ (∀ σ r, heap σ !! r = Some posts →
              returns_frame (build_users_table r) σ users)
    ∧ files σ' =
        <[USERS_CSV := file_of users]>
          (<[POSTS_CSV := file_of posts]> (files σ0)).
Proof.
  intros Hrun. apply main_run_eq, main_files_ok in Hrun
    as (json & raw & posts & users & Hf & Hj & Hp & Hu & Hfiles).
  exists json, raw, posts, users. split; [done|]. split; [done|].
  split; [|split; [|done]].
  - intros σ r. by apply posts_table_returns.
  - intros σ r. by apply users_table_returns.
Qed.

(** X18. Let the texts of the input be well-formed, so that they can be
    written. When [main] raises, [users.csv] is as it was before the run,
    and the files are either all as they were, or all as they were but for
    [posts.csv], which then holds the complete posts table: the error came
    after the posts table was written. *)
Theorem main_failure_leaves_users_csv σ0 e σ' :
  (∀ json raw, files σ0 !! RAW_POSTS_JSON = Some json →
               read_json json = inr raw → encodable raw = true) →
  main σ0 = (inl e, σ') →
  files σ' !! USERS_CSV = files σ0 !! USERS_CSV
  ∧ (files σ' = files σ0
     ∨ ∃ json raw posts,
         files σ0 !! RAW_POSTS_JSON = Some json
         ∧ read_json json = inr raw
         ∧ encodable raw = true
         ∧ (∀ σ r, heap σ !! r = Some raw →
                   returns_frame (build_posts_table parse_datetime r) σ posts)
         ∧ files σ' = <[POSTS_CSV := file_of posts]> (files σ0)).
Proof.
  intros Henc Hrun. apply main_run_eq in Hrun. revert Hrun.
  unfold main_files.
  destruct (files σ0 !! RAW_POSTS_JSON) as [json|] eqn:Hf;
    [|intros [= _ <-]; by auto].
  destruct (read_json json) as [e'|raw] eqn:Hj; [intros [= _ <-]; by auto|].
  cbn [rbind].
  destruct (posts_table parse_datetime raw) as [e'|posts] eqn:Hp;
    [intros [= _ <-]; by auto|].
  destruct (users_table posts) as [e'|users]; [|done].
  intros [= _ <-]. split; [by rewrite lookup_insert_ne|].
  right. exists json, raw, posts. split; [done|]. split; [done|].
  split; [by eapply Henc|].
  split; [|done]. intros σ r. by apply posts_table_returns.
Qed.

Lemma main_files_again f f' :
  main_files f = (inr tt, f') → main_files f' = (inr tt, f').
Proof.
  intros H. apply main_files_ok in H
    as (json & raw & posts & users & Hf & Hj & Hp & Hu & ->).
  unfold main_files.
  rewrite !lookup_insert_ne by done. rewrite Hf, Hj. cbn [rbind].
  rewrite Hp, Hu. cbv zeta. f_equal.
  apply map_eq. intros k.
  destruct (decide (k = USERS_CSV)) as [->|Hk1];
    [by rewrite !lookup_insert_eq|].
  destruct (decide (k = POSTS_CSV)) as [->|Hk2];
    repeat first [rewrite lookup_insert_eq | rewrite lookup_insert_ne by done];
    done.
Qed.

(** X20. Running [main] again changes nothing: after a run that ended well,
    a second run ends well too and leaves every file, the two outputs
    included, with the content the first run left. *)
Theorem main_again_changes_nothing σ0 σ1 :
  main σ0 = (inr tt, σ1) →
  ∃ σ2, main σ1 = (inr tt, σ2) ∧ files σ2 = files σ1.
Proof.
  intros H. apply main_run_eq, main_files_again in H.
  destruct (main_run σ1) as [H1 H2].
  rewrite H in H1, H2. simpl in H1, H2.
  destruct (main σ1) as [res σ2]. simpl in H1, H2. subst res.
  by exists σ2.
Qed.

(** On a valid raw table whose owner columns can be grouped on, both
    builders return. *)
Lemma valid_raw_tables raw :
  valid_raw raw = true → valid_owners raw = true →
  ∃ posts users,
    posts_table parse_datetime raw = inr posts
    ∧ users_table posts = inr users.
Proof.
  intros Hv Ho. destruct (valid_raw_columns _ Hv) as (Hnd & Hall & _).
  rewrite (posts_table_eq _ _ Hnd Hall).
  unfold valid_raw in Hv. rewrite !andb_true_iff in Hv.
  destruct Hv as [[[[[_ Hp] Ht] Hl] Hc] Hs].
  unfold valid_owners in Ho. cbn [forallb] in Ho.
  rewrite !andb_true_iff in Ho. destruct Ho as (Ho1 & Ho2 & Ho3 & Ho4 & _).
  destruct (astype_str_total _ Hp) as [post_id ->].
  destruct (to_datetime_total parse_datetime _ Ht) as [ts Hts]. rewrite Hts.
  destruct (series_add_total _ _ Hl Hc) as [engagement Heng]. rewrite Heng.
  cbn [rbind]. rewrite Hs, (to_datetime_sortable _ _ _ Hts). cbn [andb].
  cut (∃ users,
         users_table (take_rows (posts_indexer raw ts)
                        (unsorted_posts raw post_id ts engagement))
         = inr users).
  { intros [users Hu]. by eexists _, users. }
  apply users_table_total.
  - done.
  - intros c Hc'. simpl in Hc'.
    repeat (destruct Hc' as [<-|Hc']; [by eexists|]). done.
  - unfold owner_key. cbn [map forallb].
    change (raw_col (take_rows ?idx (unsorted_posts raw ?p ?t ?e))
              "owner_username") with (take idx (raw_col raw "ownerUsername")).
    change (raw_col (take_rows ?idx (unsorted_posts raw ?p ?t ?e))
              "owner_full_name") with (take idx (raw_col raw "ownerFullName")).
    change (raw_col (take_rows ?idx (unsorted_posts raw ?p ?t ?e))
              "owner_id") with (take idx (raw_col raw "ownerId")).
    change (raw_col (take_rows ?idx (unsorted_posts raw ?p ?t ?e))
              "owner_profile_url") with (take idx (raw_col raw "inputUrl")).
    by rewrite !take_forallb.
  - by apply take_forallb.
  - by apply take_forallb.
  - apply take_forallb; [done|]. by eapply series_add_cells.
  - apply take_forallb; [done|]. by eapply to_datetime_cells_b.
Qed.

(** X21. [main] ends well on every valid input: when the input file decodes
    to a valid raw table whose four owner columns hold texts, numbers or
    missing values and whose texts are well-formed, so that they can be
    written, both builders return and both output files are written. *)
Theorem main_completes_on_valid_input σ0 json raw :
  files σ0 !! RAW_POSTS_JSON = Some json →
  read_json json = inr raw →
  valid_raw raw = true →
  valid_owners raw = true →
  encodable raw = true →
  ∃ σ', main σ0 = (inr tt, σ')
        ∧ is_Some (files σ' !! POSTS_CSV)
        ∧ is_Some (files σ' !! USERS_CSV).
Proof.
  intros Hf Hj Hv Ho _.
  destruct (valid_raw_tables raw Hv Ho) as (posts & users & Hp & Hu).
  destruct (main_run σ0) as [H1 H2].
  unfold main_files in H1, H2. rewrite Hf, Hj in H1, H2.
  cbn [rbind] in H1, H2. rewrite Hp, Hu in H1, H2. simpl in H1, H2.
  destruct (main σ0) as [res σ']. simpl in H1, H2. subst res.
  exists σ'. split; [done|]. rewrite H2. split.
  - rewrite lookup_insert_ne by done. rewrite lookup_insert_eq. by eexists.
  - rewrite lookup_insert_eq. by eexists.
Qed.

End MainFiles.

(** * Examples *)

(** The concrete scenario of the specification: one post with
    [post_id = "abc"] and [engagement_raw = 12], one user row for alice with
    [posts_count = 1] and [total_engagement = 12]. *)
Example spec_scenario :
  ∃ posts users,
    posts_table sample_parse raw_scenario = inr posts
    ∧ users_table posts = inr users
    ∧ nrows posts = 1%nat
    ∧ cell_at posts "post_id" 0%nat = Some (Str "abc")
    ∧ cell_at posts "engagement_raw" 0%nat = Some (Int 12)
    ∧ nrows users = 1%nat
    ∧ cell_at users "owner_username" 0%nat = Some (Str "alice")
    ∧ cell_at users "posts_count" 0%nat = Some (Int 1)
    ∧ cell_at users "total_engagement" 0%nat = Some (Int 12).
Proof.
  eexists _, _. split; [vm_compute; reflexivity|].
  split; [vm_compute; reflexivity|].
  repeat split; vm_compute; reflexivity.
Qed.

(** C2 on the example: the second row of the posts table. *)
Lemma posts_engagement_is_likes_plus_comments_witness :
  heap store_ex !! 0%nat = Some raw_ex
  ∧ returns_frame (build_posts_table sample_parse 0%nat) store_ex posts_ex
  ∧ exact_counts raw_ex ["likesCount"; "commentsCount"] = true
  ∧ cell_add (Int 10) (Int 2) = inr (Int 12)
  ∧ Z.abs 12 ≤ 2 ^ 53.
Proof.
  assert (heap store_ex !! 0%nat = Some raw_ex) as H1
    by (vm_compute; reflexivity).
  assert (returns_frame (build_posts_table sample_parse 0%nat) store_ex
            posts_ex) as H2
    by (eexists _, _; split; vm_compute; reflexivity).
  assert (exact_counts raw_ex ["likesCount"; "commentsCount"] = true) as H3
    by (vm_compute; reflexivity).
  split; [exact H1|]. split; [exact H2|]. split; [exact H3|].
  destruct (posts_engagement_is_likes_plus_comments sample_parse store_ex
              0%nat raw_ex posts_ex H1 H2 H3 1%nat (Int 10) (Int 2) (Int 12))
    as [Hadd Hbound]; [vm_compute; reflexivity..|].
  split; [exact Hadd|]. exact (Hbound 12 eq_refl).
Defined.

(** C3 on the example: the last two rows, both of alice, the lower one with
    a missing timestamp. *)
Lemma posts_rows_ordered_witness :
  heap store_ex !! 0%nat = Some raw_ex
  ∧ returns_frame (build_posts_table sample_parse 0%nat) store_ex posts_ex
  ∧ (isna (Str "alice") = true ∨ cell_leb (Str "alice") (Str "alice") = true)
  ∧ (same_key (Str "alice") (Str "alice") →
     isna NaT = true ∨ cell_leb NaT (Time 1704067200000000000) = true).
Proof.
  assert (heap store_ex !! 0%nat = Some raw_ex) as H1
    by (vm_compute; reflexivity).
  assert (returns_frame (build_posts_table sample_parse 0%nat) store_ex
            posts_ex) as H2
    by (eexists _, _; split; vm_compute; reflexivity).
  split; [exact H1|]. split; [exact H2|].
  apply (posts_rows_ordered sample_parse store_ex 0%nat raw_ex posts_ex H1 H2
           2%nat 3%nat); [lia|vm_compute; reflexivity..].
Defined.

(** The order as the specification words it fails on the example: the third
    row has a timestamp, the fourth, of the same user, has none, and no
    instant is greater than or equal to a missing one. *)
Lemma posts_order_missing_timestamp :
  heap store_ex !! 0%nat = Some raw_ex
  ∧ returns_frame (build_posts_table sample_parse 0%nat) store_ex posts_ex
  ∧ ¬ ordered_as_specified posts_ex.
Proof.
  split; [vm_compute; reflexivity|].
  split; [eexists _, _; split; vm_compute; reflexivity|].
  intros H.
  destruct (H 2%nat (Str "alice") (Str "alice") (Time 1704067200000000000) NaT)
    as [_ Hts]; try (vm_compute; reflexivity).
  specialize (Hts eq_refl). discriminate Hts.
Qed.

(** C8 on the example: the rows were rearranged by a permutation of the four
    row numbers. *)
Lemma posts_sort_is_stable_witness :
  heap store_ex !! 0%nat = Some raw_ex
  ∧ returns_frame (build_posts_table sample_parse 0%nat) store_ex posts_ex
  ∧ ∃ idx : list nat, idx ≡ₚ [0; 1; 2; 3]%nat.
Proof.
  assert (heap store_ex !! 0%nat = Some raw_ex) as H1
    by (vm_compute; reflexivity).
  assert (returns_frame (build_posts_table sample_parse 0%nat) store_ex
            posts_ex) as H2
    by (eexists _, _; split; vm_compute; reflexivity).
  split; [exact H1|]. split; [exact H2|].
  destruct (posts_sort_is_stable sample_parse store_ex 0%nat raw_ex posts_ex
              H1 H2) as (idx & Hperm & _).
  exists idx. exact Hperm.
Defined.

(** The two posts of alice at the same instant keep their order. *)
Lemma posts_sort_keeps_numbered_rows_example :
  cell_at posts_ex "ig_post_id" 1%nat = Some (Int 0)
  ∧ cell_at posts_ex "ig_post_id" 2%nat = Some (Int 2)
  ∧ 0 < 2.
Proof.
  assert (heap store_ex !! 0%nat = Some raw_ex) as H1
    by (vm_compute; reflexivity).
  assert (returns_frame (build_posts_table sample_parse 0%nat) store_ex
            posts_ex) as H2
    by (eexists _, _; split; vm_compute; reflexivity).
  split; [vm_compute; reflexivity|]. split; [vm_compute; reflexivity|].
  apply (posts_sort_keeps_numbered_rows sample_parse store_ex 0%nat raw_ex
           posts_ex H1 H2) with (p := 1%nat) (q := 2%nat)
           (u1 := Str "alice") (u2 := Str "alice")
           (t1 := Time 1704067200000000000) (t2 := Time 1704067200000000000);
    try (vm_compute; reflexivity).
  intros i Hi.
  change (raw_col raw_ex "id") with [Int 0; Int 1; Int 2; Int 3] in *.
  simpl in Hi. do 4 (destruct i as [|i]; [reflexivity|]). lia.
Qed.

(** C10 on the example. *)
Lemma build_posts_table_leaves_input_witness :
  heap store_ex !! 0%nat = Some raw_ex
  ∧ heap built_ex.2 !! 0%nat = Some raw_ex
  ∧ files built_ex.2 = files store_ex.
Proof.
  assert (heap store_ex !! 0%nat = Some raw_ex) as H1
    by (vm_compute; reflexivity).
  split; [exact H1|].
  destruct (build_posts_table_leaves_input sample_parse store_ex 0%nat raw_ex
              H1) as (Hraw & _ & Hfiles).
  split; [exact Hraw|exact Hfiles].
Defined.

(** C6 on the example: the record "def" has an empty timestamp. *)
Lemma unreadable_timestamp_becomes_null_witness :
  heap store_ex !! 0%nat = Some raw_ex
  ∧ valid_raw raw_ex = true
  ∧ ∃ posts,
      returns_frame (build_posts_table sample_parse 0%nat) store_ex posts
      ∧ ∃ p, cell_at posts "timestamp" p = Some NaT
             ∧ cell_at posts "shortcode" p = Some (Str "def").
Proof.
  assert (heap store_ex !! 0%nat = Some raw_ex) as H1
    by (vm_compute; reflexivity).
  assert (valid_raw raw_ex = true) as H2 by (vm_compute; reflexivity).
  split; [exact H1|]. split; [exact H2|].
  destruct (unreadable_timestamp_becomes_null sample_parse store_ex 0%nat
              raw_ex H1 H2) as (posts & Hret & Hrows).
  exists posts. split; [exact Hret|].
  destruct (Hrows 1%nat "") as (p & Hts & Hcells);
    [vm_compute; reflexivity|left; reflexivity|].
  exists p. split; [exact Hts|].
  apply (Hcells "shortCode"); [vm_compute; tauto|discriminate].
Defined.

(** C1 on the example: the builder, then [main] on a disk whose input file
    decodes to the table. *)
Lemma missing_columns_value_error_witness :
  heap store_missing !! 0%nat = Some raw_missing
  ∧ (∃ c, In c required_cols ∧ ¬ In c (columns raw_missing))
  ∧ build_posts_table sample_parse 0%nat store_missing
    = (inl (ValueError
              "Missing expected columns in JSON: ['url', 'inputUrl']"),
       store_missing)
  ∧ ∃ σ1,
      main sample_parse sample_format (read_as raw_missing) posix false disk_ex
      = (inl (ValueError
                "Missing expected columns in JSON: ['url', 'inputUrl']"), σ1)
      ∧ files σ1 = files disk_ex.
Proof.
  assert (heap store_missing !! 0%nat = Some raw_missing) as H1
    by (vm_compute; reflexivity).
  assert (∃ c, In c required_cols ∧ ¬ In c (columns raw_missing)) as H2.
  { exists "url". split; [vm_compute; tauto|].
    vm_compute. intros H. repeat (destruct H as [H|H]; [discriminate H|]).
    exact H. }
  split; [exact H1|]. split; [exact H2|].
  destruct (missing_columns_value_error sample_parse sample_format
              (read_as raw_missing) posix false store_missing 0%nat
              raw_missing H1 H2) as (_ & Hrun & Hmain).
  split; [exact Hrun|].
  apply (Hmain disk_ex "[...]"); vm_compute; reflexivity.
Defined.

(** The error of the schema check is not of a class named
    [SchemaValidationError]: the script raises the built-in [ValueError]. *)
Lemma missing_columns_error_class :
  heap store_missing !! 0%nat = Some raw_missing
  ∧ ¬ ∃ e σ',
        build_posts_table sample_parse 0%nat store_missing = (inl e, σ')
        ∧ exn_class e = "SchemaValidationError".
Proof.
  split; [vm_compute; reflexivity|].
  intros (e & σ' & Hrun & Hclass).
  rewrite (build_posts_table_missing sample_parse store_missing 0%nat
             raw_missing) in Hrun; [|vm_compute; reflexivity|discriminate].
  injection Hrun as <- _. discriminate Hclass.
Qed.


(** C4 on the example. *)
Lemma users_totals_witness :
  heap store_ex !! 0%nat = Some raw_ex
  ∧ build_posts_table sample_parse 0%nat store_ex = (inr 3%nat, built_ex.2)
  ∧ heap built_ex.2 !! 3%nat = Some posts_ex
  ∧ returns_frame (build_users_table 3%nat) built_ex.2 users_ex
  ∧ exact_counts raw_ex ["likesCount"; "commentsCount"] = true
  ∧ (∃ z, cell_at users_ex "total_engagement" 0%nat = Some (Int z)
          ∧ sum_skipna (owner_engagement posts_ex (owner_of users_ex 0%nat))
            = inr z
          ∧ Z.abs z ≤ 2 ^ 53)
  ∧ sum_skipna (raw_col users_ex "posts_count")
    = inr (Z.of_nat (nunique (raw_col posts_ex "post_id"))).
Proof.
  assert (heap store_ex !! 0%nat = Some raw_ex) as H1
    by (vm_compute; reflexivity).
  assert (build_posts_table sample_parse 0%nat store_ex
          = (inr 3%nat, built_ex.2)) as H2 by (vm_compute; reflexivity).
  assert (heap built_ex.2 !! 3%nat = Some posts_ex) as H3
    by (vm_compute; reflexivity).
  assert (returns_frame (build_users_table 3%nat) built_ex.2 users_ex) as H4
    by (eexists _, _; split; vm_compute; reflexivity).
  assert (exact_counts raw_ex ["likesCount"; "commentsCount"] = true) as H5
    by (vm_compute; reflexivity).
  split; [exact H1|]. split; [exact H2|]. split; [exact H3|].
  split; [exact H4|]. split; [exact H5|].
  destruct (users_totals sample_parse store_ex 0%nat raw_ex 3%nat built_ex.2
              posts_ex users_ex H1 H2 H3 H4 H5) as [Htot Hcount].
  split.
  - apply (Htot 0%nat). vm_compute. lia.
  - apply Hcount. intros i j Hi Hj.
    vm_compute in Hi. vm_compute in Hj.
    do 4 (destruct i as [|i];
          [do 4 (destruct j as [|j];
                 [vm_compute; first [reflexivity | discriminate]|]); lia|]).
    lia.
Defined.

(** The counts of the users table do not add up to the number of distinct
    post ids when a post id occurs under two owners: each owner counts it. *)
Lemma users_posts_count_shared_post :
  heap store_shared !! 0%nat = Some raw_shared
  ∧ ∃ l σ1 posts users,
      build_posts_table sample_parse 0%nat store_shared = (inr l, σ1)
      ∧ heap σ1 !! l = Some posts
      ∧ returns_frame (build_users_table l) σ1 users
      ∧ sum_skipna (raw_col users "posts_count") = inr 2
      ∧ nunique (raw_col posts "post_id") = 1%nat.
Proof.
  split; [vm_compute; reflexivity|].
  eexists _, _, _, _.
  split; [vm_compute; reflexivity|].
  split; [vm_compute; reflexivity|].
  split; [eexists _, _; split; vm_compute; reflexivity|].
  split; vm_compute; reflexivity.
Qed.




(** X1 on the example. *)
Lemma posts_table_shape_witness :
  heap store_ex !! 0%nat = Some raw_ex
  ∧ returns_frame (build_posts_table sample_parse 0%nat) store_ex posts_ex
  ∧ columns posts_ex = col_order
  ∧ nrows posts_ex = nrows raw_ex.
Proof.
  assert (heap store_ex !! 0%nat = Some raw_ex) as H1
    by (vm_compute; reflexivity).
  assert (returns_frame (build_posts_table sample_parse 0%nat) store_ex
            posts_ex) as H2
    by (eexists _, _; split; vm_compute; reflexivity).
  split; [exact H1|]. split; [exact H2|].
  destruct (posts_table_shape sample_parse store_ex 0%nat raw_ex posts_ex
              H1 H2) as (Hcols & _ & Hrows).
  split; [exact Hcols|]. apply Hrows. repeat constructor.
Defined.

(** X2 on the example: the first row of the posts table, Bob's post. *)
Lemma post_id_is_text_of_shortcode_witness :
  heap store_ex !! 0%nat = Some raw_ex
  ∧ returns_frame (build_posts_table sample_parse 0%nat) store_ex posts_ex
  ∧ rectangular raw_ex
  ∧ cell_at posts_ex "shortcode" 0%nat = Some (Str "zzz")
  ∧ cell_at posts_ex "post_id" 0%nat = Some (Str "zzz").
Proof.
  assert (heap store_ex !! 0%nat = Some raw_ex) as H1
    by (vm_compute; reflexivity).
  assert (returns_frame (build_posts_table sample_parse 0%nat) store_ex
            posts_ex) as H2
    by (eexists _, _; split; vm_compute; reflexivity).
  assert (rectangular raw_ex) as H3 by repeat constructor.
  assert (cell_at posts_ex "shortcode" 0%nat = Some (Str "zzz")) as H4
    by (vm_compute; reflexivity).
  split; [exact H1|]. split; [exact H2|]. split; [exact H3|].
  split; [exact H4|].
  exact (post_id_is_text_of_shortcode sample_parse store_ex 0%nat raw_ex
           posts_ex H1 H2 H3 0%nat "zzz" H4).
Defined.

(** X3 on the example: the raw table with and without its [extra]
    column. *)
Lemma posts_table_reads_required_columns_only_witness :
  heap store_ex !! 0%nat = Some raw_ex
  ∧ heap store_plain !! 5%nat = Some raw_plain
  ∧ nodupb (columns raw_ex) = true
  ∧ nodupb (columns raw_plain) = true
  ∧ (∀ c, In c required_cols → col_lookup c raw_ex = col_lookup c raw_plain)
  ∧ returns_frame (build_posts_table sample_parse 5%nat) store_plain posts_ex.
Proof.
  assert (heap store_ex !! 0%nat = Some raw_ex) as H1
    by (vm_compute; reflexivity).
  assert (heap store_plain !! 5%nat = Some raw_plain) as H2
    by (vm_compute; reflexivity).
  assert (nodupb (columns raw_ex) = true) as H3 by (vm_compute; reflexivity).
  assert (nodupb (columns raw_plain) = true) as H4
    by (vm_compute; reflexivity).
  assert (∀ c, In c required_cols →
               col_lookup c raw_ex = col_lookup c raw_plain) as H5.
  { intros c Hc. unfold required_cols in Hc. simpl in Hc.
    repeat (destruct Hc as [<-|Hc]; [vm_compute; reflexivity|]).
    destruct Hc. }
  assert (returns_frame (build_posts_table sample_parse 0%nat) store_ex
            posts_ex) as H6
    by (eexists _, _; split; vm_compute; reflexivity).
  split; [exact H1|]. split; [exact H2|]. split; [exact H3|].
  split; [exact H4|]. split; [exact H5|].
  apply (posts_table_reads_required_columns_only sample_parse store_ex 0%nat
           raw_ex store_plain 5%nat raw_plain posts_ex H1 H2 H3 H4 H5).
  exact H6.
Defined.

(** X4 on the example: the object the first call returned. *)
Lemma build_posts_table_rejects_posts_table_witness :
  heap store_ex !! 0%nat = Some raw_ex
  ∧ build_posts_table sample_parse 0%nat store_ex = (inr 3%nat, built_ex.2)
  ∧ ∃ msg, build_posts_table sample_parse 3%nat built_ex.2
           = (inl (ValueError msg), built_ex.2).
Proof.
  assert (heap store_ex !! 0%nat = Some raw_ex) as H1
    by (vm_compute; reflexivity).
  assert (build_posts_table sample_parse 0%nat store_ex
          = (inr 3%nat, built_ex.2)) as H2 by (vm_compute; reflexivity).
  split; [exact H1|]. split; [exact H2|].
  eexists.
  exact (build_posts_table_rejects_posts_table sample_parse store_ex 0%nat
           raw_ex 3%nat built_ex.2 H1 H2).
Defined.

(** X5 on the example: the record "abc" has a timestamp the parser
    reads. *)
Lemma readable_timestamp_is_parsed_witness :
  heap store_ex !! 0%nat = Some raw_ex
  ∧ returns_frame (build_posts_table sample_parse 0%nat) store_ex posts_ex
  ∧ rectangular raw_ex
  ∧ ∃ p, cell_at posts_ex "timestamp" p = Some (Time 1704067200000000000)
         ∧ cell_at posts_ex "shortcode" p = Some (Str "abc").
Proof.
  assert (heap store_ex !! 0%nat = Some raw_ex) as H1
    by (vm_compute; reflexivity).
  assert (returns_frame (build_posts_table sample_parse 0%nat) store_ex
            posts_ex) as H2
    by (eexists _, _; split; vm_compute; reflexivity).
  assert (rectangular raw_ex) as H3 by repeat constructor.
  split; [exact H1|]. split; [exact H2|]. split; [exact H3|].
  destruct (readable_timestamp_is_parsed sample_parse store_ex 0%nat raw_ex
              posts_ex H1 H2 H3 0%nat "2024-01-01T00:00:00.000Z"
              1704067200000000000) as (p & Hts & Hcells);
    [vm_compute; reflexivity|discriminate|vm_compute; reflexivity|].
  exists p. split; [exact Hts|].
  apply (Hcells "shortCode"); [vm_compute; tauto|discriminate].
Defined.

(** X6 on the example: the three posts of alice, rows 1 to 3. *)
Lemma posts_of_one_user_are_adjacent_witness :
  heap store_ex !! 0%nat = Some raw_ex
  ∧ returns_frame (build_posts_table sample_parse 0%nat) store_ex posts_ex
  ∧ same_key (Str "alice") (Str "alice").
Proof.
  assert (heap store_ex !! 0%nat = Some raw_ex) as H1
    by (vm_compute; reflexivity).
  assert (returns_frame (build_posts_table sample_parse 0%nat) store_ex
            posts_ex) as H2
    by (eexists _, _; split; vm_compute; reflexivity).
  split; [exact H1|]. split; [exact H2|].
  apply (posts_of_one_user_are_adjacent sample_parse store_ex 0%nat raw_ex
           posts_ex H1 H2 1%nat 2%nat 3%nat (Str "alice") (Str "alice")
           (Str "alice")); first [lia | vm_compute; reflexivity].
Defined.

(** X7 on the example. *)
Lemma build_users_table_leaves_input_witness :
  heap posts_store_ex !! 0%nat = Some posts_ex
  ∧ heap (build_users_table 0%nat posts_store_ex).2 !! 0%nat = Some posts_ex
  ∧ files (build_users_table 0%nat posts_store_ex).2 = files posts_store_ex.
Proof.
  assert (heap posts_store_ex !! 0%nat = Some posts_ex) as H1
    by (vm_compute; reflexivity).
  split; [exact H1|].
  destruct (build_users_table_leaves_input posts_store_ex 0%nat posts_ex H1)
    as (Hposts & _ & Hfiles).
  split; [exact Hposts|exact Hfiles].
Defined.

(** X8 on the example: two users for four posts. *)
Lemma users_table_shape_witness :
  heap posts_store_ex !! 0%nat = Some posts_ex
  ∧ returns_frame (build_users_table 0%nat) posts_store_ex users_ex
  ∧ columns users_ex = users_columns
  ∧ (nrows users_ex ≤ nrows posts_ex)%nat.
Proof.
  assert (heap posts_store_ex !! 0%nat = Some posts_ex) as H1
    by (vm_compute; reflexivity).
  assert (returns_frame (build_users_table 0%nat) posts_store_ex users_ex)
    as H2 by (eexists _, _; split; vm_compute; reflexivity).
  split; [exact H1|]. split; [exact H2|].
  destruct (users_table_shape posts_store_ex 0%nat posts_ex users_ex H1 H2)
    as (Hcols & _ & Hle & _).
  split; [exact Hcols|exact Hle].
Defined.

(** X9 on the example: alice, with 25, stands above Bob, with 10. *)
Lemma users_sorted_by_total_engagement_witness :
  heap posts_store_ex !! 0%nat = Some posts_ex
  ∧ returns_frame (build_users_table 0%nat) posts_store_ex users_ex
  ∧ ∃ x y, Int 25 = Int x ∧ Int 10 = Int y ∧ y ≤ x.
Proof.
  assert (heap posts_store_ex !! 0%nat = Some posts_ex) as H1
    by (vm_compute; reflexivity).
  assert (returns_frame (build_users_table 0%nat) posts_store_ex users_ex)
    as H2 by (eexists _, _; split; vm_compute; reflexivity).
  split; [exact H1|]. split; [exact H2|].
  apply (users_sorted_by_total_engagement posts_store_ex 0%nat posts_ex
           users_ex H1 H2 0%nat 1%nat);
    first [lia | vm_compute; reflexivity].
Defined.

(** X10 on the example: the row of alice. *)
Lemma users_likes_and_comments_totals_witness :
  heap posts_store_ex !! 0%nat = Some posts_ex
  ∧ returns_frame (build_users_table 0%nat) posts_store_ex users_ex
  ∧ exact_counts posts_ex ["likes"; "comments"] = true
  ∧ ∃ a b,
      cell_at users_ex "total_likes" 0%nat = Some (Int a)
      ∧ sum_skipna (owner_cells posts_ex "likes" (owner_of users_ex 0%nat))
        = inr a
      ∧ cell_at users_ex "total_comments" 0%nat = Some (Int b)
      ∧ sum_skipna (owner_cells posts_ex "comments" (owner_of users_ex 0%nat))
        = inr b
      ∧ Z.abs a ≤ 2 ^ 53 ∧ Z.abs b ≤ 2 ^ 53.
Proof.
  assert (heap posts_store_ex !! 0%nat = Some posts_ex) as H1
    by (vm_compute; reflexivity).
  assert (returns_frame (build_users_table 0%nat) posts_store_ex users_ex)
    as H2 by (eexists _, _; split; vm_compute; reflexivity).
  assert (exact_counts posts_ex ["likes"; "comments"] = true) as H3
    by (vm_compute; reflexivity).
  split; [exact H1|]. split; [exact H2|]. split; [exact H3|].
  apply (users_likes_and_comments_totals posts_store_ex 0%nat posts_ex
           users_ex H1 H2 H3 0%nat).
  vm_compute. lia.
Defined.

(** X11 on the example: the likes of alice. *)
Lemma users_averages_witness :
  heap posts_store_ex !! 0%nat = Some posts_ex
  ∧ returns_frame (build_users_table 0%nat) posts_store_ex users_ex
  ∧ exact_counts posts_ex ["likes"] = true
  ∧ ∃ z,
      cell_at users_ex "total_likes" 0%nat = Some (Int z)
      ∧ Z.abs z ≤ 2 ^ 53
      ∧ cell_at users_ex "avg_likes" 0%nat
        = Some (mean_of z
                  (series_count
                     (owner_cells posts_ex "likes" (owner_of users_ex 0%nat)))).
Proof.
  assert (heap posts_store_ex !! 0%nat = Some posts_ex) as H1
    by (vm_compute; reflexivity).
  assert (returns_frame (build_users_table 0%nat) posts_store_ex users_ex)
    as H2 by (eexists _, _; split; vm_compute; reflexivity).
  assert (exact_counts posts_ex ["likes"] = true) as H3
    by (vm_compute; reflexivity).
  split; [exact H1|]. split; [exact H2|]. split; [exact H3|].
  apply (users_averages posts_store_ex 0%nat posts_ex users_ex H1 H2 0%nat
           "avg_likes" "total_likes" "likes").
  - vm_compute. lia.
  - left. reflexivity.
  - exact H3.
Defined.

(** X12 on the example: the row of alice, two of whose three posts have a
    timestamp. *)
Lemma users_first_and_last_post_witness :
  heap posts_store_ex !! 0%nat = Some posts_ex
  ∧ returns_frame (build_users_table 0%nat) posts_store_ex users_ex
  ∧ ∃ first last,
      cell_at users_ex "first_post_timestamp" 0%nat = Some first
      ∧ cell_at users_ex "last_post_timestamp" 0%nat = Some last.
Proof.
  assert (heap posts_store_ex !! 0%nat = Some posts_ex) as H1
    by (vm_compute; reflexivity).
  assert (returns_frame (build_users_table 0%nat) posts_store_ex users_ex)
    as H2 by (eexists _, _; split; vm_compute; reflexivity).
  split; [exact H1|]. split; [exact H2|].
  assert (0 < nrows users_ex)%nat as H3 by (vm_compute; lia).
  destruct (users_first_and_last_post posts_store_ex 0%nat posts_ex users_ex
              H1 H2 0%nat H3) as (first & last & Hf & Hl & _).
  exists first, last. split; [exact Hf|exact Hl].
Defined.

(** X13 on the example: the likes of alice and Bob. *)
Lemma users_totals_add_up_witness :
  heap posts_store_ex !! 0%nat = Some posts_ex
  ∧ returns_frame (build_users_table 0%nat) posts_store_ex users_ex
  ∧ length (raw_col posts_ex "likes") = nrows posts_ex
  ∧ exact_counts posts_ex ["likes"] = true
  ∧ ∃ z, sum_skipna (raw_col users_ex "total_likes") = inr z
         ∧ sum_skipna (raw_col posts_ex "likes") = inr z
         ∧ Z.abs z ≤ 2 ^ 53.
Proof.
  assert (heap posts_store_ex !! 0%nat = Some posts_ex) as H1
    by (vm_compute; reflexivity).
  assert (returns_frame (build_users_table 0%nat) posts_store_ex users_ex)
    as H2 by (eexists _, _; split; vm_compute; reflexivity).
  assert (length (raw_col posts_ex "likes") = nrows posts_ex) as H3
    by (vm_compute; reflexivity).
  assert (exact_counts posts_ex ["likes"] = true) as H4
    by (vm_compute; reflexivity).
  split; [exact H1|]. split; [exact H2|]. split; [exact H3|].
  split; [exact H4|].
  apply (users_totals_add_up posts_store_ex 0%nat posts_ex users_ex H1 H2
           "total_likes" "likes"); [left; reflexivity|exact H3|exact H4].
Defined.

(** X14 on the example: the row of alice, 16 likes and 9 comments. *)
Lemma users_total_engagement_splits_witness :
  heap store_ex !! 0%nat = Some raw_ex
  ∧ build_posts_table sample_parse 0%nat store_ex = (inr 3%nat, built_ex.2)
  ∧ heap built_ex.2 !! 3%nat = Some posts_ex
  ∧ returns_frame (build_users_table 3%nat) built_ex.2 users_ex
  ∧ exact_counts raw_ex ["likesCount"; "commentsCount"] = true
  ∧ ∃ a b,
      cell_at users_ex "total_likes" 0%nat = Some (Int a)
      ∧ cell_at users_ex "total_comments" 0%nat = Some (Int b)
      ∧ cell_at users_ex "total_engagement" 0%nat = Some (Int (a + b))
      ∧ Z.abs a ≤ 2 ^ 53 ∧ Z.abs b ≤ 2 ^ 53 ∧ Z.abs (a + b) ≤ 2 ^ 53.
Proof.
  assert (heap store_ex !! 0%nat = Some raw_ex) as H1
    by (vm_compute; reflexivity).
  assert (build_posts_table sample_parse 0%nat store_ex
          = (inr 3%nat, built_ex.2)) as H2 by (vm_compute; reflexivity).
  assert (heap built_ex.2 !! 3%nat = Some posts_ex) as H3
    by (vm_compute; reflexivity).
  assert (returns_frame (build_users_table 3%nat) built_ex.2 users_ex) as H4
    by (eexists _, _; split; vm_compute; reflexivity).
  assert (exact_counts raw_ex ["likesCount"; "commentsCount"] = true) as H5
    by (vm_compute; reflexivity).
  split; [exact H1|]. split; [exact H2|]. split; [exact H3|].
  split; [exact H4|]. split; [exact H5|].
  apply (users_total_engagement_splits sample_parse store_ex 0%nat raw_ex
           3%nat built_ex.2 posts_ex users_ex H1 H2 H3 H4 H5 0%nat).
  - vm_compute. lia.
  - intros i Hi _. vm_compute in Hi.
    do 4 (destruct i as [|i]; [vm_compute; reflexivity|]). lia.
Defined.

(** X15 on the example: the row of alice. *)
Lemma users_posts_count_bounds_witness :
  heap store_ex !! 0%nat = Some raw_ex
  ∧ build_posts_table sample_parse 0%nat store_ex = (inr 3%nat, built_ex.2)
  ∧ heap built_ex.2 !! 3%nat = Some posts_ex
  ∧ returns_frame (build_users_table 3%nat) built_ex.2 users_ex
  ∧ rectangular raw_ex
  ∧ forallb is_text (raw_col raw_ex "shortCode") = true
  ∧ ∃ n,
      cell_at users_ex "posts_count" 0%nat = Some (Int n)
      ∧ n = Z.of_nat
              (length
                 (remove_dups
                    (owner_cells posts_ex "shortcode"
                       (owner_of users_ex 0%nat))))
      ∧ 1 ≤ n
        ≤ Z.of_nat
            (length
               (owner_cells posts_ex "shortcode" (owner_of users_ex 0%nat))).
Proof.
  assert (heap store_ex !! 0%nat = Some raw_ex) as H1
    by (vm_compute; reflexivity).
  assert (build_posts_table sample_parse 0%nat store_ex
          = (inr 3%nat, built_ex.2)) as H2 by (vm_compute; reflexivity).
  assert (heap built_ex.2 !! 3%nat = Some posts_ex) as H3
    by (vm_compute; reflexivity).
  assert (returns_frame (build_users_table 3%nat) built_ex.2 users_ex) as H4
    by (eexists _, _; split; vm_compute; reflexivity).
  assert (rectangular raw_ex) as H5 by repeat constructor.
  assert (forallb is_text (raw_col raw_ex "shortCode") = true) as H6
    by (vm_compute; reflexivity).
  split; [exact H1|]. split; [exact H2|]. split; [exact H3|].
  split; [exact H4|]. split; [exact H5|]. split; [exact H6|].
  assert (0 < nrows users_ex)%nat as H7 by (vm_compute; lia).
  destruct (users_posts_count_bounds sample_parse store_ex 0%nat raw_ex 3%nat
              built_ex.2 posts_ex users_ex H1 H2 H3 H4 H5 H6 0%nat H7)
    as (n & Hn & Hdistinct & Hbounds & _).
  exists n. split; [exact Hn|]. split; [exact Hdistinct|exact Hbounds].
Defined.

(** X16 on the example: the input file after the run. *)
Lemma main_touches_only_outputs_witness :
  RAW_POSTS_JSON ≠ POSTS_CSV
  ∧ RAW_POSTS_JSON ≠ USERS_CSV
  ∧ files main_ex.2 !! RAW_POSTS_JSON = files disk_ex !! RAW_POSTS_JSON.
Proof.
  assert (RAW_POSTS_JSON ≠ POSTS_CSV) as H1 by discriminate.
  assert (RAW_POSTS_JSON ≠ USERS_CSV) as H2 by discriminate.
  split; [exact H1|]. split; [exact H2|].
  exact (main_touches_only_outputs sample_parse sample_format (read_as raw_ex)
           posix false disk_ex RAW_POSTS_JSON H1 H2).
Defined.

(** X17 on the example. *)
Lemma main_writes_both_tables_witness :
  main sample_parse sample_format (read_as raw_ex) posix false disk_ex
  = (inr tt, main_ex.2)
  ∧ ∃ posts users,
      files main_ex.2 =
        <[USERS_CSV := csv_text posix false (csv_records sample_format users)]>
          (<[POSTS_CSV := csv_text posix false
                            (csv_records sample_format posts)]>
             (files disk_ex)).
Proof.
  assert (main sample_parse sample_format (read_as raw_ex) posix false disk_ex
          = (inr tt, main_ex.2)) as H1 by (vm_compute; reflexivity).
  split; [exact H1|].
  destruct (main_writes_both_tables sample_parse sample_format
              (read_as raw_ex) posix false disk_ex main_ex.2 H1)
    as (json & raw & posts & users & _ & _ & _ & _ & Hfiles).
  exists posts, users. exact Hfiles.
Defined.

(** X18 on the example: an input without its [url] and [inputUrl]
    columns. *)
Lemma main_failure_leaves_users_csv_witness :
  (∀ json raw, files disk_ex !! RAW_POSTS_JSON = Some json →
               read_as raw_missing json = inr raw → encodable raw = true)
  ∧ main sample_parse sample_format (read_as raw_missing) posix false disk_ex
    = (inl (ValueError
              "Missing expected columns in JSON: ['url', 'inputUrl']"),
       main_missing_ex.2)
  ∧ files main_missing_ex.2 !! USERS_CSV = files disk_ex !! USERS_CSV.
Proof.
  assert (∀ json raw, files disk_ex !! RAW_POSTS_JSON = Some json →
                      read_as raw_missing json = inr raw →
                      encodable raw = true) as H0.
  { intros json raw _ [= <-]. vm_compute. reflexivity. }
  assert (main sample_parse sample_format (read_as raw_missing) posix false
            disk_ex
          = (inl (ValueError
                    "Missing expected columns in JSON: ['url', 'inputUrl']"),
             main_missing_ex.2)) as H1 by (vm_compute; reflexivity).
  split; [exact H0|]. split; [exact H1|].
  destruct (main_failure_leaves_users_csv sample_parse sample_format
              (read_as raw_missing) posix false disk_ex _ main_missing_ex.2
              H0 H1)
    as [Husers _].
  exact Husers.
Defined.

(** X20 on the example. *)
Lemma main_again_changes_nothing_witness :
  main sample_parse sample_format (read_as raw_ex) posix false disk_ex
  = (inr tt, main_ex.2)
  ∧ ∃ σ2,
      main sample_parse sample_format (read_as raw_ex) posix false main_ex.2
      = (inr tt, σ2)
      ∧ files σ2 = files main_ex.2.
Proof.
  assert (main sample_parse sample_format (read_as raw_ex) posix false disk_ex
          = (inr tt, main_ex.2)) as H1 by (vm_compute; reflexivity).
  split; [exact H1|].
  exact (main_again_changes_nothing sample_parse sample_format
           (read_as raw_ex) posix false disk_ex main_ex.2 H1).
Defined.

(** X21 on the example. *)
Lemma main_completes_on_valid_input_witness :
  files disk_ex !! RAW_POSTS_JSON = Some "[...]"
  ∧ read_as raw_ex "[...]" = inr raw_ex
  ∧ valid_raw raw_ex = true
  ∧ valid_owners raw_ex = true
  ∧ encodable raw_ex = true
  ∧ ∃ σ',
      main sample_parse sample_format (read_as raw_ex) posix false disk_ex
      = (inr tt, σ')
      ∧ is_Some (files σ' !! POSTS_CSV)
      ∧ is_Some (files σ' !! USERS_CSV).
Proof.
  assert (files disk_ex !! RAW_POSTS_JSON = Some "[...]") as H1
    by (vm_compute; reflexivity).
  assert (read_as raw_ex "[...]" = inr raw_ex) as H2 by reflexivity.
  assert (valid_raw raw_ex = true) as H3 by (vm_compute; reflexivity).
  assert (valid_owners raw_ex = true) as H4 by (vm_compute; reflexivity).
  assert (encodable raw_ex = true) as H5 by (vm_compute; reflexivity).
  split; [exact H1|]. split; [exact H2|]. split; [exact H3|].
  split; [exact H4|]. split; [exact H5|].
  exact (main_completes_on_valid_input sample_parse sample_format
           (read_as raw_ex) posix false disk_ex "[...]" raw_ex H1 H2 H3 H4
           H5).
Defined.

